(** * what-the-token: the usage calculator (lib/calculator.ts)

    A shallow embedding of the token/cost calculator and of the
    protocol state of its tokenizer worker, with the properties of
    the rolling-context accumulator, the image tiling formula and the
    day/hour/model aggregator.

    Conventions.  JavaScript numbers that hold counts (tokens,
    messages, conversations) are integers [Z], which doubles hold
    exactly below 2^53; costs are IEEE-754 doubles, as in the source
    (primitive floats); numbers read from the export (timestamps, pixel
    sizes) are exact rationals [Q].  Records used as dictionaries are
    [gmap string _], finite maps of their own keys; sets of slugs are
    [gset string]; the 24-slot [hours] array is a list.  The export is
    typed after the ChatGPT export format: a property holds a value of
    the expected type or is absent ([None]); the wall clock is an
    explicit argument [now].  An exception aborts the run, so a
    throwing operation returns no state. *)

From Stdlib Require Import ZArith QArith Qround Lia String Ascii List Bool.
From Stdlib Require Import PrimFloat Uint63.
From stdpp Require Import base numbers list strings gmap fin_maps pretty.

Local Open Scope string_scope.
Local Open Scope Z_scope.

#[local] Set Warnings "-clear-no-such-hyp,-inexact-float".

(** ** Exceptions *)

(** The only exception the calculator can raise on parsed JSON is the
    [TypeError] of reading a property of [undefined]. *)
Inductive error : Type := TypeError.

Inductive result (A : Type) : Type :=
| Ok (a : A)
| Throw (e : error).
Arguments Ok {A} a.
Arguments Throw {A} e.

#[global] Instance result_ret : MRet result := fun _ a => Ok a.

#[global] Instance result_bind : MBind result := fun _ _ k r =>
  match r with
  | Ok a => k a
  | Throw e => Throw e
  end.

(** A [for (const x of xs)] loop whose body may throw. *)
Fixpoint forM {S A : Type} (body : S -> A -> result S) (xs : list A) (s : S) : result S :=
  match xs with
  | [] => Ok s
  | x :: xs' => s' ← body s x; forM body xs' s'
  end.

(** ** Number helpers *)

Definition Qgtb (a b : Q) : bool := negb (Qle_bool a b).

Definition lowerChar (c : ascii) : ascii :=
  let n := nat_of_ascii c in
  if ((65 <=? n)%nat && (n <=? 90)%nat)%bool then ascii_of_nat (n + 32) else c.

(** [String.prototype.toLowerCase], on the ASCII letters. *)
Fixpoint toLowerCase (s : string) : string :=
  match s with
  | EmptyString => EmptyString
  | String c s' => String (lowerChar c) (toLowerCase s')
  end.

(** ** Image token estimation *)

Definition countImageTokens (width height : Q) (detail : string) : Z :=
  if String.eqb (toLowerCase detail) "low" then 85
  else
    let '(width, height) :=
      if (Qgtb width 2048 || Qgtb height 2048)%bool then
        let aspectRatio := (width / height)%Q in
        if Qgtb aspectRatio 1
        then (2048%Q, inject_Z (Qfloor (2048 / aspectRatio)))
        else (inject_Z (Qfloor (2048 * aspectRatio)), 2048%Q)
      else (width, height) in
    let tilesWide := Qceiling (width / 512) in
    let tilesHigh := Qceiling (height / 512) in
    let numTiles := tilesWide * tilesHigh in
    85 + 170 * numTiles.



(** ** Model cost definitions *)

Record ModelCost : Type := { input : float; output : float }.

(** The double that holds an integer count (exact below 2^53). *)
Definition toFloat (z : Z) : float :=
  match z with
  | Z0 => 0%float
  | Zpos _ => of_uint63 (Uint63.of_Z z)
  | Zneg p => (- of_uint63 (Uint63.of_Z (Zpos p)))%float
  end.

(** The initial contents of the mutable table [MODEL_COSTS] (USD per
    million tokens). *)
Definition MODEL_COSTS : gmap string ModelCost :=
  list_to_map
    [ ("o1-pro", {| input := 150.0; output := 600.0 |});
      ("o1-mini", {| input := 1.1; output := 4.4 |});
      ("o4-mini-high", {| input := 1.1; output := 4.4 |});
      ("o4-mini", {| input := 1.1; output := 4.4 |});
      ("gpt-4", {| input := 30.0; output := 60.0 |});
      ("gpt-4-turbo", {| input := 10.0; output := 30.0 |});
      ("gpt-4o", {| input := 5.0; output := 15.0 |});
      ("gpt-3.5-turbo", {| input := 0.5; output := 1.5 |});
      ("o3-mini", {| input := 1.1; output := 4.4 |});
      ("o3-mini-high", {| input := 1.1; output := 4.4 |});
      ("gpt-4o-jawbone", {| input := 2.5; output := 10.0 |});
      ("gpt-4-5", {| input := 75.0; output := 150.0 |});
      ("text-davinci-002-render-sha", {| input := 12.0; output := 12.0 |});
      ("o1", {| input := 15.0; output := 60.0 |});
      ("o3", {| input := 10.0; output := 40.0 |});
      ("o1-preview", {| input := 15.0; output := 60.0 |});
      ("gpt-4o-mini", {| input := 0.15; output := 0.6 |});
      ("gpt-4-gizmo", {| input := 30.0; output := 60.0 |});
      ("gpt-4-code-interpreter", {| input := 30.0; output := 60.0 |});
      ("auto", {| input := 5.0; output := 15.0 |});
      ("research", {| input := 1.1; output := 4.4 |});
      ("dalle-2", {| input := 0; output := 0 |});
      ("dalle-3", {| input := 0; output := 0 |});
      ("gpt-image-1", {| input := 0; output := 0 |}) ].

(** Flat cost per generated image (USD). *)
Definition IMAGE_MODEL_COSTS : gmap string float :=
  list_to_map
    [ ("dalle-2", 0.02%float);
      ("dalle-3", 0.08%float);
      ("gpt-image-1", 0.167%float) ].

(** ** Aggregation data structures *)

Module HourBucket.
Record t : Type := mk {
  input_tokens : Z;
  output_tokens : Z;
  cost : float;
  message_count : Z;
  conversation_count : Z }.
End HourBucket.

Module BucketWithHours.
Record t : Type := mk {
  input_tokens : Z;
  output_tokens : Z;
  cost : float;
  message_count : Z;
  conversation_count : Z;
  hours : list HourBucket.t }.
End BucketWithHours.

Module DayBucket.
Record t : Type := mk {
  total : BucketWithHours.t;
  models : gmap string BucketWithHours.t }.
End DayBucket.

(** [dayOrder] is the insertion order of the keys of [usageByDay], the
    order in which [for ... in] visits them. *)
Module Aggregator.
Record t : Type := mk {
  usageByDay : gmap string DayBucket.t;
  dayOrder : list string;
  startDate : option string;
  endDate : option string;
  totalCostAllModels : option float;
  allModelSlugs : option (gset string) }.
End Aggregator.

Definition createHourBucket : HourBucket.t :=
  HourBucket.mk 0 0 0%float 0 0.

Definition createBucketWithHours : BucketWithHours.t :=
  BucketWithHours.mk 0 0 0%float 0 0 (replicate 24 createHourBucket).

Definition createDayBucket : DayBucket.t :=
  DayBucket.mk createBucketWithHours ∅.

(** The aggregator a run starts from. *)
Definition emptyAggregator : Aggregator.t :=
  Aggregator.mk ∅ [] None None (Some 0%float) (Some ∅).

(** A number used as an array index: an integer or [NaN]. *)
Inductive jsint : Type :=
| Int (z : Z)
| NaN.

(** [hours[hour]]: [None] is [undefined]. *)
Definition slot (hours : list HourBucket.t) (hour : jsint) : option (nat * HourBucket.t) :=
  match hour with
  | Int z => if 0 <=? z then (fun h => (Z.to_nat z, h)) <$> (hours !! Z.to_nat z) else None
  | NaN => None
  end.

(** The four [+=] on one hour bucket; reading a field of [undefined]
    throws. *)
Definition addToHour (hours : list HourBucket.t) (hour : jsint)
    (inputTokens outputTokens : Z) (cost : float) : result (list HourBucket.t) :=
  match slot hours hour with
  | Some (i, h) =>
      Ok (<[i := HourBucket.mk
                   (HourBucket.input_tokens h + inputTokens)
                   (HourBucket.output_tokens h + outputTokens)
                   (HourBucket.cost h + cost)%float
                   (HourBucket.message_count h + 1)
                   (HourBucket.conversation_count h)]> hours)
  | None => Throw TypeError
  end.

(** The four [+=] on the daily totals of a bucket. *)
Definition addToTotals (b : BucketWithHours.t) (hours : list HourBucket.t)
    (inputTokens outputTokens : Z) (cost : float) : BucketWithHours.t :=
  BucketWithHours.mk
    (BucketWithHours.input_tokens b + inputTokens)
    (BucketWithHours.output_tokens b + outputTokens)
    (BucketWithHours.cost b + cost)%float
    (BucketWithHours.message_count b + 1)
    (BucketWithHours.conversation_count b)
    hours.

(** The cost computed inside [updateAggregatorUsage]. *)
Definition usageCost (costs : gmap string ModelCost) (modelSlug : string)
    (inputTokens outputTokens : Z) : float :=
  match IMAGE_MODEL_COSTS !! modelSlug with
  | Some perImage =>
      let numberOfImages := outputTokens in
      (toFloat numberOfImages * perImage)%float
  | None =>
      let costCfg := default {| input := 0; output := 0 |} (costs !! modelSlug) in
      ((toFloat inputTokens / 1e6) * input costCfg +
       (toFloat outputTokens / 1e6) * output costCfg)%float
  end.

(** [aggregator.usageByDay[dayKey] = dayBucket]. *)
Definition setDay (aggregator : Aggregator.t) (dayKey : string) (dayBucket : DayBucket.t)
    : Aggregator.t :=
  Aggregator.mk
    (<[dayKey := dayBucket]> (Aggregator.usageByDay aggregator))
    (match Aggregator.usageByDay aggregator !! dayKey with
     | Some _ => Aggregator.dayOrder aggregator
     | None => Aggregator.dayOrder aggregator ++ [dayKey]
     end)
    (Aggregator.startDate aggregator) (Aggregator.endDate aggregator)
    (Aggregator.totalCostAllModels aggregator) (Aggregator.allModelSlugs aggregator).

Definition updateAggregatorUsage (costs : gmap string ModelCost)
    (aggregator : Aggregator.t) (dayKey : string) (hour : jsint) (modelSlug : string)
    (inputTokens outputTokens : Z) : result Aggregator.t :=
  let dayBucket := default createDayBucket (Aggregator.usageByDay aggregator !! dayKey) in
  let modelBucket := default createBucketWithHours (DayBucket.models dayBucket !! modelSlug) in
  let cost := usageCost costs modelSlug inputTokens outputTokens in
  modelHours ← addToHour (BucketWithHours.hours modelBucket) hour inputTokens outputTokens cost;
  let modelBucket := addToTotals modelBucket modelHours inputTokens outputTokens cost in
  totalHours ← addToHour (BucketWithHours.hours (DayBucket.total dayBucket)) hour
                  inputTokens outputTokens cost;
  let total := addToTotals (DayBucket.total dayBucket) totalHours inputTokens outputTokens cost in
  Ok (setDay aggregator dayKey
        (DayBucket.mk total (<[modelSlug := modelBucket]> (DayBucket.models dayBucket)))).

(** ** Rolling-context accumulation *)

Module FlatMsg.
Record t : Type := mk {
  role : option string;
  contentTokens : option Z;
  outputTokens : option Z;
  searchTokens : option Z;
  model_slug : option string;
  isReasoningMessage : bool;
  isReasoningRecap : bool;
  isFinalMessage : bool }.
End FlatMsg.

(** The local variables of [processFlatMessagesWithTokenCounts]
    together with the aggregator it mutates. *)
Record FlatState : Type := {
  rollingContextTokens : Z;
  rollingOutputTokens : Z;
  modelsUsed : gset string;
  agg : Aggregator.t }.

Definition isContextRole (role : string) : bool :=
  (String.eqb role "user" || String.eqb role "system" || String.eqb role "tool")%bool.

(** One iteration of the loop over the flattened messages. *)
Definition flatStep (costs : gmap string ModelCost) (dayKey : string) (hour : jsint)
    (st : FlatState) (msg : FlatMsg.t) : result FlatState :=
  let role := default "unknown" (FlatMsg.role msg) in
  let contentTokens := default 0 (FlatMsg.contentTokens msg) in
  let searchTokens := default 0 (FlatMsg.searchTokens msg) in
  let outputTokens := default 0 (FlatMsg.outputTokens msg) in
  let modelSlug := default "unknown_model" (FlatMsg.model_slug msg) in
  if FlatMsg.isReasoningRecap msg then Ok st
  else
    let rollingContextTokens :=
      if 0 <? searchTokens then rollingContextTokens st + searchTokens
      else rollingContextTokens st in
    if isContextRole role then
      Ok {| rollingContextTokens := rollingContextTokens + contentTokens;
            rollingOutputTokens := rollingOutputTokens st;
            modelsUsed := modelsUsed st;
            agg := agg st |}
    else if String.eqb role "assistant" then
      let modelsUsed :=
        if negb (String.eqb modelSlug "unknown_model") then {[ modelSlug ]} ∪ modelsUsed st
        else modelsUsed st in
      let rollingContextTokens := rollingContextTokens + (contentTokens + outputTokens) in
      let rollingOutputTokens := rollingOutputTokens st + outputTokens in
      if FlatMsg.isFinalMessage msg then
        aggregator ← updateAggregatorUsage costs (agg st) dayKey hour modelSlug
                        rollingContextTokens rollingOutputTokens;
        Ok {| rollingContextTokens := rollingContextTokens;
              rollingOutputTokens := 0;
              modelsUsed := modelsUsed;
              agg := aggregator |}
      else
        Ok {| rollingContextTokens := rollingContextTokens;
              rollingOutputTokens := rollingOutputTokens;
              modelsUsed := modelsUsed;
              agg := agg st |}
    else
      Ok {| rollingContextTokens := rollingContextTokens;
            rollingOutputTokens := rollingOutputTokens st;
            modelsUsed := modelsUsed st;
            agg := agg st |}.

Definition flatInit (aggregator : Aggregator.t) : FlatState :=
  {| rollingContextTokens := 0; rollingOutputTokens := 0;
     modelsUsed := ∅; agg := aggregator |}.

(** The state of the loop after the given messages. *)
Definition flatRun (costs : gmap string ModelCost) (dayKey : string) (hour : jsint)
    (messages : list FlatMsg.t) (aggregator : Aggregator.t) : result FlatState :=
  forM (flatStep costs dayKey hour) messages (flatInit aggregator).

Definition processFlatMessagesWithTokenCounts (costs : gmap string ModelCost)
    (messages : list FlatMsg.t) (dayKey : string) (hour : jsint)
    (aggregator : Aggregator.t) : result (Aggregator.t * gset string) :=
  st ← flatRun costs dayKey hour messages aggregator;
  Ok (agg st, modelsUsed st).

(** ** Date/time helpers *)

(** A JavaScript number that may be [NaN]: [None] is [NaN]. *)
Abbreviation number := (option Q).

(** [ToIntegerOrInfinity]: truncation toward zero. *)
Definition Qtrunc (q : Q) : Z :=
  if Qle_bool 0 q then Qfloor q else Qceiling q.

Definition Qabs_le (q bound : Q) : bool :=
  (Qle_bool q bound && Qle_bool (- bound) q)%bool.

(** [new Date(value)]: the time value in milliseconds, or [None] for an
    invalid date ([TimeClip]). *)
Definition newDate (value : number) : option Z :=
  match value with
  | Some ms => if Qabs_le ms 8.64e15 then Some (Qtrunc ms) else None
  | None => None
  end.

Definition msPerDay : Z := 86400000.
Definition msPerHour : Z := 3600000.

(** Year, month (1-12) and day of month of a day number counted from
    1970-01-01, in the proleptic Gregorian calendar. *)
Definition civilFromDays (days : Z) : Z * Z * Z :=
  let z := days + 719468 in
  let era := z / 146097 in
  let doe := z - era * 146097 in
  let yoe := (doe - doe / 1460 + doe / 36524 - doe / 146096) / 365 in
  let y := yoe + era * 400 in
  let doy := doe - (365 * yoe + yoe / 4 - yoe / 100) in
  let mp := (5 * doy + 2) / 153 in
  let d := doy - (153 * mp + 2) / 5 + 1 in
  let m := if mp <? 10 then mp + 3 else mp - 9 in
  (if m <=? 2 then y + 1 else y, m, d).

Definition getUTCFullYear (date : option Z) : jsint :=
  match date with
  | Some t => Int (fst (fst (civilFromDays (t / msPerDay))))
  | None => NaN
  end.

(** Months are numbered from 0. *)
Definition getUTCMonth (date : option Z) : jsint :=
  match date with
  | Some t => Int (snd (fst (civilFromDays (t / msPerDay))) - 1)
  | None => NaN
  end.

Definition getUTCDate (date : option Z) : jsint :=
  match date with
  | Some t => Int (snd (civilFromDays (t / msPerDay)))
  | None => NaN
  end.

Definition getUTCHours (date : option Z) : jsint :=
  match date with
  | Some t => Int ((t / msPerHour) mod 24)
  | None => NaN
  end.

Definition plusOne (n : jsint) : jsint :=
  match n with
  | Int z => Int (z + 1)
  | NaN => NaN
  end.

(** [String(n)] and the template conversion of an integer or [NaN]. *)
Definition toString (n : jsint) : string :=
  match n with
  | Int z => pretty z
  | NaN => "NaN"
  end.

(** [s.padStart(2, "0")]. *)
Definition padStart2 (s : string) : string :=
  match String.length s with
  | O => "00"
  | S O => "0" +:+ s
  | _ => s
  end.

(** The reassignment shared by both helpers: a value above [1e11] is
    taken to be in milliseconds. *)
Definition toSeconds (unixTime : number) : number :=
  match unixTime with
  | Some t => if Qgtb t 1e11 then Some (inject_Z (Qfloor (t / 1000))) else Some t
  | None => None
  end.

Definition times1000 (unixTime : number) : number :=
  (fun t => t * 1000)%Q <$> unixTime.

Definition getDayKey (unixTime : number) : string :=
  let unixTime := toSeconds unixTime in
  let date := newDate (times1000 unixTime) in
  let y := getUTCFullYear date in
  let m := padStart2 (toString (plusOne (getUTCMonth date))) in
  let d := padStart2 (toString (getUTCDate date)) in
  toString y +:+ "-" +:+ m +:+ "-" +:+ d.

Definition getHourOfDay (unixTime : number) : jsint :=
  let unixTime := toSeconds unixTime in
  getUTCHours (newDate (times1000 unixTime)).

(** ** The export format *)

(** Untyped JSON, for the blobs that are only serialised. *)
#[warnings="-register-all"]
Inductive json : Type :=
| JNull
| JBool (b : bool)
| JNumber (q : Q)
| JString (s : string)
| JArray (items : list json)
| JObject (fields : list (string * json)).

Definition truthy (j : json) : bool :=
  match j with
  | JNull => false
  | JBool b => b
  | JNumber q => negb (Qeq_bool q 0)
  | JString s => negb (String.eqb s "")
  | JArray _ | JObject _ => true
  end.

(** Truthiness of an optional string property. *)
Definition nonEmpty (o : option string) : bool :=
  match o with
  | Some s => negb (String.eqb s "")
  | None => false
  end.

(** [o === s] for an optional string property. *)
Definition strIs (o : option string) (s : string) : bool :=
  match o with
  | Some s' => String.eqb s' s
  | None => false
  end.

(** [a || b] on optional strings. *)
Definition orElse (a b : option string) : option string :=
  if nonEmpty a then a else b.

Module Part.
Record obj : Type := mkObj {
  asset_pointer : option string;
  content_type : option string;
  width : number;
  height : number;
  generation : bool;   (* metadata?.generation is truthy *)
  dalle : bool }.      (* metadata?.dalle is truthy *)

(** An element of [content.parts]: a string, an object, or anything
    else ([null], a number, a boolean). *)
Inductive t : Type :=
| Str (s : string)
| Obj (o : obj)
| Other.
End Part.

Module Thought.
Record t : Type := mk {
  content : option string;
  summary : option string }.
End Thought.

Module Content.
Record t : Type := mk {
  content_type : option string;
  parts : option (list Part.t);
  text : option string;
  thoughts : option (list Thought.t);
  result : option string }.
End Content.

Module Metadata.
Record t : Type := mk {
  model_slug : option string;
  reasoning_status : option string;
  search_result_groups : option json;
  citations : option json;
  async_task_id : option string;
  image_gen_async : bool;      (* the property is truthy *)
  generation : bool;           (* the property is truthy *)
  about_model_message : option string }. (* user_context_message_data?.about_model_message *)
End Metadata.

Module Author.
Record t : Type := mk {
  role : option string;
  name : option string }.
End Author.

Module Message.
Record t : Type := mk {
  author : option Author.t;
  content : option Content.t;
  metadata : option Metadata.t;
  end_turn : bool;             (* the property is truthy *)
  channel : option string }.
End Message.

Module Node.
Record t : Type := mk {
  message : option Message.t;
  model_slug : option string }. (* metadata?.model_slug *)
End Node.

(** An element of the legacy [conversation.messages] array, read only by
    the slug scan. *)
Module DirectMessage.
Record t : Type := mk {
  metadata_model_slug : option string;
  model_slug : option string;
  author_name : option string;
  name : option string;
  image_gen_async : bool }.
End DirectMessage.

(** The value of [create_time] when present: a number, or any other
    non-null value together with its numeric conversion. *)
Inductive TimeValue : Type :=
| TNumber (q : Q)
| TOther (n : number).

Definition toNumber (v : TimeValue) : number :=
  match v with
  | TNumber q => Some q
  | TOther n => n
  end.

Module Conversation.
Record t : Type := mk {
  create_time : option TimeValue;
  mapping : option (list (string * Node.t));
  messages : option (list DirectMessage.t);
  default_model_slug : option string }.
End Conversation.

(** [s.includes(sub)]. *)
Fixpoint includes (s sub : string) : bool :=
  if String.prefix sub s then true
  else match s with
       | EmptyString => false
       | String _ s' => includes s' sub
       end.

Definition sumZ (l : list Z) : Z := foldr Z.add 0 l.

(** [p?.content_type === "image_asset_pointer"]. *)
Definition isImagePointer (p : Part.t) : bool :=
  match p with
  | Part.Obj o => strIs (Part.content_type o) "image_asset_pointer"
  | _ => false
  end.

(** [part.width || 1024]. *)
Definition orDefault (n : number) (d : Q) : Q :=
  match n with
  | Some q => if Qeq_bool q 0 then d else q
  | None => d
  end.

Definition isImageAsset (o : Part.obj) : bool :=
  (nonEmpty (Part.asset_pointer o) || strIs (Part.content_type o) "image_asset_pointer")%bool.

Definition imagePartTokens (o : Part.obj) : Z :=
  let w := orDefault (Part.width o) 1024 in
  let h := orDefault (Part.height o) 1024 in
  countImageTokens w h "high".

Definition countImages (parts : list Part.t) : Z :=
  Z.of_nat (length (List.filter isImagePointer parts)).

(** The local variables of [processMappedMessages] and the aggregator. *)
Module Walk.
Record state : Type := mk {
  nodeMessages : list FlatMsg.t;
  modelsUsed : gset string;
  agg : Aggregator.t }.
End Walk.

Section Calculator.

(** The number of tokens the worker's encoder reports for a non-empty
    text, and [JSON.stringify]. *)
Variable encode : string -> Z.
Variable JSON_stringify : json -> string.

(** The value a [countTextTokens] promise resolves to. *)
Definition countTextTokens (text : string) : Z :=
  if String.eqb text "" then 0 else encode text.

(** [if (s) n += await countTextTokens(s)] for an optional string. *)
Definition textTokens (o : option string) : Z :=
  match o with
  | Some s => countTextTokens s
  | None => 0
  end.

(** *** Per-node token extraction *)

(** USER or SYSTEM messages: the content tokens. *)
Definition userPartTokens (part : Part.t) : Z :=
  match part with
  | Part.Str s => countTextTokens s
  | Part.Obj o => if isImageAsset o then imagePartTokens o else 20
  | Part.Other => 0
  end.

Definition userSystemTokens (msg : Message.t) : Z :=
  let contentTokens :=
    match Message.content msg ≫= Content.parts with
    | Some parts => sumZ (userPartTokens <$> parts)
    | None => textTokens (Message.content msg ≫= Content.text)
    end in
  contentTokens + textTokens (Message.metadata msg ≫= Metadata.about_model_message).

(** TOOL messages: the search tokens. *)
Definition toolSearchTokens (msg : Message.t) : Z :=
  match Message.metadata msg ≫= Metadata.search_result_groups with
  | Some groups => if truthy groups then countTextTokens (JSON_stringify groups) else 0
  | None => 0
  end.

(** TOOL messages: the content tokens of the tool's own string parts. *)
Definition toolPartTokens (part : Part.t) : Z :=
  match part with
  | Part.Str s => countTextTokens s
  | _ => 0
  end.

Definition toolContentTokens (msg : Message.t) : Z :=
  match Message.content msg ≫= Content.parts with
  | Some parts => sumZ (toolPartTokens <$> parts)
  | None => 0
  end.

(** TOOL messages: image generations are recorded at once, outside the
    rolling accumulator. *)
Definition imageGenerationUsage (costs : gmap string ModelCost) (dayKey : string)
    (hour : jsint) (msg : Message.t) (st : Aggregator.t * gset string)
    : result (Aggregator.t * gset string) :=
  let authorName := default "" (Message.author msg ≫= Author.name) in
  let partsArray := default [] (Message.content msg ≫= Content.parts) in
  st ← (if String.eqb authorName "dalle.text2im" then
          let numDalleImages := countImages partsArray in
          if 0 <? numDalleImages then
            aggregator ← updateAggregatorUsage costs (fst st) dayKey hour "dalle-3" 0 numDalleImages;
            Ok (aggregator, {[ "dalle-3" ]} ∪ snd st)
          else Ok st
        else Ok st);
  let hasAsyncImageGen :=
    (default false (Metadata.image_gen_async <$> Message.metadata msg)
     || existsb isImagePointer partsArray
     || default false (Metadata.generation <$> Message.metadata msg)
     || existsb (fun p => match p with Part.Obj o => Part.generation o | _ => false end) partsArray
     || existsb (fun p => match p with Part.Obj o => Part.dalle o | _ => false end) partsArray)%bool in
  if hasAsyncImageGen then
    let numImages := countImages partsArray in
    if 0 <? numImages then
      aggregator ← updateAggregatorUsage costs (fst st) dayKey hour "gpt-image-1" 0 numImages;
      Ok (aggregator, {[ "gpt-image-1" ]} ∪ snd st)
    else Ok st
  else Ok st.

(** ASSISTANT (and TOOL) messages: content tokens, output tokens and the
    effective model slug. *)
Definition thoughtTokens (thought : Thought.t) : Z :=
  textTokens (Thought.content thought) + textTokens (Thought.summary thought).

Definition assistantPartContent (part : Part.t) : Z :=
  match part with
  | Part.Obj o => if isImageAsset o then imagePartTokens o else 0
  | _ => 0
  end.

Definition assistantPartOutput (part : Part.t) : Z :=
  match part with
  | Part.Str s => countTextTokens s
  | Part.Obj o => if isImageAsset o then 0 else 20
  | Part.Other => 0
  end.

Definition hasCitations (msg : Message.t) : option json :=
  match Message.metadata msg ≫= Metadata.citations with
  | Some (JArray (c :: cs)) => Some (JArray (c :: cs))
  | _ => None
  end.

Definition assistantContentTokens (msg : Message.t) : Z :=
  let contentType := Message.content msg ≫= Content.content_type in
  let text := Message.content msg ≫= Content.text in
  (if strIs contentType "execution_output" then textTokens text else 0)
  + (if (strIs contentType "tether_quote" && nonEmpty text)%bool then textTokens text
     else if strIs contentType "tether_browsing_display"
     then textTokens (Message.content msg ≫= Content.result)
     else 0)
  + (match hasCitations msg with
     | Some citations => countTextTokens (JSON_stringify citations)
     | None => 0
     end)
  + (match Message.content msg ≫= Content.parts with
     | Some parts => sumZ (assistantPartContent <$> parts)
     | None => 0
     end).

Definition assistantOutputTokens (msg : Message.t) : Z :=
  let contentType := Message.content msg ≫= Content.content_type in
  let text := Message.content msg ≫= Content.text in
  (if strIs contentType "thoughts" then
     match Message.content msg ≫= Content.thoughts with
     | Some thoughts => sumZ (thoughtTokens <$> thoughts)
     | None => 0
     end
   else 0)
  + (if strIs contentType "code" then textTokens text else 0)
  + (match Message.content msg ≫= Content.parts with
     | Some parts => sumZ (assistantPartOutput <$> parts)
     | None => 0
     end)
  + textTokens text.

Definition isDeepResearch (msg : Message.t) : bool :=
  match hasCitations msg, Message.metadata msg ≫= Metadata.async_task_id with
  | Some _, Some id => includes id "deepresch"
  | _, _ => false
  end.

(** The entry pushed on [nodeMessages] for a node that has a message. *)
Definition flattenMessage (node : Node.t) (msg : Message.t) : FlatMsg.t :=
  let role := default "unknown" (Message.author msg ≫= Author.role) in
  let modelSlug :=
    default "unknown_model"
      (orElse (orElse (Message.metadata msg ≫= Metadata.model_slug) (Node.model_slug node))
              (Some "unknown_model")) in
  let isReasoningMessage :=
    (strIs (Message.metadata msg ≫= Metadata.reasoning_status) "is_reasoning"
     || strIs (Message.content msg ≫= Content.content_type) "thoughts")%bool in
  let isUserOrSystem := (String.eqb role "user" || String.eqb role "system")%bool in
  let isTool := String.eqb role "tool" in
  let isAssistantOrTool := (String.eqb role "assistant" || String.eqb role "tool")%bool in
  let contentTokens :=
    (if isUserOrSystem then userSystemTokens msg else 0)
    + (if isTool then toolContentTokens msg else 0)
    + (if isAssistantOrTool then assistantContentTokens msg else 0) in
  let searchTokens := if isTool then toolSearchTokens msg else 0 in
  let outputTokens := if isAssistantOrTool then assistantOutputTokens msg else 0 in
  let modelSlug :=
    if (isAssistantOrTool && isDeepResearch msg)%bool then "research" else modelSlug in
  let isReasoningRecap :=
    (strIs (Message.content msg ≫= Content.content_type) "reasoning_recap"
     || strIs (Message.metadata msg ≫= Metadata.reasoning_status) "reasoning_ended")%bool in
  FlatMsg.mk (Some role) (Some contentTokens) (Some outputTokens) (Some searchTokens)
    (Some modelSlug) isReasoningMessage isReasoningRecap
    (Message.end_turn msg || strIs (Message.channel msg) "final")%bool.

(** One iteration of the loop over [Object.keys(mapping)]. *)
Definition walkStep (costs : gmap string ModelCost) (dayKey : string) (hour : jsint)
    (st : Walk.state) (entry : string * Node.t) : result Walk.state :=
  let node := snd entry in
  match Node.message node with
  | None => Ok st
  | Some msg =>
      let role := default "unknown" (Message.author msg ≫= Author.role) in
      '(aggregator, modelsUsed) ←
        (if String.eqb role "tool"
         then imageGenerationUsage costs dayKey hour msg (Walk.agg st, Walk.modelsUsed st)
         else Ok (Walk.agg st, Walk.modelsUsed st));
      Ok (Walk.mk (Walk.nodeMessages st ++ [flattenMessage node msg]) modelsUsed aggregator)
  end.

Definition processMappedMessages (costs : gmap string ModelCost)
    (mapping : list (string * Node.t)) (dayKey : string) (hour : jsint)
    (aggregator : Aggregator.t) : result (Aggregator.t * gset string) :=
  st ← forM (walkStep costs dayKey hour) mapping (Walk.mk [] ∅ aggregator);
  '(aggregator, usedModelsInFlat) ←
    processFlatMessagesWithTokenCounts costs (Walk.nodeMessages st) dayKey hour (Walk.agg st);
  Ok (aggregator, usedModelsInFlat ∪ Walk.modelsUsed st).

End Calculator.

(** *** Per-conversation processing *)

Definition bumpConversationCount (b : BucketWithHours.t) : BucketWithHours.t :=
  BucketWithHours.mk
    (BucketWithHours.input_tokens b) (BucketWithHours.output_tokens b)
    (BucketWithHours.cost b) (BucketWithHours.message_count b)
    (BucketWithHours.conversation_count b + 1)
    (BucketWithHours.hours b).

(** The body of [modelsUsedInConversation.forEach] in the rollup. *)
Definition bumpModel (modelSlug : string) (models : gmap string BucketWithHours.t)
    : gmap string BucketWithHours.t :=
  <[modelSlug := bumpConversationCount (default createBucketWithHours (models !! modelSlug))]> models.

(** The conversation_count rollup at the end of [processConversation]. *)
Definition rollup (dayKey : string) (modelsUsedInConversation : gset string)
    (aggregator : Aggregator.t) : result Aggregator.t :=
  if (negb (String.eqb dayKey "unknown-day") && (0 <? Z.of_nat (size modelsUsedInConversation)))%bool
  then
    match Aggregator.usageByDay aggregator !! dayKey with
    | Some dayBucket =>
        let total := bumpConversationCount (DayBucket.total dayBucket) in
        let models := foldr bumpModel (DayBucket.models dayBucket)
                        (elements modelsUsedInConversation) in
        Ok (setDay aggregator dayKey (DayBucket.mk total models))
    | None => Throw TypeError
    end
  else Ok aggregator.

(** The day bucket created up front for a recognised day key. *)
Definition ensureDay (dayKey : string) (aggregator : Aggregator.t) : Aggregator.t :=
  match Aggregator.usageByDay aggregator !! dayKey with
  | Some _ => aggregator
  | None =>
      if negb (String.eqb dayKey "unknown-day")
      then setDay aggregator dayKey createDayBucket
      else aggregator
  end.

(** [try { ... } catch { }]: the value of the block, or the variables
    as initialised before it. *)
Definition tryCatch {A : Type} (block : result A) (initial : A) : A :=
  match block with
  | Ok a => a
  | Throw _ => initial
  end.

(** [conversation?.create_time ?? Date.now() / 1000], where [now] is the
    reading of the clock in milliseconds. *)
Definition conversationTimestamp (now : Z) (conversation : Conversation.t) : number :=
  match Conversation.create_time conversation with
  | Some v => toNumber v
  | None => Some (inject_Z now / 1000)%Q
  end.

(** Neither helper can throw on a value that came out of [JSON.parse]:
    arithmetic on a non-number and the accessors of an invalid date
    yield [NaN]. *)
Definition dayAndHour (now : Z) (conversation : Conversation.t) : string * jsint :=
  let ts := conversationTimestamp now conversation in
  tryCatch (Ok (getDayKey ts, getHourOfDay ts)) ("unknown-day", Int 0).

Section Orchestrator.

Variable encode : string -> Z.
Variable JSON_stringify : json -> string.

Definition processConversation (now : Z) (costs : gmap string ModelCost)
    (conversation : Conversation.t) (aggregator : Aggregator.t)
    : result (Aggregator.t * gset string) :=
  let '(dayKey, hour) := dayAndHour now conversation in
  let aggregator := ensureDay dayKey aggregator in
  '(aggregator, modelsUsedInConversation) ←
    match Conversation.mapping conversation with
    | Some mapping =>
        processMappedMessages encode JSON_stringify costs mapping dayKey hour aggregator
    | None => Ok (aggregator, ∅)
    end;
  aggregator ← rollup dayKey modelsUsedInConversation aggregator;
  Ok (aggregator, modelsUsedInConversation).

(** *** Model slug scanning *)

Definition addIf (o : option string) (found : gset string) : gset string :=
  if nonEmpty o then {[ default "" o ]} ∪ found else found.

Definition addWhen (b : bool) (slug : string) (found : gset string) : gset string :=
  if b then {[ slug ]} ∪ found else found.

Definition scanNode (found : gset string) (entry : string * Node.t) : gset string :=
  let node := snd entry in
  let msgModelSlug := (Node.message node ≫= Message.metadata) ≫= Metadata.model_slug in
  let nodeModelSlug := Node.model_slug node in
  let found := addIf msgModelSlug found in
  let found := addIf nodeModelSlug found in
  let authorName := (Node.message node ≫= Message.author) ≫= Author.name in
  let found := addWhen (strIs authorName "dalle.text2im") "dalle-3" found in
  addWhen (default false
             (Metadata.image_gen_async <$> (Node.message node ≫= Message.metadata)))
          "gpt-image-1" found.

Definition scanDirect (found : gset string) (msg : DirectMessage.t) : gset string :=
  let found := addIf (DirectMessage.metadata_model_slug msg) found in
  let found := addIf (DirectMessage.model_slug msg) found in
  let authorName := orElse (DirectMessage.author_name msg) (DirectMessage.name msg) in
  let found := addWhen (strIs authorName "dalle.text2im") "dalle-3" found in
  addWhen (DirectMessage.image_gen_async msg) "gpt-image-1" found.

Definition scanConversation (found : gset string) (entry : option Conversation.t) : gset string :=
  match entry with
  | None => found
  | Some conversation =>
      let found := foldl scanNode found (default [] (Conversation.mapping conversation)) in
      let found := foldl scanDirect found (default [] (Conversation.messages conversation)) in
      match Conversation.default_model_slug conversation with
      | Some defSlug => {[ defSlug ]} ∪ found
      | None => found
      end
  end.

Definition zeroCost : ModelCost := {| input := 0; output := 0 |}.

(** Returns the discovered slugs and the table [MODEL_COSTS] as the
    scan leaves it. *)
Definition scanForModelSlugs (costs : gmap string ModelCost)
    (data : list (option Conversation.t)) (maxScan : option nat)
    : gset string * gmap string ModelCost :=
  let scanCount :=
    match maxScan with
    | Some (S n) => Nat.min (length data) (S n)
    | _ => length data
    end in
  let foundModels : gset string := {[ "dalle-2" ]} ∪ ({[ "dalle-3" ]} ∪ ({[ "gpt-image-1" ]} ∪ ∅)) in
  let foundModels := foldl scanConversation foundModels (take scanCount data) in
  let missing :=
    List.filter (fun model => (negb (bool_decide (is_Some (costs !! model)))
                               && negb (String.eqb model "unknown_model"))%bool)
                (elements foundModels) in
  (foundModels, foldl (fun table m => <[m := zeroCost]> table) costs missing).

(** *** Main entry point *)

Definition minNumber (a : option Q) (b : Q) : option Q :=
  match a with
  | Some x => Some (if Qle_bool x b then x else b)
  | None => Some b
  end.

Definition maxNumber (a : option Q) (b : Q) : option Q :=
  match a with
  | Some x => Some (if Qle_bool b x then x else b)
  | None => Some b
  end.

(** The global minimum and maximum of the numeric [create_time]s;
    [None] stands for the untouched [Infinity]/[-Infinity]. *)
Definition dateRange (data : list (option Conversation.t)) : option Q * option Q :=
  foldl (fun range entry =>
           match entry ≫= Conversation.create_time with
           | Some (TNumber t) => (minNumber (fst range) t, maxNumber (snd range) t)
           | _ => range
           end)
        (None, None) data.

Definition addSlugs (slugs : gset string) (aggregator : Aggregator.t) : Aggregator.t :=
  Aggregator.mk (Aggregator.usageByDay aggregator) (Aggregator.dayOrder aggregator)
    (Aggregator.startDate aggregator) (Aggregator.endDate aggregator)
    (Aggregator.totalCostAllModels aggregator)
    ((fun all => slugs ∪ all) <$> Aggregator.allModelSlugs aggregator).

(** One iteration of the loop over the conversations. *)
Definition conversationStep (now : Z) (costs : gmap string ModelCost)
    (aggregator : Aggregator.t) (entry : option Conversation.t) : result Aggregator.t :=
  match entry with
  | None => Ok aggregator
  | Some conversation =>
      '(aggregator, modelsInThisConversation) ←
        processConversation now costs conversation aggregator;
      Ok (addSlugs modelsInThisConversation aggregator)
  end.

(** [for (const dayKey in aggregator.usageByDay) totalCost += ...]. *)
Definition totalCost (aggregator : Aggregator.t) : float :=
  foldl (fun acc dayKey =>
           match Aggregator.usageByDay aggregator !! dayKey with
           | Some dayBucket => (acc + BucketWithHours.cost (DayBucket.total dayBucket))%float
           | None => acc
           end)
        0%float (Aggregator.dayOrder aggregator).

Definition processConversations (now : Z) (costs : gmap string ModelCost)
    (data : list (option Conversation.t)) : result Aggregator.t :=
  let aggregator := emptyAggregator in
  let costs := snd (scanForModelSlugs costs data None) in
  let '(minTimestamp, maxTimestamp) := dateRange data in
  let aggregator :=
    match minTimestamp with
    | Some _ =>
        Aggregator.mk (Aggregator.usageByDay aggregator) (Aggregator.dayOrder aggregator)
          (Some (getDayKey minTimestamp)) (Some (getDayKey maxTimestamp))
          (Aggregator.totalCostAllModels aggregator) (Aggregator.allModelSlugs aggregator)
    | None => aggregator
    end in
  aggregator ← forM (conversationStep now costs) data aggregator;
  Ok (Aggregator.mk (Aggregator.usageByDay aggregator) (Aggregator.dayOrder aggregator)
        (Aggregator.startDate aggregator) (Aggregator.endDate aggregator)
        (Some (totalCost aggregator))
        (Aggregator.allModelSlugs aggregator)).

End Orchestrator.

(** ** The tokenizer worker protocol *)

(** The main-thread side of the worker protocol as a transition system:
    the module-level variables of the calculator, the promises handed
    out by [countTextTokens], and the timers armed by its retry loop.
    A callback stored in [pendingRequests] or [errorCallbacks] is
    represented by the promise it settles. *)
Module Worker.

Inductive promise : Type :=
| Pending
| Fulfilled (count : Z)
| Rejected.

Record state : Type := mk {
  worker : option nat;               (* handle of the Worker object, or null *)
  workerReady : bool;
  nextRequestId : nat;
  pendingRequests : gmap nat nat;    (* request id -> promise resolved *)
  errorCallbacks : gmap nat nat;     (* request id -> promise rejected *)
  promises : gmap nat promise;       (* the promise returned for each request id *)
  timers : list (nat * nat * string);(* armed retries: request id, captured worker, text *)
  posted : list (nat * nat * string);(* messages posted: worker, id, text *)
  created : nat;                     (* number of Worker objects constructed *)
  terminated : gset nat }.           (* workers on which terminate() was called *)

Definition init : state := mk None false 0 ∅ ∅ ∅ [] [] 0 ∅.

(** The data of a message event received from a worker. *)
Inductive message : Type :=
| WORKER_READY
| Response (id : nat) (count : option Z) (error : bool) (fallbackUsed : bool).

Inductive event : Type :=
| Call (text : string) (postThrows : bool)  (* countTextTokens(text) in the browser *)
| OnMessage (data : message)                (* worker.onmessage *)
| OnError                                   (* worker.onerror *)
| Timeout (k : nat) (postThrows : bool)     (* the k-th armed retry fires *)
| Terminate.                                (* terminateTokenizerWorker() *)

(** Calling [resolve] or [reject] on a promise that is already settled
    has no effect. *)
Definition settle (p : nat) (outcome : promise) (ps : gmap nat promise) : gmap nat promise :=
  match ps !! p with
  | Some Pending => <[p := outcome]> ps
  | _ => ps
  end.

Definition setPromises (st : state) (ps : gmap nat promise) : state :=
  mk (worker st) (workerReady st) (nextRequestId st) (pendingRequests st)
     (errorCallbacks st) ps (timers st) (posted st) (created st) (terminated st).

(** [pendingRequests.delete(id); errorCallbacks.delete(id)]. *)
Definition forget (id : nat) (st : state) : state :=
  mk (worker st) (workerReady st) (nextRequestId st) (delete id (pendingRequests st))
     (delete id (errorCallbacks st)) (promises st) (timers st) (posted st) (created st)
     (terminated st).

Definition initTokenizerWorker (st : state) : state * nat :=
  match worker st with
  | Some w => (st, w)
  | None =>
      let w := created st in
      (mk (Some w) (workerReady st) (nextRequestId st) (pendingRequests st)
          (errorCallbacks st) (promises st) (timers st) (posted st) (S w) (terminated st), w)
  end.

(** The closure [attemptPostMessage] of request [requestId], which
    captured the worker [tokenizerWorker]. *)
Definition attemptPostMessage (requestId tokenizerWorker : nat) (text : string)
    (postThrows : bool) (st : state) : state :=
  if workerReady st then
    if postThrows then
      let st := forget requestId st in
      setPromises st (settle requestId Rejected (promises st))
    else
      mk (worker st) (workerReady st) (nextRequestId st) (pendingRequests st)
         (errorCallbacks st) (promises st) (timers st)
         (posted st ++ [(tokenizerWorker, requestId, text)]) (created st) (terminated st)
  else
    mk (worker st) (workerReady st) (nextRequestId st) (pendingRequests st)
       (errorCallbacks st) (promises st) (timers st ++ [(requestId, tokenizerWorker, text)])
       (posted st) (created st) (terminated st).

(** [countTextTokens(text)] for a non-empty text in the browser, up to
    the point where the promise is returned. *)
Definition countTextTokens (text : string) (postThrows : bool) (st : state) : state :=
  if String.eqb text "" then st
  else
    let '(st, tokenizerWorker) := initTokenizerWorker st in
    let requestId := nextRequestId st in
    let st :=
      mk (worker st) (workerReady st) (S requestId)
         (<[requestId := requestId]> (pendingRequests st))
         (<[requestId := requestId]> (errorCallbacks st))
         (<[requestId := Pending]> (promises st))
         (timers st) (posted st) (created st) (terminated st) in
    attemptPostMessage requestId tokenizerWorker text postThrows st.

Definition onmessage (data : message) (st : state) : state :=
  match data with
  | WORKER_READY =>
      mk (worker st) true (nextRequestId st) (pendingRequests st) (errorCallbacks st)
         (promises st) (timers st) (posted st) (created st) (terminated st)
  | Response id count error fallbackUsed =>
      match pendingRequests st !! id, errorCallbacks st !! id with
      | Some resolve, Some reject =>
          let ps :=
            if error then
              match fallbackUsed, count with
              | true, Some n => settle resolve (Fulfilled n) (promises st)
              | _, _ => settle reject Rejected (promises st)
              end
            else
              match count with
              | Some n => settle resolve (Fulfilled n) (promises st)
              | None => settle reject Rejected (promises st)
              end in
          forget id (setPromises st ps)
      | _, _ => st
      end
  end.

Definition onerror (st : state) : state :=
  let ps := map_fold (fun _ reject ps => settle reject Rejected ps)
                     (promises st) (errorCallbacks st) in
  mk None false (nextRequestId st) ∅ ∅ ps (timers st) (posted st) (created st) (terminated st).

Definition terminateTokenizerWorker (st : state) : state :=
  match worker st with
  | Some w =>
      mk None false (nextRequestId st) ∅ ∅ (promises st) (timers st) (posted st)
         (created st) ({[ w ]} ∪ terminated st)
  | None => st
  end.

Definition timeout (k : nat) (postThrows : bool) (st : state) : state :=
  match timers st !! k with
  | Some (requestId, tokenizerWorker, text) =>
      let st :=
        mk (worker st) (workerReady st) (nextRequestId st) (pendingRequests st)
           (errorCallbacks st) (promises st) (delete k (timers st)) (posted st)
           (created st) (terminated st) in
      attemptPostMessage requestId tokenizerWorker text postThrows st
  | None => st
  end.

Definition step (st : state) (e : event) : state :=
  match e with
  | Call text postThrows => countTextTokens text postThrows st
  | OnMessage data => onmessage data st
  | OnError => onerror st
  | Timeout k postThrows => timeout k postThrows st
  | Terminate => terminateTokenizerWorker st
  end.

Definition run (events : list event) (st : state) : state := foldl step st events.

End Worker.

(** ** The accumulator in the words of the specification *)

(** The two conversation-local counters. *)
Record Counters : Type := {
  contextTokens : Z;
  pendingOutputTokens : Z }.

(** A committed usage update. *)
Record UsageUpdate : Type := {
  modelSlug : string;
  inputTokens : Z;
  outputTokens : Z }.

Definition roleOf (m : FlatMsg.t) : string := default "unknown" (FlatMsg.role m).
Definition contentOf (m : FlatMsg.t) : Z := default 0 (FlatMsg.contentTokens m).
Definition outputOf (m : FlatMsg.t) : Z := default 0 (FlatMsg.outputTokens m).
Definition searchOf (m : FlatMsg.t) : Z := default 0 (FlatMsg.searchTokens m).
Definition slugOf (m : FlatMsg.t) : string := default "unknown_model" (FlatMsg.model_slug m).

(** The effect of one entry on the counters, and the usage update it
    commits, if any: recap entries touch nothing; search tokens go to
    the context for any role; user, system and tool entries add their
    content tokens to the context; assistant entries add content and
    output tokens to the context and output tokens to the pending
    output, and a final one then commits the two counters and resets
    the pending output. *)
Definition accumulate (c : Counters) (m : FlatMsg.t) : Counters * option UsageUpdate :=
  if FlatMsg.isReasoningRecap m then (c, None)
  else
    let context := contextTokens c + searchOf m in
    if isContextRole (roleOf m) then
      ({| contextTokens := context + contentOf m;
          pendingOutputTokens := pendingOutputTokens c |}, None)
    else if String.eqb (roleOf m) "assistant" then
      let context := context + contentOf m + outputOf m in
      let pending := pendingOutputTokens c + outputOf m in
      if FlatMsg.isFinalMessage m then
        ({| contextTokens := context; pendingOutputTokens := 0 |},
         Some {| modelSlug := slugOf m; inputTokens := context; outputTokens := pending |})
      else ({| contextTokens := context; pendingOutputTokens := pending |}, None)
    else ({| contextTokens := context; pendingOutputTokens := pendingOutputTokens c |}, None).

(** The counters after a list of entries and the usage updates
    committed on the way, in order. *)
Fixpoint accumulateAll (c : Counters) (msgs : list FlatMsg.t) : Counters * list UsageUpdate :=
  match msgs with
  | [] => (c, [])
  | m :: msgs' =>
      let '(c', u) := accumulate c m in
      let '(c'', us) := accumulateAll c' msgs' in
      (c'', match u with Some x => x :: us | None => us end)
  end.


(** The real slugs of the assistant entries that are not recaps. *)
Definition discover (found : gset string) (m : FlatMsg.t) : gset string :=
  if (negb (FlatMsg.isReasoningRecap m)
      && String.eqb (roleOf m) "assistant"
      && negb (String.eqb (slugOf m) "unknown_model"))%bool
  then {[ slugOf m ]} ∪ found else found.

Definition discoveredModels (msgs : list FlatMsg.t) : gset string :=
  foldl discover ∅ msgs.

(** The counters of a loop state. *)
Definition countersOf (st : FlatState) : Counters :=
  {| contextTokens := rollingContextTokens st; pendingOutputTokens := rollingOutputTokens st |}.

(** Committing a usage update is one call of [updateAggregatorUsage]. *)
Definition commit (costs : gmap string ModelCost) (dayKey : string) (hour : jsint)
    (aggregator : Aggregator.t) (u : UsageUpdate) : result Aggregator.t :=
  updateAggregatorUsage costs aggregator dayKey hour (modelSlug u) (inputTokens u) (outputTokens u).

(** The conversation of two one-token turns. *)
Definition entry (role : string) (content output : Z) (slug : option string) (final : bool)
    : FlatMsg.t :=
  FlatMsg.mk (Some role) (Some content) (Some output) (Some 0) slug false false final.

Definition twoTurns (slug : option string) : list FlatMsg.t :=
  [ entry "user" 1 0 slug false; entry "assistant" 0 1 slug true;
    entry "user" 1 0 slug false; entry "assistant" 0 1 slug true ].

Definition noTokens : Counters := {| contextTokens := 0; pendingOutputTokens := 0 |}.

(** Total input tokens recorded for a day, for reading results. *)
Definition dayInputTokens (dayKey : string) (r : result (Aggregator.t * gset string)) : option Z :=
  match r with
  | Ok (a, _) =>
      (fun d => BucketWithHours.input_tokens (DayBucket.total d))
        <$> (Aggregator.usageByDay a !! dayKey)
  | Throw _ => None
  end.

(** ** Reading an aggregator *)

(** The day bucket of a day key, as [updateAggregatorUsage] sees it. *)
Definition dayBucketOf (a : Aggregator.t) (dayKey : string) : DayBucket.t :=
  default createDayBucket (Aggregator.usageByDay a !! dayKey).

Definition dayTotal (a : Aggregator.t) (dayKey : string) : BucketWithHours.t :=
  DayBucket.total (dayBucketOf a dayKey).

Definition modelTotal (a : Aggregator.t) (dayKey slug : string) : BucketWithHours.t :=
  default createBucketWithHours (DayBucket.models (dayBucketOf a dayKey) !! slug).





(** No hour bucket of the bucket counts a conversation. *)
Definition hoursCountNoConversation (b : BucketWithHours.t) : Prop :=
  Forall (fun h => HourBucket.conversation_count h = 0) (BucketWithHours.hours b).

(** A property of every [BucketWithHours] of an aggregator: each day's
    total and each per-model bucket. *)
Definition everyBucket (P : BucketWithHours.t -> Prop) (a : Aggregator.t) : Prop :=
  forall dayKey d, Aggregator.usageByDay a !! dayKey = Some d ->
    P (DayBucket.total d) /\
    forall slug b, DayBucket.models d !! slug = Some b -> P b.

(** The aggregators that the operations of a run can produce. *)
Inductive reachable (costs : gmap string ModelCost) : Aggregator.t -> Prop :=
| reach_empty : reachable costs emptyAggregator
| reach_update a dayKey hour slug i o a' :
    reachable costs a ->
    updateAggregatorUsage costs a dayKey hour slug i o = Ok a' ->
    reachable costs a'
| reach_rollup a dayKey used a' :
    reachable costs a ->
    rollup dayKey used a = Ok a' ->
    reachable costs a'
| reach_ensure a dayKey :
    reachable costs a ->
    reachable costs (ensureDay dayKey a).

(** One usage update followed by the rollup of its conversation. *)
Definition oneConversation : result Aggregator.t :=
  a ← updateAggregatorUsage MODEL_COSTS emptyAggregator "2024-01-01" (Int 3) "gpt-4" 2 1;
  rollup "2024-01-01" {[ "gpt-4" ]} a.



(** The aggregator after that conversation. *)
Definition sampleAggregator : Aggregator.t := tryCatch oneConversation emptyAggregator.

(** The aggregator after a single usage update. *)
Definition afterOneUpdate : Aggregator.t :=
  tryCatch (updateAggregatorUsage MODEL_COSTS emptyAggregator "2024-01-01" (Int 3) "gpt-4" 2 1)
           emptyAggregator.


(** ** The footprint of a conversation *)

(** The aggregator [a'] is obtained from [a] by usage updates of one
    day and hour. *)
Inductive updated (costs : gmap string ModelCost) (dayKey : string) (hour : jsint)
    : Aggregator.t -> Aggregator.t -> Prop :=
| updated_refl a : updated costs dayKey hour a a
| updated_step a slug i o a' a'' :
    updateAggregatorUsage costs a dayKey hour slug i o = Ok a' ->
    updated costs dayKey hour a' a'' ->
    updated costs dayKey hour a a''.

(** Every hours array has its 24 slots. *)
Definition fullDay (b : BucketWithHours.t) : Prop :=
  length (BucketWithHours.hours b) = 24%nat.

Definition validHour (hour : jsint) : Prop :=
  match hour with
  | Int z => 0 <= z < 24
  | NaN => False
  end.

(** The image models a tool message is recorded against. *)
Definition imageModels (msg : Message.t) : gset string :=
  let authorName := default "" (Message.author msg ≫= Author.name) in
  let partsArray := default [] (Message.content msg ≫= Content.parts) in
  (if (String.eqb authorName "dalle.text2im" && (0 <? countImages partsArray))%bool
   then {[ "dalle-3" ]} else ∅)
  ∪ (if ((default false (Metadata.image_gen_async <$> Message.metadata msg)
          || existsb isImagePointer partsArray
          || default false (Metadata.generation <$> Message.metadata msg)
          || existsb (fun p => match p with Part.Obj o => Part.generation o | _ => false end)
               partsArray
          || existsb (fun p => match p with Part.Obj o => Part.dalle o | _ => false end)
               partsArray)
         && (0 <? countImages partsArray))%bool
     then {[ "gpt-image-1" ]} else ∅).

Definition nodeModels (entry : string * Node.t) : gset string :=
  match Node.message (snd entry) with
  | Some msg =>
      if String.eqb (default "unknown" (Message.author msg ≫= Author.role)) "tool"
      then imageModels msg else ∅
  | None => ∅
  end.

Definition walkModels (mapping : list (string * Node.t)) : gset string :=
  foldr (fun entry found => nodeModels entry ∪ found) ∅ mapping.

Definition dayConversations (a : Aggregator.t) (dayKey : string) : Z :=
  BucketWithHours.conversation_count (dayTotal a dayKey).

Definition modelConversations (a : Aggregator.t) (dayKey slug : string) : Z :=
  BucketWithHours.conversation_count (modelTotal a dayKey slug).

Definition countWhere {A : Type} (f : A -> bool) (l : list A) : Z :=
  Z.of_nat (length (List.filter f l)).

(** The entries of the input array that are conversation objects. *)
Definition conversationsOf (data : list (option Conversation.t)) : list Conversation.t :=
  omap id data.

Section Footprint.

Variable encode : string -> Z.
Variable JSON_stringify : json -> string.

Definition flattenNode (entry : string * Node.t) : list FlatMsg.t :=
  match Node.message (snd entry) with
  | Some msg => [flattenMessage encode JSON_stringify (snd entry) msg]
  | None => []
  end.

(** The entries [processMappedMessages] hands to the accumulator. *)
Definition flattenAll (mapping : list (string * Node.t)) : list FlatMsg.t :=
  mapping ≫= flattenNode.

(** The discovered-model set of a conversation. *)
Definition conversationModels (conversation : Conversation.t) : gset string :=
  match Conversation.mapping conversation with
  | Some mapping => discoveredModels (flattenAll mapping) ∪ walkModels mapping
  | None => ∅
  end.

Definition dayKeyOf (now : Z) (conversation : Conversation.t) : string :=
  fst (dayAndHour now conversation).



End Footprint.

(** ** Sample exports *)

(** A stand-in for the encoder: one token per character. *)
Definition perCharacter (text : string) : Z := Z.of_nat (String.length text).

(** A stand-in for [JSON.stringify]. *)
Definition noBlob (j : json) : string := "{}".

Definition textMessage (role : string) (slug : option string) (text : string) (final : bool)
    : Message.t :=
  Message.mk (Some (Author.mk (Some role) None))
    (Some (Content.mk (Some "text") (Some [Part.Str text]) None None None))
    (Some (Metadata.mk slug None None None None false false None))
    final None.

Definition conversationOf (create_time : option TimeValue) (msgs : list Message.t)
    : Conversation.t :=
  Conversation.mk create_time
    (Some (imap (fun i msg => (pretty i, Node.mk (Some msg) None)) msgs))
    None None.

(** A conversation whose assistant reply never ends its turn. *)
Definition unfinished : Conversation.t :=
  conversationOf (Some (TNumber 0))
    [ textMessage "user" None "hi" false;
      textMessage "assistant" (Some "gpt-4") "hello" false ].

(** A conversation answered by a model without a slug. *)
Definition anonymous : Conversation.t :=
  conversationOf (Some (TNumber 0))
    [ textMessage "user" None "hi" false;
      textMessage "assistant" None "hello" true ].

(** A complete turn, with and without a creation timestamp. *)
Definition oneTurn (create_time : option TimeValue) : Conversation.t :=
  conversationOf create_time
    [ textMessage "user" None "hi" false;
      textMessage "assistant" (Some "gpt-4") "hello" true ].

Definition okValue {A : Type} (r : result A) : option A :=
  match r with
  | Ok a => Some a
  | Throw _ => None
  end.

Definition run (now : Z) (data : list (option Conversation.t)) : result Aggregator.t :=
  processConversations perCharacter noBlob now MODEL_COSTS data.


Definition sampleData : list (option Conversation.t) :=
  [ Some unfinished; None; Some (oneTurn (Some (TNumber 86400))); Some anonymous ].

Definition sampleResult : Aggregator.t := tryCatch (run 0 sampleData) emptyAggregator.

(** The number of usage updates recorded in an hour of a day. *)
Definition hourMessages (dayKey : string) (n : nat) (r : result Aggregator.t) : option Z :=
  a ← okValue r;
  HourBucket.message_count <$> (BucketWithHours.hours (dayTotal a dayKey) !! n).

(** Every conversation of the input carries a creation timestamp. *)
Definition timestamped (data : list (option Conversation.t)) : Prop :=
  Forall (fun c => is_Some (Conversation.create_time c)) (conversationsOf data).


Definition startsWith (c : ascii) (s : string) : Prop :=
  match s with
  | String c' _ => c' = c
  | EmptyString => False
  end.


(** ** A request in flight *)

(** One request: the worker is created, reports ready, and the retry
    posts the text; the response is awaited. *)
Definition outstanding : Worker.state :=
  Worker.run [ Worker.Call "abcd" false; Worker.OnMessage Worker.WORKER_READY;
               Worker.Timeout 0 false ] Worker.init.

Definition tornDown : Worker.state := Worker.terminateTokenizerWorker outstanding.

(** No callback and no armed retry can settle the promise any more. *)
Definition orphaned (p : nat) (st : Worker.state) : Prop :=
  Worker.promises st !! p = Some Worker.Pending /\
  (forall k q, Worker.pendingRequests st !! k = Some q -> q <> p) /\
  (forall k q, Worker.errorCallbacks st !! k = Some q -> q <> p) /\
  Forall (fun t => fst (fst t) <> p) (Worker.timers st) /\
  (p < Worker.nextRequestId st)%nat.

(** * Further definitions *)

(** ** Reading a day bucket *)

(** One field summed over [Object.values(dayBucket.models)], as the
    summary table and the treemap add the models of a day up. *)
Definition sumModels (f : BucketWithHours.t -> Z) (models : gmap string BucketWithHours.t) : Z :=
  map_fold (fun _ b acc => f b + acc) 0 models.

(** The per-model buckets of a day add up to its total, for the three
    usage counters. *)
Definition modelsAddUp (d : DayBucket.t) : Prop :=
  sumModels BucketWithHours.input_tokens (DayBucket.models d)
    = BucketWithHours.input_tokens (DayBucket.total d) /\
  sumModels BucketWithHours.output_tokens (DayBucket.models d)
    = BucketWithHours.output_tokens (DayBucket.total d) /\
  sumModels BucketWithHours.message_count (DayBucket.models d)
    = BucketWithHours.message_count (DayBucket.total d).

Definition everyDay (P : DayBucket.t -> Prop) (a : Aggregator.t) : Prop :=
  forall dayKey d, Aggregator.usageByDay a !! dayKey = Some d -> P d.

(** The entry makes the accumulator commit a usage update. *)
Definition commits (m : FlatMsg.t) : bool :=
  (negb (FlatMsg.isReasoningRecap m) && String.eqb (roleOf m) "assistant"
   && FlatMsg.isFinalMessage m)%bool.

(** The output tokens the entry adds to the pending output. *)
Definition assistantOutput (m : FlatMsg.t) : Z :=
  if (negb (FlatMsg.isReasoningRecap m) && String.eqb (roleOf m) "assistant")%bool
  then outputOf m else 0.

(** A tool message of DALL-E with two generated images. *)
Definition dalleMessage : Message.t :=
  Message.mk (Some (Author.mk (Some "tool") (Some "dalle.text2im")))
    (Some (Content.mk (Some "multimodal_text")
             (Some [ Part.Obj (Part.mkObj (Some "file-a") (Some "image_asset_pointer")
                                 (Some 1024%Q) (Some 1024%Q) false false);
                     Part.Obj (Part.mkObj (Some "file-b") (Some "image_asset_pointer")
                                 (Some 1024%Q) (Some 1024%Q) false false) ])
             None None None))
    None false None.

(** The loop state after the conversation of two one-token turns. *)
Definition twoTurnsState : FlatState :=
  tryCatch (flatRun MODEL_COSTS "2024-01-01" (Int 0) (twoTurns (Some "gpt-4")) emptyAggregator)
           (flatInit emptyAggregator).

(** ** Reading a timestamp *)

(** The time value (milliseconds since the epoch) of the [Date] that
    [getDayKey] and [getHourOfDay] construct, [None] for an invalid
    date. *)
Definition timeValue (unixTime : number) : option Z :=
  newDate (times1000 (toSeconds unixTime)).

(** [Date.UTC(year, month - 1, day) / msPerDay]: the day number of a
    civil date. *)
Definition daysFromCivil (date : Z * Z * Z) : Z :=
  let '(year, m, d) := date in
  let y := if m <=? 2 then year - 1 else year in
  let era := y / 400 in
  let yoe := y - era * 400 in
  let mp := if 2 <? m then m - 3 else m + 9 in
  let doy := (153 * mp + 2) / 5 + d - 1 in
  let doe := yoe * 365 + yoe / 4 - yoe / 100 + doy in
  era * 146097 + doe - 719468.

(** A number below 100 written with two decimal digits. *)
Definition twoDigits (n : Z) : string :=
  String (ascii_of_nat (48 + Z.to_nat (n / 10)))
    (String (ascii_of_nat (48 + Z.to_nat (n mod 10))) EmptyString).

(** The numeric creation timestamps of the input, in order. *)
Definition numericTimes (data : list (option Conversation.t)) : list Q :=
  omap (fun entry => match entry ≫= Conversation.create_time with
                     | Some (TNumber t) => Some t
                     | _ => None
                     end) data.

(** The mapping of the sample conversation of one complete turn. *)
Definition oneTurnMapping : list (string * Node.t) :=
  default [] (Conversation.mapping (oneTurn None)).

(** ** Registered requests *)

(** The bookkeeping of the requests in flight: the two callback maps
    have the same keys, each registered id maps to the promise of its
    own request, that promise is still pending, and every id handed out
    so far is below [nextRequestId]. *)
Definition registered (st : Worker.state) : Prop :=
  (forall id p, Worker.pendingRequests st !! id = Some p ->
     p = id /\ Worker.errorCallbacks st !! id = Some id /\
     Worker.promises st !! id = Some Worker.Pending) /\
  (forall id p, Worker.errorCallbacks st !! id = Some p ->
     Worker.pendingRequests st !! id = Some p) /\
  (forall id, is_Some (Worker.promises st !! id) -> (id < Worker.nextRequestId st)%nat).

(** What a response of the worker settles the promise of its request
    to. *)
Definition responseOutcome (count : option Z) (error fallbackUsed : bool) : Worker.promise :=
  match count with
  | Some n => if (error && negb fallbackUsed)%bool then Worker.Rejected else Worker.Fulfilled n
  | None => Worker.Rejected
  end.

(** The event resets the worker handle: an error of the worker or a
    teardown. *)
Definition isReset (e : Worker.event) : bool :=
  match e with
  | Worker.OnError | Worker.Terminate => true
  | _ => false
  end.

Definition resets (events : list Worker.event) : nat :=
  length (List.filter isReset events).

(** The number of retries armed for a request, and the number of times
    its text was posted to a worker. *)
Definition armedFor (id : nat) (st : Worker.state) : nat :=
  length (List.filter (fun t => Nat.eqb (fst (fst t)) id) (Worker.timers st)).

Definition postedFor (id : nat) (st : Worker.state) : nat :=
  length (List.filter (fun p => Nat.eqb (snd (fst p)) id) (Worker.posted st)).

(** Each request has at most one attempt under way or done, and only
    requests that were made have any. *)
Definition oneAttempt (st : Worker.state) : Prop :=
  forall id,
    (armedFor id st + postedFor id st <= 1)%nat /\
    ((Worker.nextRequestId st <= id)%nat -> armedFor id st = 0%nat /\ postedFor id st = 0%nat).

(** The worker handle is the Worker object constructed last, and every
    construction but the first follows a reset. *)
Definition reused (resetsSoFar : nat) (st : Worker.state) : Prop :=
  (forall w, Worker.worker st = Some w -> Worker.created st = S w) /\
  (Worker.created st + (if Worker.worker st is Some _ then 0 else 1) <= S resetsSoFar)%nat.

(** ** The tokenizer worker (lib/tokenizer.worker.ts) *)

(** The worker side of the protocol: the handler of a posted request,
    given the encoder the worker managed to construct ([None] when the
    construction threw) and whose [encode] may throw. *)
Module Tokenizer.

(** [event.data]: [id] is [None] when undefined, [text] is [None] when
    it is not a string. *)
Record request : Type := mkRequest {
  id : option nat;
  text : option string }.

(** The message posted back: [error] is set when an error string is
    attached. *)
Record reply : Type := mkReply {
  replyId : nat;
  count : Z;
  error : bool;
  fallbackUsed : bool }.

(** [s.replace(/pat/g, "")] for a literal, non-empty pattern: the
    occurrences are removed from left to right and do not overlap;
    [skip] characters of a match are still to be dropped. *)
Fixpoint removeAll (pat : string) (skip : nat) (s : string) : string :=
  match s with
  | EmptyString => EmptyString
  | String c s' =>
      match skip with
      | S k => removeAll pat k s'
      | O =>
          if String.prefix pat s then removeAll pat (String.length pat - 1) s'
          else String c (removeAll pat 0 s')
      end
  end.

Definition cleanText (text : string) : string :=
  let cleanedText := removeAll "<|endoftext|>" 0 text in
  let cleanedText := removeAll "<|im_start|>" 0 cleanedText in
  removeAll "<|im_end|>" 0 cleanedText.

(** [Math.ceil(text.length / 4)]. *)
Definition fallbackCount (text : string) : Z :=
  Qceiling (inject_Z (Z.of_nat (String.length text)) / 4).

Definition onmessage (enc : option (string -> result (list nat))) (data : request)
    : option reply :=
  match id data, text data with
  | Some id, Some text =>
      match enc with
      | None => Some (mkReply id (fallbackCount text) true true)
      | Some encode =>
          if String.eqb text "" then Some (mkReply id 0 false false)
          else
            match encode (cleanText text) with
            | Ok tokens => Some (mkReply id (Z.of_nat (length tokens)) false false)
            | Throw _ => Some (mkReply id (fallbackCount text) true true)
            end
      end
  | _, _ => None
  end.

(** The reply as the main thread receives it. *)
Definition toMessage (r : reply) : Worker.message :=
  Worker.Response (replyId r) (Some (count r)) (error r) (fallbackUsed r).

End Tokenizer.

(** An encoder whose [encode] always throws. *)
Definition brokenEncoder (text : string) : result (list nat) := Throw TypeError.

(** ** The usage updates a conversation attempts *)

(** The node is a tool message that holds at least one image asset
    pointer: the walk records an image generation for it. *)
Definition recordsImages (entry : string * Node.t) : bool :=
  match Node.message (snd entry) with
  | Some msg =>
      (String.eqb (default "unknown" (Message.author msg ≫= Author.role)) "tool"
       && (0 <? countImages (default [] (Message.content msg ≫= Content.parts))))%bool
  | None => false
  end.

Section Attempts.

Variable encode : string -> Z.
Variable JSON_stringify : json -> string.

(** Processing the mapping calls [updateAggregatorUsage] at least once:
    for an image generation, or for an assistant entry that ends its
    turn. *)
Definition attemptsUpdate (mapping : list (string * Node.t)) : bool :=
  (existsb recordsImages mapping
   || existsb commits (flattenAll encode JSON_stringify mapping))%bool.

(** The conversation has no valid date and attempts a usage update. *)
Definition breaksRun (now : Z) (c : Conversation.t) : bool :=
  (bool_decide (timeValue (conversationTimestamp now c) = None)
   && attemptsUpdate (default [] (Conversation.mapping c)))%bool.

End Attempts.


(** ** The hour slots of a day *)

(** The hour slot [n] of the day's total and of each of its models is
    the same in both aggregators. *)
Definition sameSlot (dayKey : string) (n : nat) (a a' : Aggregator.t) : Prop :=
  BucketWithHours.hours (dayTotal a' dayKey) !! n
    = BucketWithHours.hours (dayTotal a dayKey) !! n /\
  forall slug,
    BucketWithHours.hours (modelTotal a' dayKey slug) !! n
      = BucketWithHours.hours (modelTotal a dayKey slug) !! n.

(** ** The usage of one conversation *)

Section Solo.

Variable encode : string -> Z.
Variable JSON_stringify : json -> string.

(** The aggregator of the conversation processed on its own. *)
Definition solo (now : Z) (costs : gmap string ModelCost) (c : Conversation.t) : Aggregator.t :=
  fst (tryCatch (processConversation encode JSON_stringify now costs c emptyAggregator)
                (emptyAggregator, ∅)).

End Solo.

Section Measure.

(** One of the usage counters of a bucket. *)
Variable m : BucketWithHours.t -> Z.

(** The step from [a] to [a'] adds to the counter, on each day and for
    each model, what the step from [b] to [b'] adds. *)
Definition linked (a b a' b' : Aggregator.t) : Prop :=
  forall d,
    m (dayTotal a' d) - m (dayTotal a d) = m (dayTotal b' d) - m (dayTotal b d) /\
    forall s,
      m (modelTotal a' d s) - m (modelTotal a d s)
      = m (modelTotal b' d s) - m (modelTotal b d s).

End Measure.

(** The three usage counters. *)
Definition usageCounters : list (BucketWithHours.t -> Z) :=
  [ BucketWithHours.input_tokens; BucketWithHours.output_tokens;
    BucketWithHours.message_count ].

(** * Properties *)

(** ** Image token estimation *)

Lemma Qgtb_true (a b : Q) : Qgtb a b = true <-> (b < a)%Q.
Proof.
  unfold Qgtb. rewrite negb_true_iff, <- not_true_iff_false, Qle_bool_iff.
  split; [apply Qnot_le_lt | apply Qlt_not_le].
Qed.

Lemma Qgtb_false (a b : Q) : Qgtb a b = false <-> (a <= b)%Q.
Proof.
  unfold Qgtb. rewrite negb_false_iff, Qle_bool_iff. reflexivity.
Qed.






(** ** Rolling-context accumulation *)

Lemma forM_app {S A : Type} (body : S -> A -> result S) (xs ys : list A) (s : S) :
  forM body (xs ++ ys) s = (s' ← forM body xs s; forM body ys s').
Proof.
  revert s. induction xs as [| x xs IH]; intros s; simpl; [reflexivity |].
  destruct (body s x) as [s' | e]; simpl; [apply IH | reflexivity].
Qed.

Lemma contextRole_not_assistant (r : string) :
  isContextRole r = true -> String.eqb r "assistant" = false.
Proof.
  unfold isContextRole. rewrite !orb_true_iff, !String.eqb_eq.
  intros [[-> | ->] | ->]; reflexivity.
Qed.

(** One iteration of the loop is one step of the accumulator, followed
    by the commit it asks for. *)
Lemma flatStep_accumulate costs dayKey hour (st : FlatState) (m : FlatMsg.t) :
  0 <= searchOf m ->
  flatStep costs dayKey hour st m =
    (aggregator ← match snd (accumulate (countersOf st) m) with
                  | Some u => commit costs dayKey hour (agg st) u
                  | None => Ok (agg st)
                  end;
     Ok {| rollingContextTokens := contextTokens (fst (accumulate (countersOf st) m));
           rollingOutputTokens := pendingOutputTokens (fst (accumulate (countersOf st) m));
           modelsUsed := discover (modelsUsed st) m;
           agg := aggregator |}).
Proof.
  intros Hs. unfold flatStep, accumulate, discover, commit.
  fold (roleOf m) (contentOf m) (searchOf m) (outputOf m) (slugOf m).
  destruct st as [ctx pend used a]; simpl.
  destruct (FlatMsg.isReasoningRecap m); simpl; [reflexivity |].
  assert (Hctx : (if 0 <? searchOf m then ctx + searchOf m else ctx) = ctx + searchOf m).
  { destruct (Z.ltb_spec 0 (searchOf m)); lia. }
  rewrite Hctx.
  destruct (isContextRole (roleOf m)) eqn:Hrole; simpl.
  - rewrite (contextRole_not_assistant _ Hrole). reflexivity.
  - destruct (String.eqb (roleOf m) "assistant"); simpl; [| reflexivity].
    rewrite Z.add_assoc.
    destruct (FlatMsg.isFinalMessage m); simpl; [| reflexivity].
    reflexivity.
Qed.

Lemma accumulateAll_cons (c : Counters) (m : FlatMsg.t) (msgs : list FlatMsg.t) :
  accumulateAll c (m :: msgs) =
    (fst (accumulateAll (fst (accumulate c m)) msgs),
     match snd (accumulate c m) with
     | Some u => u :: snd (accumulateAll (fst (accumulate c m)) msgs)
     | None => snd (accumulateAll (fst (accumulate c m)) msgs)
     end).
Proof.
  cbn. destruct (accumulate c m) as [c' u]; cbn.
  destruct (accumulateAll c' msgs); reflexivity.
Qed.

Lemma flatRun_accumulateAll costs dayKey hour (msgs : list FlatMsg.t) (st : FlatState) :
  Forall (fun m => 0 <= searchOf m) msgs ->
  forM (flatStep costs dayKey hour) msgs st =
    (aggregator ← forM (commit costs dayKey hour)
                    (snd (accumulateAll (countersOf st) msgs)) (agg st);
     Ok {| rollingContextTokens := contextTokens (fst (accumulateAll (countersOf st) msgs));
           rollingOutputTokens := pendingOutputTokens (fst (accumulateAll (countersOf st) msgs));
           modelsUsed := foldl discover (modelsUsed st) msgs;
           agg := aggregator |}).
Proof.
  intros Hall. revert st. induction Hall as [| m msgs Hm _ IH]; intros st.
  - destruct st; reflexivity.
  - rewrite accumulateAll_cons. cbn [forM foldl fst snd].
    rewrite (flatStep_accumulate _ _ _ _ _ Hm).
    destruct (accumulate (countersOf st) m) as [[c p] [u |]]; cbn [fst snd forM].
    + destruct (commit costs dayKey hour (agg st) u) as [a' | e]; cbn; [| reflexivity].
      rewrite IH. reflexivity.
    + cbn. rewrite IH. reflexivity.
Qed.





(** C2, as stated: the two turns would commit (input 1, output 1) and
    then (input 3, output 1).  The code commits more input than that:
    the day's input total is 6, not 4. *)
Lemma two_turns_claimed_updates_refuted :
  processFlatMessagesWithTokenCounts MODEL_COSTS (twoTurns (Some "gpt-4"))
    "2024-01-01" (Int 0) emptyAggregator
  <> (a1 ← updateAggregatorUsage MODEL_COSTS emptyAggregator "2024-01-01" (Int 0) "gpt-4" 1 1;
      a2 ← updateAggregatorUsage MODEL_COSTS a1 "2024-01-01" (Int 0) "gpt-4" 3 1;
      Ok (a2, {[ "gpt-4" ]})).
Proof.
  intros H. apply (f_equal (dayInputTokens "2024-01-01")) in H.
  vm_compute in H. discriminate H.
Qed.

(** C2, amended.  For the conversation of two one-token turns the
    accumulator commits exactly two usage updates: the first with
    inputTokens = 2 and outputTokens = 1, the second with inputTokens =
    4 and outputTokens = 1; an update's input counts the whole context
    so far, the committing assistant entry's own output included. *)
Theorem two_turns_updates costs dayKey hour (aggregator : Aggregator.t) (slug : option string) :
  snd (accumulateAll noTokens (twoTurns slug)) =
    [ {| modelSlug := default "unknown_model" slug; inputTokens := 2; outputTokens := 1 |};
      {| modelSlug := default "unknown_model" slug; inputTokens := 4; outputTokens := 1 |} ]
  /\ processFlatMessagesWithTokenCounts costs (twoTurns slug) dayKey hour aggregator =
       (a1 ← updateAggregatorUsage costs aggregator dayKey hour
                (default "unknown_model" slug) 2 1;
        a2 ← updateAggregatorUsage costs a1 dayKey hour (default "unknown_model" slug) 4 1;
        Ok (a2, discoveredModels (twoTurns slug))).
Proof.
  split; [reflexivity |].
  unfold processFlatMessagesWithTokenCounts, flatRun.
  rewrite flatRun_accumulateAll by (repeat constructor; discriminate).
  change (snd (accumulateAll (countersOf (flatInit aggregator)) (twoTurns slug)))
    with [ {| modelSlug := default "unknown_model" slug; inputTokens := 2; outputTokens := 1 |};
           {| modelSlug := default "unknown_model" slug; inputTokens := 4; outputTokens := 1 |} ].
  cbn [forM]. unfold commit; cbn [modelSlug inputTokens outputTokens flatInit agg].
  destruct (updateAggregatorUsage costs aggregator dayKey hour _ 2 1) as [a1 | e];
    cbn; [| reflexivity].
  destruct (updateAggregatorUsage costs a1 dayKey hour _ 4 1) as [a2 | e];
    cbn; reflexivity.
Qed.

(** ** The usage aggregator *)

Lemma addToHour_Ok hours hour i o c hs :
  addToHour hours hour i o c = Ok hs ->
  exists n h,
    slot hours hour = Some (n, h) /\ hours !! n = Some h /\
    hs = <[n := HourBucket.mk (HourBucket.input_tokens h + i) (HourBucket.output_tokens h + o)
                 (HourBucket.cost h + c)%float (HourBucket.message_count h + 1)
                 (HourBucket.conversation_count h)]> hours.
Proof.
  unfold addToHour. destruct (slot hours hour) as [[n h] |] eqn:Hslot; [| discriminate].
  intros [= <-]. exists n, h. split; [reflexivity |]. split; [| reflexivity].
  unfold slot in Hslot. destruct hour as [z |]; [| discriminate].
  destruct (0 <=? z); [| discriminate].
  destruct (hours !! Z.to_nat z) as [h' |] eqn:Hl; [| discriminate].
  simpl in Hslot. injection Hslot as <- <-. exact Hl.
Qed.

Lemma sumZ_cons (x : Z) (l : list Z) : sumZ (x :: l) = x + sumZ l.
Proof. reflexivity. Qed.


Lemma usageByDay_set a dayKey d :
  Aggregator.usageByDay (setDay a dayKey d) = <[dayKey := d]> (Aggregator.usageByDay a).
Proof. reflexivity. Qed.

(** The shape of a successful usage update. *)
Lemma updateAggregatorUsage_Ok costs a dayKey hour slug i o a' :
  updateAggregatorUsage costs a dayKey hour slug i o = Ok a' ->
  exists modelHours totalHours,
    addToHour (BucketWithHours.hours (modelTotal a dayKey slug)) hour i o
      (usageCost costs slug i o) = Ok modelHours /\
    addToHour (BucketWithHours.hours (dayTotal a dayKey)) hour i o
      (usageCost costs slug i o) = Ok totalHours /\
    a' = setDay a dayKey
           (DayBucket.mk
              (addToTotals (dayTotal a dayKey) totalHours i o (usageCost costs slug i o))
              (<[slug := addToTotals (modelTotal a dayKey slug) modelHours i o
                           (usageCost costs slug i o)]>
                 (DayBucket.models (dayBucketOf a dayKey)))).
Proof.
  unfold updateAggregatorUsage. fold (dayBucketOf a dayKey).
  fold (modelTotal a dayKey slug). fold (dayTotal a dayKey).
  destruct (addToHour (BucketWithHours.hours (modelTotal a dayKey slug)) hour i o _)
    as [modelHours |] eqn:Hm; [| discriminate].
  cbn. destruct (addToHour (BucketWithHours.hours (dayTotal a dayKey)) hour i o _)
    as [totalHours |] eqn:Ht; [| discriminate].
  cbn. intros [= <-]. exists modelHours, totalHours. repeat split.
Qed.

Section Invariant.

(** A property of buckets that holds of a fresh bucket and is kept by
    the two ways a bucket is ever modified. *)
Variable P : BucketWithHours.t -> Prop.
Hypothesis P_create : P createBucketWithHours.
Hypothesis P_usage : forall b hour i o c hs,
  P b -> addToHour (BucketWithHours.hours b) hour i o c = Ok hs -> P (addToTotals b hs i o c).
Hypothesis P_bump : forall b, P b -> P (bumpConversationCount b).

Lemma everyBucket_day a dayKey :
  everyBucket P a ->
  P (dayTotal a dayKey) /\
  forall slug b, DayBucket.models (dayBucketOf a dayKey) !! slug = Some b -> P b.
Proof.
  intros Ha. unfold dayTotal, dayBucketOf.
  destruct (Aggregator.usageByDay a !! dayKey) as [d |] eqn:Hd; cbn.
  - exact (Ha _ _ Hd).
  - split; [exact P_create |]. intros slug b Hb. rewrite lookup_empty in Hb. discriminate.
Qed.

Lemma everyBucket_model a dayKey slug :
  everyBucket P a -> P (modelTotal a dayKey slug).
Proof.
  intros Ha. unfold modelTotal.
  destruct (DayBucket.models (dayBucketOf a dayKey) !! slug) as [b |] eqn:Hb; cbn.
  - exact (proj2 (everyBucket_day a dayKey Ha) _ _ Hb).
  - exact P_create.
Qed.

Lemma everyBucket_update costs a dayKey hour slug i o a' :
  everyBucket P a ->
  updateAggregatorUsage costs a dayKey hour slug i o = Ok a' ->
  everyBucket P a'.
Proof.
  intros Ha Hup.
  destruct (updateAggregatorUsage_Ok _ _ _ _ _ _ _ _ Hup) as (mh & th & Hm & Ht & ->).
  intros day' d' Hd'. rewrite usageByDay_set, lookup_insert in Hd'.
  case_decide as Hday.
  - injection Hd' as <-. cbn. split.
    + eapply P_usage; [| exact Ht]. exact (proj1 (everyBucket_day a dayKey Ha)).
    + intros slug' b Hb. rewrite lookup_insert in Hb. case_decide as Hslug.
      * injection Hb as <-. eapply P_usage; [| exact Hm]. apply everyBucket_model, Ha.
      * exact (proj2 (everyBucket_day a dayKey Ha) _ _ Hb).
  - exact (Ha _ _ Hd').
Qed.

Lemma bumpModels_every (models : gmap string BucketWithHours.t) (l : list string) :
  (forall slug b, models !! slug = Some b -> P b) ->
  forall slug b, foldr bumpModel models l !! slug = Some b -> P b.
Proof.
  intros Hm. induction l as [| x l IH]; cbn; [exact Hm |].
  intros slug b. unfold bumpModel at 1. rewrite lookup_insert. case_decide as Hx.
  - intros [= <-]. apply P_bump.
    destruct (foldr bumpModel models l !! x) as [b' |] eqn:Hb'; cbn; [eauto | exact P_create].
  - apply IH.
Qed.

Lemma everyBucket_rollup a dayKey used a' :
  everyBucket P a -> rollup dayKey used a = Ok a' -> everyBucket P a'.
Proof.
  intros Ha. unfold rollup.
  destruct (negb (dayKey =? "unknown-day")%string && (0 <? Z.of_nat (size used)))%bool;
    [| intros [= <-]; exact Ha].
  destruct (Aggregator.usageByDay a !! dayKey) as [d |] eqn:Hd; [| discriminate].
  intros [= <-]. intros day' d' Hd'. rewrite usageByDay_set, lookup_insert in Hd'.
  case_decide as Hday; [| exact (Ha _ _ Hd')].
  injection Hd' as <-. cbn. destruct (Ha _ _ Hd) as [Ht Hm]. split.
  - apply P_bump, Ht.
  - apply bumpModels_every, Hm.
Qed.

Lemma everyBucket_ensure a dayKey :
  everyBucket P a -> everyBucket P (ensureDay dayKey a).
Proof.
  intros Ha. unfold ensureDay.
  destruct (Aggregator.usageByDay a !! dayKey) as [d |] eqn:Hd; [exact Ha |].
  destruct (negb (dayKey =? "unknown-day")%string); [| exact Ha].
  intros day' d' Hd'. rewrite usageByDay_set, lookup_insert in Hd'.
  case_decide as Hday; [| exact (Ha _ _ Hd')].
  injection Hd' as <-. cbn. split; [exact P_create |].
  intros slug b Hb. rewrite lookup_empty in Hb. discriminate.
Qed.

Lemma everyBucket_reachable costs a : reachable costs a -> everyBucket P a.
Proof.
  induction 1 as [| a dayKey hour slug i o a' _ IH Hup | a dayKey used a' _ IH Hr
                  | a dayKey _ IH].
  - intros dayKey d Hd. cbn in Hd. rewrite lookup_empty in Hd. discriminate.
  - eapply everyBucket_update; eassumption.
  - eapply everyBucket_rollup; eassumption.
  - apply everyBucket_ensure, IH.
Qed.

End Invariant.

Lemma bind_Ok {A B : Type} (r : result A) (k : A -> result B) (b : B) :
  r ≫= k = Ok b -> exists a, r = Ok a /\ k a = Ok b.
Proof. destruct r as [a | e]; cbn; [eauto | discriminate]. Qed.

Lemma reachable_tryCatch costs (r : result Aggregator.t) :
  (forall a, r = Ok a -> reachable costs a) ->
  reachable costs (tryCatch r emptyAggregator).
Proof.
  intros H. destruct r as [a | e]; cbn; [apply H; reflexivity | apply reach_empty].
Qed.

Lemma sample_reachable : reachable MODEL_COSTS sampleAggregator.
Proof.
  apply reachable_tryCatch. intros a Ha.
  apply bind_Ok in Ha as (a1 & E1 & E2).
  eapply reach_rollup; [| exact E2]. eapply reach_update; [apply reach_empty | exact E1].
Qed.


Lemma create_fullDay : fullDay createBucketWithHours.
Proof. reflexivity. Qed.

Lemma usage_fullDay b hour i o c hs :
  fullDay b -> addToHour (BucketWithHours.hours b) hour i o c = Ok hs ->
  fullDay (addToTotals b hs i o c).
Proof.
  unfold fullDay. intros Hb Hadd.
  destruct (addToHour_Ok _ _ _ _ _ _ Hadd) as (n & h & _ & _ & ->). cbn.
  rewrite length_insert. exact Hb.
Qed.






Lemma create_noConversation : hoursCountNoConversation createBucketWithHours.
Proof. unfold hoursCountNoConversation. cbn. repeat constructor. Qed.

Lemma usage_noConversation b hour i o c hs :
  hoursCountNoConversation b -> addToHour (BucketWithHours.hours b) hour i o c = Ok hs ->
  hoursCountNoConversation (addToTotals b hs i o c).
Proof.
  unfold hoursCountNoConversation. intros Hb Hadd.
  destruct (addToHour_Ok _ _ _ _ _ _ Hadd) as (n & h & _ & Hl & ->). cbn.
  apply Forall_insert; [exact Hb |]. cbn.
  exact (proj1 (Forall_lookup _ _) Hb n h Hl).
Qed.

(** ** The cost of a usage update *)



Lemma dayTotal_update costs a dayKey hour slug i o a' :
  updateAggregatorUsage costs a dayKey hour slug i o = Ok a' ->
  exists totalHours,
    addToHour (BucketWithHours.hours (dayTotal a dayKey)) hour i o
      (usageCost costs slug i o) = Ok totalHours /\
    dayTotal a' dayKey =
      addToTotals (dayTotal a dayKey) totalHours i o (usageCost costs slug i o).
Proof.
  intros Hup.
  destruct (updateAggregatorUsage_Ok _ _ _ _ _ _ _ _ Hup) as (mh & th & Hm & Ht & ->).
  exists th. split; [exact Ht |].
  unfold dayTotal at 1, dayBucketOf at 1. rewrite usageByDay_set, lookup_insert_eq. reflexivity.
Qed.

Lemma modelTotal_update costs a dayKey hour slug i o a' :
  updateAggregatorUsage costs a dayKey hour slug i o = Ok a' ->
  exists modelHours,
    addToHour (BucketWithHours.hours (modelTotal a dayKey slug)) hour i o
      (usageCost costs slug i o) = Ok modelHours /\
    modelTotal a' dayKey slug =
      addToTotals (modelTotal a dayKey slug) modelHours i o (usageCost costs slug i o).
Proof.
  intros Hup.
  destruct (updateAggregatorUsage_Ok _ _ _ _ _ _ _ _ Hup) as (mh & th & Hm & Ht & ->).
  exists mh. split; [exact Hm |].
  unfold modelTotal at 1, dayBucketOf at 1.
  rewrite usageByDay_set, lookup_insert_eq. cbn. rewrite lookup_insert_eq. reflexivity.
Qed.




(** ** The graph walker *)

Lemma updated_trans costs dayKey hour a b c :
  updated costs dayKey hour a b -> updated costs dayKey hour b c ->
  updated costs dayKey hour a c.
Proof.
  induction 1 as [| a slug i o a' a'' Hup _ IH]; [auto |].
  intros Hc. eapply updated_step; [exact Hup | exact (IH Hc)].
Qed.

Lemma updated_one costs dayKey hour a slug i o a' :
  updateAggregatorUsage costs a dayKey hour slug i o = Ok a' ->
  updated costs dayKey hour a a'.
Proof. intros H. eapply updated_step; [exact H | apply updated_refl]. Qed.

Lemma foldl_discover (msgs : list FlatMsg.t) (found : gset string) :
  foldl discover found msgs = discoveredModels msgs ∪ found.
Proof.
  unfold discoveredModels. revert found.
  induction msgs as [| m msgs IH] using rev_ind; intros found.
  - cbn. set_solver.
  - rewrite !foldl_app. cbn. rewrite (IH found). unfold discover.
    destruct (negb (FlatMsg.isReasoningRecap m) && (roleOf m =? "assistant")%string
              && negb (slugOf m =? "unknown_model")%string)%bool; set_solver.
Qed.

Lemma flatStep_Ok costs dayKey hour st m st' :
  flatStep costs dayKey hour st m = Ok st' ->
  updated costs dayKey hour (agg st) (agg st') /\
  modelsUsed st' = discover (modelsUsed st) m.
Proof.
  unfold flatStep, discover.
  fold (roleOf m) (contentOf m) (searchOf m) (outputOf m) (slugOf m).
  destruct (FlatMsg.isReasoningRecap m); cbn.
  { intros [= <-]. split; [apply updated_refl | reflexivity]. }
  destruct (isContextRole (roleOf m)) eqn:Hrole.
  { rewrite (contextRole_not_assistant _ Hrole).
    intros [= <-]. split; [apply updated_refl | reflexivity]. }
  destruct (String.eqb (roleOf m) "assistant"); cbn.
  2:{ intros [= <-]. split; [apply updated_refl | reflexivity]. }
  destruct (FlatMsg.isFinalMessage m).
  2:{ intros [= <-]. split; [apply updated_refl | reflexivity]. }
  destruct (updateAggregatorUsage costs (agg st) dayKey hour (slugOf m) _ _) as [a' |] eqn:Hup;
    [| discriminate].
  cbn. intros [= <-]. cbn. split; [eapply updated_one; exact Hup | reflexivity].
Qed.

Lemma flatLoop_Ok costs dayKey hour msgs st st' :
  forM (flatStep costs dayKey hour) msgs st = Ok st' ->
  updated costs dayKey hour (agg st) (agg st') /\
  modelsUsed st' = foldl discover (modelsUsed st) msgs.
Proof.
  revert st. induction msgs as [| m msgs IH]; intros st; cbn.
  - intros [= <-]. split; [apply updated_refl | reflexivity].
  - destruct (flatStep costs dayKey hour st m) as [st1 |] eqn:H1; [| discriminate].
    cbn. intros H2. destruct (flatStep_Ok _ _ _ _ _ _ H1) as [U1 M1].
    destruct (IH _ H2) as [U2 M2]. split.
    + eapply updated_trans; eassumption.
    + rewrite M2, M1. reflexivity.
Qed.

Lemma processFlat_Ok costs msgs dayKey hour a a' used :
  processFlatMessagesWithTokenCounts costs msgs dayKey hour a = Ok (a', used) ->
  updated costs dayKey hour a a' /\ used = discoveredModels msgs.
Proof.
  unfold processFlatMessagesWithTokenCounts, flatRun.
  destruct (forM (flatStep costs dayKey hour) msgs (flatInit a)) as [st |] eqn:H; [| discriminate].
  cbn. intros [= <- <-]. destruct (flatLoop_Ok _ _ _ _ _ _ H) as [U M].
  split; [exact U |]. rewrite M, foldl_discover. cbn. set_solver.
Qed.

Lemma imageGenerationUsage_Ok costs dayKey hour msg a used a' used' :
  imageGenerationUsage costs dayKey hour msg (a, used) = Ok (a', used') ->
  updated costs dayKey hour a a' /\ used' = imageModels msg ∪ used.
Proof.
  unfold imageGenerationUsage, imageModels. cbn [fst snd].
  set (authorName := default "" (Message.author msg ≫= Author.name)).
  set (partsArray := default [] (Message.content msg ≫= Content.parts)).
  set (hasAsync := (_ || _ || _ || _ || _)%bool).
  destruct (String.eqb authorName "dalle.text2im"), (0 <? countImages partsArray), hasAsync;
    cbn;
    repeat match goal with
      | |- context [updateAggregatorUsage ?c ?x ?d ?h ?s ?i ?o] =>
          let H := fresh "Hup" in
          destruct (updateAggregatorUsage c x d h s i o) eqn:H; cbn; [| discriminate]
      end;
    intros [= <- <-];
    (split; [eauto using updated_refl, updated_one, updated_step | set_solver]).
Qed.

Section Walker.

Variable encode : string -> Z.
Variable JSON_stringify : json -> string.

Lemma walkStep_Ok costs dayKey hour st entry st' :
  walkStep encode JSON_stringify costs dayKey hour st entry = Ok st' ->
  updated costs dayKey hour (Walk.agg st) (Walk.agg st') /\
  Walk.modelsUsed st' = nodeModels entry ∪ Walk.modelsUsed st /\
  Walk.nodeMessages st' = (Walk.nodeMessages st ++ flattenNode encode JSON_stringify entry)%list.
Proof.
  unfold walkStep, nodeModels, flattenNode.
  destruct (Node.message (snd entry)) as [msg |].
  2:{ intros [= <-]. split; [apply updated_refl |]. split; [set_solver |].
      symmetry; apply app_nil_r. }
  destruct (String.eqb (default "unknown" (Message.author msg ≫= Author.role)) "tool").
  - destruct (imageGenerationUsage costs dayKey hour msg (Walk.agg st, Walk.modelsUsed st))
      as [[a1 used1] |] eqn:Himg; [| discriminate].
    cbn. intros [= <-]. cbn.
    destruct (imageGenerationUsage_Ok _ _ _ _ _ _ _ _ Himg) as [U ->]. auto.
  - cbn. intros [= <-]. cbn. split; [apply updated_refl |]. split; [set_solver | reflexivity].
Qed.

Lemma walkLoop_Ok costs dayKey hour mapping st st' :
  forM (walkStep encode JSON_stringify costs dayKey hour) mapping st = Ok st' ->
  updated costs dayKey hour (Walk.agg st) (Walk.agg st') /\
  Walk.modelsUsed st' = walkModels mapping ∪ Walk.modelsUsed st /\
  Walk.nodeMessages st' = (Walk.nodeMessages st ++ flattenAll encode JSON_stringify mapping)%list.
Proof.
  revert st. induction mapping as [| entry mapping IH]; intros st; cbn.
  - intros [= <-]. split; [apply updated_refl |]. split; [set_solver |].
    symmetry; apply app_nil_r.
  - destruct (walkStep encode JSON_stringify costs dayKey hour st entry) as [st1 |] eqn:H1;
      [| discriminate].
    cbn. intros H2. destruct (walkStep_Ok _ _ _ _ _ _ H1) as (U1 & M1 & N1).
    destruct (IH _ H2) as (U2 & M2 & N2). split; [eapply updated_trans; eassumption |].
    split.
    + rewrite M2, M1. set_solver.
    + rewrite N2, N1. unfold flattenAll. cbn. rewrite <- app_assoc. reflexivity.
Qed.

Lemma processMappedMessages_Ok costs mapping dayKey hour a a' used :
  processMappedMessages encode JSON_stringify costs mapping dayKey hour a = Ok (a', used) ->
  updated costs dayKey hour a a' /\
  used = discoveredModels (flattenAll encode JSON_stringify mapping) ∪ walkModels mapping.
Proof.
  unfold processMappedMessages.
  destruct (forM _ mapping _) as [st |] eqn:Hwalk; [| discriminate]. cbn.
  destruct (processFlatMessagesWithTokenCounts costs _ dayKey hour _) as [[a1 used1] |] eqn:Hflat;
    [| discriminate].
  cbn. intros [= <- <-].
  destruct (walkLoop_Ok _ _ _ _ _ _ Hwalk) as (U1 & M1 & N1). cbn in U1, M1, N1.
  destruct (processFlat_Ok _ _ _ _ _ _ _ Hflat) as [U2 ->].
  split; [eapply updated_trans; eassumption |].
  rewrite N1, M1. set_solver.
Qed.

End Walker.

(** ** Conversation counts *)

Lemma dayBucketOf_update costs a dayKey hour slug i o a' d :
  updateAggregatorUsage costs a dayKey hour slug i o = Ok a' ->
  d <> dayKey -> Aggregator.usageByDay a' !! d = Aggregator.usageByDay a !! d.
Proof.
  intros Hup Hd.
  destruct (updateAggregatorUsage_Ok _ _ _ _ _ _ _ _ Hup) as (mh & th & _ & _ & ->).
  rewrite usageByDay_set. apply lookup_insert_ne. congruence.
Qed.

Lemma update_present costs a dayKey hour slug i o a' d :
  updateAggregatorUsage costs a dayKey hour slug i o = Ok a' ->
  is_Some (Aggregator.usageByDay a !! d) -> is_Some (Aggregator.usageByDay a' !! d).
Proof.
  intros Hup Hd.
  destruct (updateAggregatorUsage_Ok _ _ _ _ _ _ _ _ Hup) as (mh & th & _ & _ & ->).
  rewrite usageByDay_set, lookup_insert. case_decide; [eauto | exact Hd].
Qed.

Lemma update_conversations costs a dayKey hour slug i o a' d s :
  updateAggregatorUsage costs a dayKey hour slug i o = Ok a' ->
  dayConversations a' d = dayConversations a d /\
  modelConversations a' d s = modelConversations a d s.
Proof.
  intros Hup.
  destruct (decide (d = dayKey)) as [-> | Hd].
  - destruct (dayTotal_update _ _ _ _ _ _ _ _ Hup) as (th & _ & Ht).
    unfold dayConversations. rewrite Ht. split; [reflexivity |].
    destruct (decide (s = slug)) as [-> | Hs].
    + destruct (modelTotal_update _ _ _ _ _ _ _ _ Hup) as (mh & _ & Hm).
      unfold modelConversations. rewrite Hm. reflexivity.
    + destruct (updateAggregatorUsage_Ok _ _ _ _ _ _ _ _ Hup) as (mh & th' & _ & _ & ->).
      unfold modelConversations, modelTotal. unfold dayBucketOf at 1.
      rewrite usageByDay_set, lookup_insert_eq. cbn.
      rewrite lookup_insert_ne by congruence. reflexivity.
  - pose proof (dayBucketOf_update _ _ _ _ _ _ _ _ d Hup Hd) as Heq.
    unfold dayConversations, modelConversations, modelTotal, dayTotal, dayBucketOf.
    rewrite Heq. auto.
Qed.


Lemma updated_present costs dayKey hour a a' d :
  updated costs dayKey hour a a' ->
  is_Some (Aggregator.usageByDay a !! d) -> is_Some (Aggregator.usageByDay a' !! d).
Proof.
  induction 1 as [| a slug i o a' a'' Hup _ IH]; [auto |].
  intros Hd. apply IH. eapply update_present; eassumption.
Qed.

Lemma updated_elsewhere costs dayKey hour a a' d :
  updated costs dayKey hour a a' -> d <> dayKey ->
  Aggregator.usageByDay a' !! d = Aggregator.usageByDay a !! d.
Proof.
  induction 1 as [| a slug i o a' a'' Hup _ IH]; [auto |].
  intros Hd. rewrite (IH Hd). eapply dayBucketOf_update; eassumption.
Qed.

Lemma updated_reachable costs dayKey hour a a' :
  updated costs dayKey hour a a' -> reachable costs a -> reachable costs a'.
Proof.
  induction 1 as [| a slug i o a' a'' Hup _ IH]; [auto |].
  intros Ha. apply IH. eapply reach_update; eassumption.
Qed.

Lemma ensureDay_present dayKey a :
  dayKey <> "unknown-day" -> is_Some (Aggregator.usageByDay (ensureDay dayKey a) !! dayKey).
Proof.
  intros Hd. unfold ensureDay.
  destruct (Aggregator.usageByDay a !! dayKey) as [db |] eqn:Hl; [rewrite Hl; eauto |].
  destruct (String.eqb_spec dayKey "unknown-day") as [-> | _]; [congruence |]. cbn.
  rewrite lookup_insert_eq. eauto.
Qed.

Lemma ensureDay_elsewhere dayKey a d :
  d <> dayKey ->
  Aggregator.usageByDay (ensureDay dayKey a) !! d = Aggregator.usageByDay a !! d.
Proof.
  intros Hd. unfold ensureDay.
  destruct (Aggregator.usageByDay a !! dayKey); [reflexivity |].
  destruct (negb (dayKey =? "unknown-day")%string); [| reflexivity].
  cbn. apply lookup_insert_ne. congruence.
Qed.

Lemma ensureDay_bucket dayKey a d :
  dayBucketOf (ensureDay dayKey a) d = dayBucketOf a d.
Proof.
  unfold ensureDay, dayBucketOf.
  destruct (Aggregator.usageByDay a !! dayKey) as [db |] eqn:Hl; [reflexivity |].
  destruct (negb (dayKey =? "unknown-day")%string); [| reflexivity].
  cbn. rewrite lookup_insert. case_decide as Hd; [| reflexivity].
  subst d. rewrite Hl. reflexivity.
Qed.



(** C10.  In every reachable aggregator the conversation_count of every
    hour bucket of every hours array is 0.  A usage update leaves every
    conversation_count as it was, in the hour buckets and in the daily
    totals of every day and model; the rollup, one of the steps of
    reachability, increments the daily totals of the day and of its
    models only. *)
Theorem hour_buckets_count_no_conversation costs a :
  reachable costs a ->
  everyBucket hoursCountNoConversation a /\
  forall dayKey hour slug i o a',
    updateAggregatorUsage costs a dayKey hour slug i o = Ok a' ->
    everyBucket hoursCountNoConversation a' /\
    forall d s,
      dayConversations a' d = dayConversations a d /\
      modelConversations a' d s = modelConversations a d s.
Proof.
  intros Ha.
  assert (Hinv : forall x, reachable costs x -> everyBucket hoursCountNoConversation x).
  { apply everyBucket_reachable.
    - exact create_noConversation.
    - exact usage_noConversation.
    - intros b Hb. exact Hb. }
  split; [exact (Hinv a Ha) |].
  intros dayKey hour slug i o a' Hup. split.
  - apply Hinv. eapply reach_update; eassumption.
  - intros d s. eapply update_conversations. exact Hup.
Qed.

Lemma hour_buckets_count_no_conversation_witness :
  reachable MODEL_COSTS sampleAggregator /\
  everyBucket hoursCountNoConversation sampleAggregator.
Proof.
  split; [exact sample_reachable |].
  exact (proj1 (hour_buckets_count_no_conversation MODEL_COSTS sampleAggregator
                  sample_reachable)).
Defined.

Lemma rollup_elsewhere dayKey used a a' d :
  rollup dayKey used a = Ok a' -> d <> dayKey ->
  Aggregator.usageByDay a' !! d = Aggregator.usageByDay a !! d.
Proof.
  unfold rollup. intros H Hd.
  destruct (_ && _)%bool; [| injection H as <-; reflexivity].
  destruct (Aggregator.usageByDay a !! dayKey); [| discriminate].
  injection H as <-. rewrite usageByDay_set. apply lookup_insert_ne. congruence.
Qed.

(** With its day bucket in place the rollup cannot throw. *)
Lemma rollup_succeeds dayKey used a :
  (dayKey <> "unknown-day" -> is_Some (Aggregator.usageByDay a !! dayKey)) ->
  exists a', rollup dayKey used a = Ok a'.
Proof.
  intros Hp. unfold rollup.
  destruct (String.eqb_spec dayKey "unknown-day") as [-> | Hd]; cbn; [eauto |].
  destruct (0 <? Z.of_nat (size used)); [| eauto].
  destruct (Hp Hd) as [db ->]. eauto.
Qed.

Section Conversations.

Variable encode : string -> Z.
Variable JSON_stringify : json -> string.

(** What [processConversation] does, when it returns: the aggregator
    passes through the day-bucket creation, the usage updates of the
    conversation's day and hour, and the rollup. *)
Lemma processConversation_Ok now costs c a a' used :
  processConversation encode JSON_stringify now costs c a = Ok (a', used) ->
  exists a2,
    updated costs (dayKeyOf now c) (snd (dayAndHour now c)) (ensureDay (dayKeyOf now c) a) a2 /\
    rollup (dayKeyOf now c) used a2 = Ok a' /\
    used = conversationModels encode JSON_stringify c.
Proof.
  unfold processConversation, dayKeyOf, conversationModels.
  destruct (dayAndHour now c) as [dayKey hour]. cbn [fst snd].
  destruct (Conversation.mapping c) as [mapping |].
  - destruct (processMappedMessages encode JSON_stringify costs mapping dayKey hour _)
      as [[a2 used2] |] eqn:Hmap; [| discriminate]. cbn.
    destruct (rollup dayKey used2 a2) as [a3 |] eqn:Hroll; [| discriminate].
    cbn. intros [= <- <-].
    destruct (processMappedMessages_Ok _ _ _ _ _ _ _ _ _ Hmap) as [U ->].
    exists a2. auto.
  - cbn. destruct (rollup dayKey ∅ _) as [a3 |] eqn:Hroll; [| discriminate].
    cbn. intros [= <- <-]. eexists. split; [apply updated_refl |]. auto.
Qed.


Lemma processConversation_elsewhere now costs c a a' used d :
  processConversation encode JSON_stringify now costs c a = Ok (a', used) ->
  d <> dayKeyOf now c ->
  Aggregator.usageByDay a' !! d = Aggregator.usageByDay a !! d.
Proof.
  intros H Hd. destruct (processConversation_Ok _ _ _ _ _ _ H) as (a2 & U & R & _).
  rewrite (rollup_elsewhere _ _ _ _ _ R Hd), (updated_elsewhere _ _ _ _ _ _ U Hd).
  apply ensureDay_elsewhere, Hd.
Qed.

Lemma processConversation_reachable now costs c a a' used :
  processConversation encode JSON_stringify now costs c a = Ok (a', used) ->
  reachable costs a -> reachable costs a'.
Proof.
  intros H Ha. destruct (processConversation_Ok _ _ _ _ _ _ H) as (a2 & U & R & _).
  eapply reach_rollup; [| exact R].
  eapply updated_reachable; [exact U |]. apply reach_ensure, Ha.
Qed.

Lemma conversationsOf_cons entry data :
  conversationsOf (entry :: data) =
    match entry with
    | Some c => c :: conversationsOf data
    | None => conversationsOf data
    end.
Proof. destruct entry; reflexivity. Qed.

Lemma countWhere_cons {A : Type} (f : A -> bool) (x : A) (l : list A) :
  countWhere f (x :: l) = (if f x then 1 else 0) + countWhere f l.
Proof.
  unfold countWhere. cbn. destruct (f x); cbn [length]; lia.
Qed.


(** The aggregator the loop over the conversations starts from. *)
Lemma processConversations_Ok now costs data a :
  processConversations encode JSON_stringify now costs data = Ok a ->
  exists a0 a1,
    Aggregator.usageByDay a0 = ∅ /\
    forM (conversationStep encode JSON_stringify now (snd (scanForModelSlugs costs data None))) data a0 = Ok a1 /\
    Aggregator.usageByDay a = Aggregator.usageByDay a1.
Proof.
  unfold processConversations. destruct (dateRange data) as [lo hi].
  set (a0 := match lo with Some _ => _ | None => _ end).
  destruct (forM _ data a0) as [a1 |] eqn:Hloop; [| discriminate].
  cbn. intros [= <-]. exists a0, a1. split; [| split; [exact Hloop | reflexivity]].
  subst a0. destruct lo; reflexivity.
Qed.



End Conversations.


(** ** Determinism of a run *)

Lemma forM_ext {S A : Type} (f g : S -> A -> result S) (xs : list A) (s : S) :
  Forall (fun x => forall s, f s x = g s x) xs -> forM f xs s = forM g xs s.
Proof.
  intros H. revert s. induction H as [| x xs Hx _ IH]; intros s; cbn; [reflexivity |].
  rewrite Hx. destruct (g s x); cbn; [apply IH | reflexivity].
Qed.

Lemma foldl_placeholder (l : list string) (table : gmap string ModelCost) (m : string) :
  is_Some (foldl (fun table m => <[m := zeroCost]> table) table l !! m)
  <-> is_Some (table !! m) \/ In m l.
Proof.
  revert table. induction l as [| x l IH]; intros table; cbn.
  - tauto.
  - rewrite IH, lookup_insert. case_decide as Hx.
    + split; [intros _; right; left; exact Hx | intros _; left; eauto].
    + split; [intros [H | H]; auto | intros [H | [H | H]]; auto; contradiction].
Qed.

Lemma filter_none {A : Type} (f : A -> bool) (l : list A) :
  (forall x, In x l -> f x = false) -> List.filter f l = [].
Proof.
  induction l as [| x l IH]; intros H; cbn; [reflexivity |].
  rewrite (H x (or_introl eq_refl)). apply IH. intros y Hy. apply H. right. exact Hy.
Qed.

(** A second scan of the same input adds no placeholder. *)
Lemma scan_idempotent costs data maxScan :
  snd (scanForModelSlugs (snd (scanForModelSlugs costs data maxScan)) data maxScan)
  = snd (scanForModelSlugs costs data maxScan).
Proof.
  unfold scanForModelSlugs. cbn [fst snd].
  set (found := foldl scanConversation _ _).
  set (missing := List.filter _ (elements found)).
  set (table := foldl _ costs missing).
  rewrite (filter_none _ (elements found)); [reflexivity |].
  intros m Hm. apply andb_false_iff.
  destruct (String.eqb_spec m "unknown_model") as [-> | Hu]; [right; reflexivity |].
  left. apply negb_false_iff, bool_decide_eq_true_2.
  subst table. apply foldl_placeholder.
  destruct (costs !! m) as [c |] eqn:Hc; [left; eauto |].
  right. subst missing. apply filter_In. split; [exact Hm |].
  rewrite bool_decide_eq_false_2 by (rewrite Hc; intros [? ?]; discriminate).
  destruct (String.eqb_spec m "unknown_model"); [contradiction | reflexivity].
Qed.

Section Determinism.

Variable encode : string -> Z.
Variable JSON_stringify : json -> string.

Lemma dayAndHour_timestamped now now' c :
  is_Some (Conversation.create_time c) -> dayAndHour now c = dayAndHour now' c.
Proof.
  intros [v Hv]. unfold dayAndHour, conversationTimestamp. rewrite Hv. reflexivity.
Qed.

Lemma processConversation_timestamped now now' costs c a :
  is_Some (Conversation.create_time c) ->
  processConversation encode JSON_stringify now costs c a
  = processConversation encode JSON_stringify now' costs c a.
Proof.
  intros Hc. unfold processConversation.
  rewrite (dayAndHour_timestamped now now' c Hc). reflexivity.
Qed.

Lemma conversationLoop_timestamped now now' costs data a :
  timestamped data ->
  forM (conversationStep encode JSON_stringify now costs) data a
  = forM (conversationStep encode JSON_stringify now' costs) data a.
Proof.
  intros Ht. apply forM_ext. unfold timestamped in Ht.
  induction data as [| entry data IH]; [constructor |].
  rewrite conversationsOf_cons in Ht. destruct entry as [c |].
  - apply Forall_cons in Ht as [Hc Ht]. constructor; [| exact (IH Ht)].
    intros s. unfold conversationStep.
    rewrite (processConversation_timestamped now now' costs c s Hc). reflexivity.
  - constructor; [reflexivity | exact (IH Ht)].
Qed.

(** C7, as stated: two runs on the same input would agree whatever the
    clock.  A conversation without a creation timestamp is bucketed by
    the clock: run one hour later, its usage moves from hour 0 to
    hour 1. *)
Lemma runs_depend_on_clock :
  run 0 [Some (oneTurn None)] <> run 3600000 [Some (oneTurn None)] /\
  hourMessages "1970-01-01" 0 (run 0 [Some (oneTurn None)]) = Some 1 /\
  hourMessages "1970-01-01" 0 (run 3600000 [Some (oneTurn None)]) = Some 0.
Proof.
  assert (H0 : hourMessages "1970-01-01" 0 (run 0 [Some (oneTurn None)]) = Some 1)
    by (vm_compute; reflexivity).
  assert (H1 : hourMessages "1970-01-01" 0 (run 3600000 [Some (oneTurn None)]) = Some 0)
    by (vm_compute; reflexivity).
  split; [| split; assumption].
  intros E. rewrite E, H1 in H0. discriminate H0.
Qed.

(** C7, amended.  For every input array in which every conversation
    carries a creation timestamp, running processConversations twice
    produces the same result, whatever the clock reads at either run
    and although the second run starts from the cost table as the first
    run left it: every field of the two aggregators is identical. *)
Theorem runs_agree now1 now2 costs data :
  timestamped data ->
  processConversations encode JSON_stringify now2
    (snd (scanForModelSlugs costs data None)) data
  = processConversations encode JSON_stringify now1 costs data.
Proof.
  intros Ht. unfold processConversations. rewrite scan_idempotent.
  destruct (dateRange data) as [lo hi].
  rewrite (conversationLoop_timestamped now2 now1 _ data _ Ht). reflexivity.
Qed.

End Determinism.

Lemma runs_agree_witness :
  timestamped [Some (oneTurn (Some (TNumber 0))); None] /\
  processConversations perCharacter noBlob 3600000
    (snd (scanForModelSlugs MODEL_COSTS [Some (oneTurn (Some (TNumber 0))); None] None))
    [Some (oneTurn (Some (TNumber 0))); None]
  = processConversations perCharacter noBlob 0 MODEL_COSTS
      [Some (oneTurn (Some (TNumber 0))); None].
Proof.
  assert (H : timestamped [Some (oneTurn (Some (TNumber 0))); None]).
  { unfold timestamped. cbn. repeat constructor. eexists. reflexivity. }
  split; [exact H |].
  exact (runs_agree perCharacter noBlob 0 3600000 MODEL_COSTS _ H).
Defined.

(** ** Day keys *)

Example dayKey_seconds :
  getDayKey (Some 1700000000%Q) = "2023-11-14" /\ getHourOfDay (Some 1700000000%Q) = Int 22.
Proof. split; vm_compute; reflexivity. Qed.

Example dayKey_milliseconds :
  getDayKey (Some 1700000000123%Q) = "2023-11-14" /\
  getHourOfDay (Some 1700000000123%Q) = Int 22.
Proof. split; vm_compute; reflexivity. Qed.

Example dayKey_leap_day :
  getDayKey (Some 951782400%Q) = "2000-02-29" /\ getDayKey (Some 951868800%Q) = "2000-03-01".
Proof. split; vm_compute; reflexivity. Qed.

Example dayKey_before_epoch :
  getDayKey (Some (-1)%Q) = "1969-12-31" /\ getHourOfDay (Some (-1)%Q) = Int 23.
Proof. split; vm_compute; reflexivity. Qed.

(** A timestamp that is not a number yields no date at all, and no
    exception either. *)
Example dayKey_not_a_number :
  getDayKey None = "NaN-NaN-NaN" /\ getHourOfDay None = NaN.
Proof. split; vm_compute; reflexivity. Qed.

Lemma pretty_N_char_not_u (x : N) : pretty_N_char x <> "u"%char.
Proof. unfold pretty_N_char. repeat case_match; discriminate. Qed.

Lemma pretty_N_go_not_u (x : N) (s : string) :
  ~ startsWith "u" s -> ~ startsWith "u" (pretty_N_go x s).
Proof.
  revert s. induction (N.lt_wf_0 x) as [x _ IH]; intros s Hs.
  assert (x = 0 \/ 0 < x)%N as [-> | Hx] by lia; [rewrite pretty_N_go_0; exact Hs |].
  rewrite pretty_N_go_step by exact Hx.
  apply IH; [apply N.div_lt; lia |]. cbn. apply pretty_N_char_not_u.
Qed.

Lemma toString_not_u (n : jsint) (rest : string) :
  ~ startsWith "u" (toString n +:+ "-" +:+ rest).
Proof.
  destruct n as [[| p | p] |]; cbn; try discriminate.
  unfold pretty, pretty_positive, pretty, pretty_N.
  case_decide as Hp; [discriminate Hp |].
  pose proof (pretty_N_go_not_u (N.pos p) "" (fun H => H)) as Hgo.
  destruct (pretty_N_go (N.pos p) ""); cbn in *; [discriminate | exact Hgo].
Qed.

(** No timestamp whatsoever yields the sentinel day key. *)
Lemma getDayKey_not_sentinel (unixTime : number) : getDayKey unixTime <> "unknown-day".
Proof.
  unfold getDayKey. intros H.
  eapply toString_not_u. rewrite H. reflexivity.
Qed.

(** ** Processing does not throw on a valid hour *)

Lemma updated_fullDay costs dayKey hour a a' :
  updated costs dayKey hour a a' -> everyBucket fullDay a -> everyBucket fullDay a'.
Proof.
  induction 1 as [| a slug i o a' a'' Hup _ IH]; [auto |].
  intros Ha. apply IH.
  eapply (everyBucket_update fullDay create_fullDay usage_fullDay); eassumption.
Qed.

Lemma addToHour_succeeds hours hour i o c :
  validHour hour -> length hours = 24%nat -> exists hs, addToHour hours hour i o c = Ok hs.
Proof.
  intros Hh Hl. unfold addToHour, slot. destruct hour as [z |]; [| contradiction].
  cbn in Hh. destruct (Z.leb_spec 0 z); [| lia].
  destruct (lookup_lt_is_Some_2 hours (Z.to_nat z)) as [h ->]; [lia |].
  cbn. eauto.
Qed.

Lemma update_succeeds costs a dayKey hour slug i o :
  validHour hour -> everyBucket fullDay a ->
  exists a', updateAggregatorUsage costs a dayKey hour slug i o = Ok a'.
Proof.
  intros Hh Ha. unfold updateAggregatorUsage.
  fold (dayBucketOf a dayKey). fold (modelTotal a dayKey slug). fold (dayTotal a dayKey).
  destruct (addToHour_succeeds (BucketWithHours.hours (modelTotal a dayKey slug)) hour i o
              (usageCost costs slug i o) Hh) as [mh ->].
  { apply (everyBucket_model fullDay create_fullDay), Ha. }
  cbn.
  destruct (addToHour_succeeds (BucketWithHours.hours (dayTotal a dayKey)) hour i o
              (usageCost costs slug i o) Hh) as [th ->].
  { apply (everyBucket_day fullDay create_fullDay), Ha. }
  cbn. eauto.
Qed.

Lemma flatStep_succeeds costs dayKey hour st m :
  validHour hour -> everyBucket fullDay (agg st) ->
  exists st', flatStep costs dayKey hour st m = Ok st'.
Proof.
  intros Hh Ha. unfold flatStep.
  destruct (FlatMsg.isReasoningRecap m); [eauto |].
  destruct (isContextRole _); [eauto |].
  destruct (String.eqb _ "assistant"); [| eauto].
  destruct (FlatMsg.isFinalMessage m); [| eauto].
  match goal with
  | |- context [updateAggregatorUsage ?c ?x ?d ?h ?s ?i ?o] =>
      destruct (update_succeeds c x d h s i o Hh Ha) as [a' ->]
  end.
  cbn. eauto.
Qed.

Lemma flatLoop_succeeds costs dayKey hour msgs st :
  validHour hour -> everyBucket fullDay (agg st) ->
  exists st', forM (flatStep costs dayKey hour) msgs st = Ok st'.
Proof.
  intros Hh. revert st. induction msgs as [| m msgs IH]; intros st Ha; cbn; [eauto |].
  destruct (flatStep_succeeds costs dayKey hour st m Hh Ha) as [st1 H1]. rewrite H1. cbn.
  apply IH. eapply updated_fullDay; [| exact Ha]. exact (proj1 (flatStep_Ok _ _ _ _ _ _ H1)).
Qed.

(** Run the next usage update of the goal, which cannot throw. *)
Ltac run_update Hh :=
  match goal with
  | Ha : everyBucket fullDay ?x |- context [updateAggregatorUsage ?c ?x ?d ?h ?s ?i ?o] =>
      let a' := fresh "a" in
      let H := fresh "Hup" in
      destruct (update_succeeds c x d h s i o Hh Ha) as [a' H];
      rewrite H; cbn;
      pose proof (everyBucket_update fullDay create_fullDay usage_fullDay
                    _ _ _ _ _ _ _ _ Ha H)
  end.

Lemma imageGenerationUsage_succeeds costs dayKey hour msg a used :
  validHour hour -> everyBucket fullDay a ->
  exists r, imageGenerationUsage costs dayKey hour msg (a, used) = Ok r.
Proof.
  intros Hh Ha. unfold imageGenerationUsage. cbn [fst snd].
  set (partsArray := default [] (Message.content msg ≫= Content.parts)).
  set (hasAsync := (_ || _ || _ || _ || _)%bool).
  destruct (String.eqb _ "dalle.text2im"), (0 <? countImages partsArray), hasAsync;
    cbn; repeat run_update Hh; eauto.
Qed.

Section Totality.

Variable encode : string -> Z.
Variable JSON_stringify : json -> string.

Lemma walkStep_succeeds costs dayKey hour st entry :
  validHour hour -> everyBucket fullDay (Walk.agg st) ->
  exists st', walkStep encode JSON_stringify costs dayKey hour st entry = Ok st'.
Proof.
  intros Hh Ha. unfold walkStep.
  destruct (Node.message (snd entry)) as [msg |]; [| eauto].
  destruct (String.eqb _ "tool"); [| cbn; eauto].
  destruct (imageGenerationUsage_succeeds costs dayKey hour msg (Walk.agg st)
              (Walk.modelsUsed st) Hh Ha) as [[a1 used1] ->].
  cbn. eauto.
Qed.

Lemma walkLoop_succeeds costs dayKey hour mapping st :
  validHour hour -> everyBucket fullDay (Walk.agg st) ->
  exists st', forM (walkStep encode JSON_stringify costs dayKey hour) mapping st = Ok st'.
Proof.
  intros Hh. revert st. induction mapping as [| entry mapping IH]; intros st Ha; cbn; [eauto |].
  destruct (walkStep_succeeds costs dayKey hour st entry Hh Ha) as [st1 H1]. rewrite H1. cbn.
  apply IH. eapply updated_fullDay; [| exact Ha].
  exact (proj1 (walkStep_Ok _ _ _ _ _ _ _ _ H1)).
Qed.

Lemma processMappedMessages_succeeds costs mapping dayKey hour a :
  validHour hour -> everyBucket fullDay a ->
  exists r, processMappedMessages encode JSON_stringify costs mapping dayKey hour a = Ok r.
Proof.
  intros Hh Ha. unfold processMappedMessages.
  destruct (walkLoop_succeeds costs dayKey hour mapping (Walk.mk [] ∅ a) Hh Ha) as [st Hw].
  rewrite Hw. cbn.
  assert (Hst : everyBucket fullDay (Walk.agg st)).
  { eapply updated_fullDay; [| exact Ha]. exact (proj1 (walkLoop_Ok _ _ _ _ _ _ _ _ Hw)). }
  unfold processFlatMessagesWithTokenCounts, flatRun.
  destruct (flatLoop_succeeds costs dayKey hour (Walk.nodeMessages st) (flatInit (Walk.agg st))
              Hh Hst) as [fs ->].
  cbn. eauto.
Qed.

(** A conversation with a valid hour is processed without an exception,
    and leaves every hours array complete. *)
Lemma processConversation_succeeds now costs c a :
  validHour (snd (dayAndHour now c)) -> everyBucket fullDay a ->
  exists a' used,
    processConversation encode JSON_stringify now costs c a = Ok (a', used) /\
    everyBucket fullDay a'.
Proof.
  intros Hh Ha.
  assert (He : everyBucket fullDay (ensureDay (dayKeyOf now c) a))
    by (apply (everyBucket_ensure fullDay create_fullDay), Ha).
  assert (Hm : exists a2 used,
    match Conversation.mapping c with
    | Some mapping =>
        processMappedMessages encode JSON_stringify costs mapping (dayKeyOf now c)
          (snd (dayAndHour now c)) (ensureDay (dayKeyOf now c) a)
    | None => Ok (ensureDay (dayKeyOf now c) a, ∅)
    end = Ok (a2, used) /\
    updated costs (dayKeyOf now c) (snd (dayAndHour now c)) (ensureDay (dayKeyOf now c) a) a2).
  { destruct (Conversation.mapping c) as [mapping |].
    - destruct (processMappedMessages_succeeds costs mapping (dayKeyOf now c) _ _ Hh He)
        as [[a2 used] H2].
      exists a2, used. split; [exact H2 |].
      exact (proj1 (processMappedMessages_Ok _ _ _ _ _ _ _ _ _ H2)).
    - do 2 eexists. split; [reflexivity | apply updated_refl]. }
  destruct Hm as (a2 & used & Hm & U).
  destruct (rollup_succeeds (dayKeyOf now c) used a2) as [a3 Hr].
  { intros Hd. eapply updated_present; [exact U |]. apply ensureDay_present, Hd. }
  exists a3, used. split.
  - unfold processConversation. unfold dayKeyOf in *.
    destruct (dayAndHour now c) as [dayKey hour]. cbn [fst snd] in *.
    rewrite Hm. cbn. rewrite Hr. reflexivity.
  - eapply (everyBucket_rollup fullDay create_fullDay (fun b H => H)); [| exact Hr].
    eapply updated_fullDay; eassumption.
Qed.

End Totality.

(** ** Conversations without a creation timestamp *)



Lemma inRange_le (z : Z) : z <= 8640000000000000 -> (inject_Z z <= 8.64e15)%Q.
Proof.
  intros H. apply Qle_trans with (inject_Z 8640000000000000).
  - rewrite <- Zle_Qle. exact H.
  - vm_compute. discriminate.
Qed.




Lemma everyBucket_emptyAggregator (P : BucketWithHours.t -> Prop) :
  everyBucket P emptyAggregator.
Proof. intros dayKey d Hd. cbn in Hd. rewrite lookup_empty in Hd. discriminate. Qed.


Section MissingTimestamp.

Variable encode : string -> Z.
Variable JSON_stringify : json -> string.



End MissingTimestamp.


(** ** Tearing the worker down *)

Lemma settle_other (p q : nat) (outcome : Worker.promise) (ps : gmap nat Worker.promise) :
  q <> p -> Worker.settle q outcome ps !! p = ps !! p.
Proof.
  intros Hq. unfold Worker.settle.
  destruct (ps !! q) as [[| n |] |]; try reflexivity.
  apply lookup_insert_ne. exact Hq.
Qed.

Lemma attemptPostMessage_orphaned p requestId w text postThrows st :
  requestId <> p -> orphaned p st ->
  orphaned p (Worker.attemptPostMessage requestId w text postThrows st).
Proof.
  intros Hr (Hp & Hres & Hrej & Ht & Hn). unfold Worker.attemptPostMessage.
  destruct (Worker.workerReady st); [destruct postThrows |]; unfold orphaned; cbn.
  - rewrite settle_other by exact Hr. repeat split; try assumption.
    + intros k q Hk. apply lookup_delete_Some in Hk as [_ Hk]. eauto.
    + intros k q Hk. apply lookup_delete_Some in Hk as [_ Hk]. eauto.
  - repeat split; assumption.
  - repeat split; try assumption. apply Forall_app. split; [exact Ht |].
    repeat constructor. exact Hr.
Qed.

Lemma onerror_orphaned p st : orphaned p st -> orphaned p (Worker.onerror st).
Proof.
  intros (Hp & Hres & Hrej & Ht & Hn). unfold Worker.onerror, orphaned; cbn.
  split; [| repeat split; try assumption; intros k q Hk; rewrite lookup_empty in Hk;
            discriminate].
  revert Hrej.
  apply (map_fold_weak_ind
           (fun ps (m : gmap nat nat) =>
              (forall k q, m !! k = Some q -> q <> p) -> ps !! p = Some Worker.Pending)).
  - intros _. exact Hp.
  - intros k q m ps Hk IH Hall. rewrite settle_other.
    + apply IH. intros k' q' Hk'. apply (Hall k' q').
      rewrite lookup_insert_ne; [exact Hk' | intros ->; congruence].
    + apply (Hall k q), lookup_insert_eq.
Qed.

Lemma step_orphaned p st e : orphaned p st -> orphaned p (Worker.step st e).
Proof.
  intros Ho. destruct e as [text postThrows | data | | k postThrows |]; cbn.
  - (* countTextTokens *)
    unfold Worker.countTextTokens. destruct (String.eqb text ""); [exact Ho |].
    destruct Ho as (Hp & Hres & Hrej & Ht & Hn).
    assert (Hnext : forall st', Worker.initTokenizerWorker st = st' ->
              Worker.nextRequestId (fst st') = Worker.nextRequestId st /\
              Worker.pendingRequests (fst st') = Worker.pendingRequests st /\
              Worker.errorCallbacks (fst st') = Worker.errorCallbacks st /\
              Worker.promises (fst st') = Worker.promises st /\
              Worker.timers (fst st') = Worker.timers st).
    { intros st' <-. unfold Worker.initTokenizerWorker.
      destruct (Worker.worker st); cbn; auto. }
    destruct (Worker.initTokenizerWorker st) as [st1 w] eqn:Hinit.
    destruct (Hnext _ eq_refl) as (En & Ep & Ee & Epr & Et). cbn [fst] in *.
    apply attemptPostMessage_orphaned; [lia |].
    unfold orphaned; cbn. rewrite En, Ep, Ee, Epr, Et.
    split; [rewrite lookup_insert_ne by lia; exact Hp |].
    split; [| split; [| split; [exact Ht | lia]]].
    + intros k q Hk. rewrite lookup_insert in Hk. case_decide; [| eauto].
      injection Hk as <-. lia.
    + intros k q Hk. rewrite lookup_insert in Hk. case_decide; [| eauto].
      injection Hk as <-. lia.
  - (* onmessage *)
    destruct Ho as (Hp & Hres & Hrej & Ht & Hn).
    destruct data as [| id count error fallbackUsed]; cbn.
    + unfold orphaned; cbn. auto.
    + destruct (Worker.pendingRequests st !! id) as [resolve |] eqn:Hres';
        [| unfold orphaned; auto].
      destruct (Worker.errorCallbacks st !! id) as [reject |] eqn:Hrej';
        [| unfold orphaned; auto].
      unfold orphaned; cbn.
      split; [| split; [| split; [| split; assumption]]].
      * destruct error; [destruct fallbackUsed |]; destruct count;
          rewrite settle_other; eauto.
      * intros k q Hk. apply lookup_delete_Some in Hk as [_ Hk]. eauto.
      * intros k q Hk. apply lookup_delete_Some in Hk as [_ Hk]. eauto.
  - apply onerror_orphaned, Ho.
  - (* a retry fires *)
    unfold Worker.timeout.
    destruct (Worker.timers st !! k) as [[[requestId w] text] |] eqn:Hk; [| exact Ho].
    destruct Ho as (Hp & Hres & Hrej & Ht & Hn).
    apply attemptPostMessage_orphaned.
    + exact (proj1 (Forall_lookup _ _) Ht k _ Hk).
    + unfold orphaned; cbn. repeat split; try assumption.
      apply Forall_delete, Ht.
  - (* terminateTokenizerWorker *)
    destruct Ho as (Hp & Hres & Hrej & Ht & Hn). unfold Worker.terminateTokenizerWorker.
    destruct (Worker.worker st); unfold orphaned; cbn; [| auto].
    repeat split; try assumption; intros k q Hk; rewrite lookup_empty in Hk; discriminate.
Qed.

Lemma run_orphaned p events st : orphaned p st -> orphaned p (Worker.run events st).
Proof.
  unfold Worker.run. revert st. induction events as [| e events IH]; intros st Ho; cbn.
  - exact Ho.
  - apply IH, step_orphaned, Ho.
Qed.

(** What the teardown does to any state with a live worker. *)
Lemma terminate_clears (st : Worker.state) :
  is_Some (Worker.worker st) ->
  Worker.worker (Worker.terminateTokenizerWorker st) = None /\
  Worker.workerReady (Worker.terminateTokenizerWorker st) = false /\
  Worker.pendingRequests (Worker.terminateTokenizerWorker st) = ∅ /\
  Worker.errorCallbacks (Worker.terminateTokenizerWorker st) = ∅ /\
  Worker.promises (Worker.terminateTokenizerWorker st) = Worker.promises st.
Proof.
  intros [w Hw]. unfold Worker.terminateTokenizerWorker. rewrite Hw. cbn. auto.
Qed.

(** A response settles the promise of its request, whichever way. *)
Example response_resolves :
  Worker.promises
    (Worker.onmessage (Worker.Response 0 (Some 1) false false) outstanding) !! 0%nat
  = Some (Worker.Fulfilled 1) /\
  Worker.promises
    (Worker.onmessage (Worker.Response 0 (Some 1) true true) outstanding) !! 0%nat
  = Some (Worker.Fulfilled 1) /\
  Worker.promises
    (Worker.onmessage (Worker.Response 0 None true false) outstanding) !! 0%nat
  = Some Worker.Rejected.
Proof. repeat split; vm_compute; reflexivity. Qed.

Lemma tornDown_orphaned : orphaned 0 tornDown.
Proof.
  unfold orphaned. split; [vm_compute; reflexivity |].
  split; [intros k q Hk; cbn in Hk; rewrite lookup_empty in Hk; discriminate |].
  split; [intros k q Hk; cbn in Hk; rewrite lookup_empty in Hk; discriminate |].
  split; [vm_compute; constructor | vm_compute; lia].
Qed.

(** C9, on the code.  With one request in flight, the teardown cancels
    the worker and clears the pending state, but calls no reject
    callback: the promise of the request is still pending afterwards
    and stays pending under every later sequence of calls, worker
    messages, worker errors, retries and teardowns.  The worker's
    error handler, in the same state, does reject it. *)
Theorem terminate_leaves_request_pending :
  Worker.promises outstanding !! 0%nat = Some Worker.Pending /\
  Worker.pendingRequests outstanding !! 0%nat = Some 0%nat /\
  Worker.worker tornDown = None /\
  Worker.workerReady tornDown = false /\
  Worker.pendingRequests tornDown = ∅ /\
  Worker.errorCallbacks tornDown = ∅ /\
  Worker.promises tornDown !! 0%nat = Some Worker.Pending /\
  (forall events, Worker.promises (Worker.run events tornDown) !! 0%nat = Some Worker.Pending) /\
  Worker.promises (Worker.onerror outstanding) !! 0%nat = Some Worker.Rejected.
Proof.
  split; [vm_compute; reflexivity |]. split; [vm_compute; reflexivity |].
  assert (Hw : is_Some (Worker.worker outstanding)) by (vm_compute; eauto).
  destruct (terminate_clears outstanding Hw) as (H1 & H2 & H3 & H4 & H5).
  fold tornDown in H1, H2, H3, H4, H5.
  split; [exact H1 |]. split; [exact H2 |]. split; [exact H3 |]. split; [exact H4 |].
  split; [exact (proj1 tornDown_orphaned) |].
  split; [| vm_compute; reflexivity].
  intros events. exact (proj1 (run_orphaned 0 events tornDown tornDown_orphaned)).
Qed.

(** * Further properties *)

(** ** Errors and footprint of a usage update *)

Lemma addToHour_fails hours hour i o c :
  ~ validHour hour -> length hours = 24%nat -> addToHour hours hour i o c = Throw TypeError.
Proof.
  intros Hh Hl. unfold addToHour, slot. destruct hour as [z |]; [| reflexivity].
  cbn in Hh. destruct (Z.leb_spec 0 z); [| reflexivity].
  rewrite (lookup_ge_None_2 hours (Z.to_nat z)) by lia. reflexivity.
Qed.

Lemma update_fails costs a dayKey hour slug i o :
  everyBucket fullDay a -> ~ validHour hour ->
  updateAggregatorUsage costs a dayKey hour slug i o = Throw TypeError.
Proof.
  intros Ha Hh. unfold updateAggregatorUsage.
  fold (dayBucketOf a dayKey). fold (modelTotal a dayKey slug).
  rewrite (addToHour_fails (BucketWithHours.hours (modelTotal a dayKey slug)));
    [reflexivity | exact Hh |].
  apply (everyBucket_model fullDay create_fullDay), Ha.
Qed.



Lemma addToHour_elsewhere hours hour i o c hs (n : nat) :
  addToHour hours hour i o c = Ok hs -> hour <> Int (Z.of_nat n) -> hs !! n = hours !! n.
Proof.
  intros Hadd Hn. destruct (addToHour_Ok _ _ _ _ _ _ Hadd) as (k & h & Hs & _ & ->).
  apply list_lookup_insert_ne. intros ->. apply Hn.
  unfold slot in Hs. destruct hour as [z |]; [| discriminate].
  destruct (Z.leb_spec 0 z); [| discriminate].
  destruct (hours !! Z.to_nat z); [| discriminate].
  cbn in Hs. injection Hs as <- _. f_equal. lia.
Qed.

(** A usage update touches the bucket of its day only, there the total
    and the bucket of its model only, and in their hours arrays the slot
    of its hour only; the other fields of the aggregator are left as
    they were. *)
Theorem usage_update_footprint costs a dayKey hour slug i o a' :
  updateAggregatorUsage costs a dayKey hour slug i o = Ok a' ->
  (forall d, d <> dayKey -> Aggregator.usageByDay a' !! d = Aggregator.usageByDay a !! d) /\
  (forall s, s <> slug ->
     DayBucket.models (dayBucketOf a' dayKey) !! s = DayBucket.models (dayBucketOf a dayKey) !! s) /\
  (forall n : nat, hour <> Int (Z.of_nat n) ->
     BucketWithHours.hours (dayTotal a' dayKey) !! n
       = BucketWithHours.hours (dayTotal a dayKey) !! n /\
     BucketWithHours.hours (modelTotal a' dayKey slug) !! n
       = BucketWithHours.hours (modelTotal a dayKey slug) !! n) /\
  Aggregator.startDate a' = Aggregator.startDate a /\
  Aggregator.endDate a' = Aggregator.endDate a /\
  Aggregator.totalCostAllModels a' = Aggregator.totalCostAllModels a /\
  Aggregator.allModelSlugs a' = Aggregator.allModelSlugs a.
Proof.
  intros Hup.
  split; [intros d Hd; eapply dayBucketOf_update; eassumption |].
  destruct (dayTotal_update _ _ _ _ _ _ _ _ Hup) as (th & Ht & Et).
  destruct (modelTotal_update _ _ _ _ _ _ _ _ Hup) as (mh & Hm & Em).
  destruct (updateAggregatorUsage_Ok _ _ _ _ _ _ _ _ Hup) as (mh' & th' & _ & _ & Ea).
  split.
  { intros s Hs. rewrite Ea. unfold dayBucketOf at 1.
    rewrite usageByDay_set, lookup_insert_eq. cbn. apply lookup_insert_ne. congruence. }
  split.
  { intros n Hn. rewrite Et, Em. cbn. split; eapply addToHour_elsewhere; eassumption. }
  rewrite Ea. cbn. auto.
Qed.

Lemma usage_update_footprint_witness :
  updateAggregatorUsage MODEL_COSTS emptyAggregator "2024-01-01" (Int 3) "gpt-4" 2 1
    = Ok afterOneUpdate /\
  Aggregator.usageByDay afterOneUpdate !! "2024-01-02"
    = Aggregator.usageByDay emptyAggregator !! "2024-01-02".
Proof.
  assert (H : updateAggregatorUsage MODEL_COSTS emptyAggregator "2024-01-01" (Int 3) "gpt-4" 2 1
              = Ok afterOneUpdate) by (vm_compute; reflexivity).
  split; [exact H |].
  apply (proj1 (usage_update_footprint _ _ _ _ _ _ _ _ H)). discriminate.
Defined.

(** ** The models of a day add up to its total *)

Lemma sumModels_insert (f : BucketWithHours.t -> Z) (models : gmap string BucketWithHours.t)
    (slug : string) (b : BucketWithHours.t) :
  sumModels f (<[slug := b]> models)
  = sumModels f models
    - match models !! slug with Some b0 => f b0 | None => 0 end
    + f b.
Proof.
  unfold sumModels.
  assert (Hcomm : forall (m : gmap string BucketWithHours.t) (j1 j2 : string)
            (z1 z2 : BucketWithHours.t) (y : Z),
            j1 <> j2 -> m !! j1 = Some z1 -> m !! j2 = Some z2 ->
            f z1 + (f z2 + y) = f z2 + (f z1 + y)) by (intros; lia).
  destruct (models !! slug) as [b0 |] eqn:Hl; cbn.
  - rewrite <- insert_delete_eq.
    rewrite map_fold_insert_L; [| apply Hcomm | apply lookup_delete_eq].
    rewrite (map_fold_delete_L _ _ slug b0 models); [lia | apply Hcomm | exact Hl].
  - rewrite map_fold_insert_L; [lia | apply Hcomm | exact Hl].
Qed.

Lemma sumModels_bump (f : BucketWithHours.t -> Z) (models : gmap string BucketWithHours.t)
    (l : list string) :
  (forall b, f (bumpConversationCount b) = f b) -> f createBucketWithHours = 0 ->
  sumModels f (foldr bumpModel models l) = sumModels f models.
Proof.
  intros Hb Hc. induction l as [| x l IH]; cbn; [reflexivity |].
  unfold bumpModel at 1. rewrite sumModels_insert, Hb, IH.
  destruct (foldr bumpModel models l !! x); cbn; lia.
Qed.

Lemma create_modelsAddUp : modelsAddUp createDayBucket.
Proof. repeat split. Qed.

Lemma update_modelsAddUp costs a dayKey hour slug i o a' :
  everyDay modelsAddUp a ->
  updateAggregatorUsage costs a dayKey hour slug i o = Ok a' ->
  everyDay modelsAddUp a'.
Proof.
  intros Ha Hup.
  destruct (updateAggregatorUsage_Ok _ _ _ _ _ _ _ _ Hup) as (mh & th & _ & _ & ->).
  intros d b Hb. rewrite usageByDay_set, lookup_insert in Hb. case_decide as Hd.
  - injection Hb as <-.
    assert (Hday : modelsAddUp (dayBucketOf a dayKey)).
    { unfold dayBucketOf. destruct (Aggregator.usageByDay a !! dayKey) as [b0 |] eqn:Hl; cbn.
      - exact (Ha _ _ Hl).
      - exact create_modelsAddUp. }
    destruct Hday as (Hi & Ho & Hm).
    unfold modelsAddUp; cbn. rewrite !sumModels_insert.
    unfold modelTotal, dayTotal.
    destruct (DayBucket.models (dayBucketOf a dayKey) !! slug); cbn; repeat split; lia.
  - exact (Ha _ _ Hb).
Qed.

Lemma rollup_modelsAddUp dayKey used a a' :
  everyDay modelsAddUp a -> rollup dayKey used a = Ok a' -> everyDay modelsAddUp a'.
Proof.
  intros Ha. unfold rollup.
  destruct (negb (dayKey =? "unknown-day")%string && (0 <? Z.of_nat (size used)))%bool;
    [| intros [= <-]; exact Ha].
  destruct (Aggregator.usageByDay a !! dayKey) as [d |] eqn:Hd; [| discriminate].
  intros [= <-]. intros day' d' Hd'. rewrite usageByDay_set, lookup_insert in Hd'.
  case_decide as Hday; [| exact (Ha _ _ Hd')].
  injection Hd' as <-. destruct (Ha _ _ Hd) as (Hi & Ho & Hm).
  unfold modelsAddUp; cbn. rewrite !sumModels_bump by reflexivity. auto.
Qed.

Lemma ensure_modelsAddUp dayKey a :
  everyDay modelsAddUp a -> everyDay modelsAddUp (ensureDay dayKey a).
Proof.
  intros Ha. unfold ensureDay.
  destruct (Aggregator.usageByDay a !! dayKey) as [d |] eqn:Hd; [exact Ha |].
  destruct (negb (dayKey =? "unknown-day")%string); [| exact Ha].
  intros day' d' Hd'. rewrite usageByDay_set, lookup_insert in Hd'.
  case_decide as Hday; [| exact (Ha _ _ Hd')].
  injection Hd' as <-. exact create_modelsAddUp.
Qed.

(** In every aggregator reachable from the empty one by usage updates,
    conversation rollups and day-bucket creations, the per-model buckets
    of each day add up to the day's total, for input_tokens,
    output_tokens and message_count. *)
Theorem models_add_up costs a : reachable costs a -> everyDay modelsAddUp a.
Proof.
  induction 1 as [| a dayKey hour slug i o a' _ IH Hup | a dayKey used a' _ IH Hr
                  | a dayKey _ IH].
  - intros dayKey d Hd. cbn in Hd. rewrite lookup_empty in Hd. discriminate.
  - eapply update_modelsAddUp; eassumption.
  - eapply rollup_modelsAddUp; eassumption.
  - apply ensure_modelsAddUp, IH.
Qed.

Lemma models_add_up_witness :
  reachable MODEL_COSTS sampleAggregator /\ everyDay modelsAddUp sampleAggregator.
Proof.
  split; [exact sample_reachable |].
  exact (models_add_up MODEL_COSTS sampleAggregator sample_reachable).
Defined.

(** ** What the accumulator bills *)

Lemma update_totals costs a dayKey hour slug i o a' :
  updateAggregatorUsage costs a dayKey hour slug i o = Ok a' ->
  BucketWithHours.input_tokens (dayTotal a' dayKey)
    = BucketWithHours.input_tokens (dayTotal a dayKey) + i /\
  BucketWithHours.output_tokens (dayTotal a' dayKey)
    = BucketWithHours.output_tokens (dayTotal a dayKey) + o /\
  BucketWithHours.message_count (dayTotal a' dayKey)
    = BucketWithHours.message_count (dayTotal a dayKey) + 1.
Proof.
  intros Hup. destruct (dayTotal_update _ _ _ _ _ _ _ _ Hup) as (th & _ & ->).
  cbn. auto.
Qed.

Lemma flatStep_totals costs dayKey hour st m st' :
  flatStep costs dayKey hour st m = Ok st' ->
  BucketWithHours.message_count (dayTotal (agg st') dayKey)
    = BucketWithHours.message_count (dayTotal (agg st) dayKey) + (if commits m then 1 else 0) /\
  BucketWithHours.output_tokens (dayTotal (agg st') dayKey) + rollingOutputTokens st'
    = BucketWithHours.output_tokens (dayTotal (agg st) dayKey) + rollingOutputTokens st
      + assistantOutput m.
Proof.
  unfold flatStep, commits, assistantOutput.
  fold (roleOf m) (contentOf m) (searchOf m) (outputOf m) (slugOf m).
  destruct (FlatMsg.isReasoningRecap m); cbn.
  { intros [= <-]. split; lia. }
  destruct (isContextRole (roleOf m)) eqn:Hrole.
  { rewrite (contextRole_not_assistant _ Hrole). intros [= <-]. cbn. split; lia. }
  destruct (String.eqb (roleOf m) "assistant"); cbn.
  2:{ intros [= <-]. cbn. split; lia. }
  destruct (FlatMsg.isFinalMessage m).
  2:{ intros [= <-]. cbn. split; lia. }
  destruct (updateAggregatorUsage costs (agg st) dayKey hour (slugOf m) _ _) as [a' |] eqn:Hup;
    [| discriminate].
  cbn. intros [= <-]. cbn. destruct (update_totals _ _ _ _ _ _ _ _ Hup) as (_ & Ho & Hm).
  split; lia.
Qed.

Lemma flatLoop_totals costs dayKey hour msgs st st' :
  forM (flatStep costs dayKey hour) msgs st = Ok st' ->
  BucketWithHours.message_count (dayTotal (agg st') dayKey)
    = BucketWithHours.message_count (dayTotal (agg st) dayKey) + countWhere commits msgs /\
  BucketWithHours.output_tokens (dayTotal (agg st') dayKey) + rollingOutputTokens st'
    = BucketWithHours.output_tokens (dayTotal (agg st) dayKey) + rollingOutputTokens st
      + sumZ (assistantOutput <$> msgs).
Proof.
  revert st. induction msgs as [| m msgs IH]; intros st; cbn [forM].
  - intros [= <-]. unfold countWhere. cbn. split; lia.
  - rewrite countWhere_cons, fmap_cons, sumZ_cons.
    destruct (flatStep costs dayKey hour st m) as [st1 |] eqn:H1; [| discriminate].
    cbn. intros H2. destruct (flatStep_totals _ _ _ _ _ _ H1) as [M1 O1].
    destruct (IH _ H2) as [M2 O2]. split; lia.
Qed.

(** The accumulator raises the day's message_count by one for each
    assistant entry that is marked final and is not a recap, and by
    nothing else: user, system and tool entries and unfinished
    assistant entries are not counted as messages. *)
Theorem flat_message_count costs dayKey hour msgs a st :
  flatRun costs dayKey hour msgs a = Ok st ->
  BucketWithHours.message_count (dayTotal (agg st) dayKey)
    = BucketWithHours.message_count (dayTotal a dayKey) + countWhere commits msgs.
Proof. intros H. exact (proj1 (flatLoop_totals _ _ _ _ _ _ H)). Qed.

Lemma twoTurns_run :
  flatRun MODEL_COSTS "2024-01-01" (Int 0) (twoTurns (Some "gpt-4")) emptyAggregator
  = Ok twoTurnsState.
Proof. vm_compute. reflexivity. Qed.

Lemma flat_message_count_witness :
  flatRun MODEL_COSTS "2024-01-01" (Int 0) (twoTurns (Some "gpt-4")) emptyAggregator
    = Ok twoTurnsState /\
  BucketWithHours.message_count (dayTotal (agg twoTurnsState) "2024-01-01")
    = BucketWithHours.message_count (dayTotal emptyAggregator "2024-01-01")
      + countWhere commits (twoTurns (Some "gpt-4")).
Proof.
  split; [exact twoTurns_run |].
  exact (flat_message_count _ _ _ _ _ _ twoTurns_run).
Defined.

(** Output tokens are billed once: the output tokens recorded on the
    day plus those still pending when the loop ends are the output
    tokens of the assistant entries that are not recaps.  The output of
    assistant entries after the last final one is never recorded. *)
Theorem flat_output_conservation costs dayKey hour msgs a st :
  flatRun costs dayKey hour msgs a = Ok st ->
  BucketWithHours.output_tokens (dayTotal (agg st) dayKey) + rollingOutputTokens st
    = BucketWithHours.output_tokens (dayTotal a dayKey) + sumZ (assistantOutput <$> msgs).
Proof.
  intros H. pose proof (proj2 (flatLoop_totals _ _ _ _ _ _ H)) as Ho.
  cbn in Ho. lia.
Qed.

Lemma flat_output_conservation_witness :
  flatRun MODEL_COSTS "2024-01-01" (Int 0) (twoTurns (Some "gpt-4")) emptyAggregator
    = Ok twoTurnsState /\
  BucketWithHours.output_tokens (dayTotal (agg twoTurnsState) "2024-01-01")
    + rollingOutputTokens twoTurnsState
    = BucketWithHours.output_tokens (dayTotal emptyAggregator "2024-01-01")
      + sumZ (assistantOutput <$> twoTurns (Some "gpt-4")).
Proof.
  split; [exact twoTurns_run |].
  exact (flat_output_conservation _ _ _ _ _ _ twoTurns_run).
Defined.

(** ** Image generations *)

Lemma countImages_existsb (parts : list Part.t) :
  (0 <? countImages parts) = existsb isImagePointer parts.
Proof.
  unfold countImages. induction parts as [| p parts IH]; [reflexivity |].
  cbn. destruct (isImagePointer p); cbn [length orb].
  - apply Z.ltb_lt. lia.
  - exact IH.
Qed.

Lemma imageGenerationUsage_eq costs dayKey hour msg a used :
  let authorName := default "" (Message.author msg ≫= Author.name) in
  let n := countImages (default [] (Message.content msg ≫= Content.parts)) in
  imageGenerationUsage costs dayKey hour msg (a, used) =
    if 0 <? n then
      if String.eqb authorName "dalle.text2im" then
        a1 ← updateAggregatorUsage costs a dayKey hour "dalle-3" 0 n;
        a2 ← updateAggregatorUsage costs a1 dayKey hour "gpt-image-1" 0 n;
        Ok (a2, {[ "gpt-image-1" ]} ∪ ({[ "dalle-3" ]} ∪ used))
      else
        a2 ← updateAggregatorUsage costs a dayKey hour "gpt-image-1" 0 n;
        Ok (a2, {[ "gpt-image-1" ]} ∪ used)
    else Ok (a, used).
Proof.
  intros authorName n. unfold imageGenerationUsage. cbn [fst snd].
  fold authorName. fold n.
  set (parts := default [] (Message.content msg ≫= Content.parts)).
  set (hasAsync := (_ || _ || _ || _ || _)%bool).
  assert (Hasync : (0 <? n) = true -> hasAsync = true).
  { intros Hn. subst hasAsync. rewrite <- (countImages_existsb parts).
    change (0 <? countImages parts) with (0 <? n). rewrite Hn.
    rewrite orb_true_r. reflexivity. }
  destruct (0 <? n).
  - rewrite (Hasync eq_refl).
    destruct (String.eqb authorName "dalle.text2im"); cbn; [| reflexivity].
    destruct (updateAggregatorUsage costs a dayKey hour "dalle-3" 0 n) as [a1 |]; reflexivity.
  - destruct (String.eqb authorName "dalle.text2im"), hasAsync; reflexivity.
Qed.

(** A tool message records an image generation exactly when its parts
    hold at least one image asset pointer; the metadata flags make no
    difference.  The [n] images are then recorded as usage of
    gpt-image-1, and, when the author is dalle.text2im, as usage of
    dalle-3 before that: the images of a DALL-E message are recorded
    under both models. *)
Theorem image_generation_usage costs dayKey hour msg a used :
  let authorName := default "" (Message.author msg ≫= Author.name) in
  let n := countImages (default [] (Message.content msg ≫= Content.parts)) in
  imageGenerationUsage costs dayKey hour msg (a, used) =
    if 0 <? n then
      if String.eqb authorName "dalle.text2im" then
        a1 ← updateAggregatorUsage costs a dayKey hour "dalle-3" 0 n;
        a2 ← updateAggregatorUsage costs a1 dayKey hour "gpt-image-1" 0 n;
        Ok (a2, {[ "gpt-image-1" ]} ∪ ({[ "dalle-3" ]} ∪ used))
      else
        a2 ← updateAggregatorUsage costs a dayKey hour "gpt-image-1" 0 n;
        Ok (a2, {[ "gpt-image-1" ]} ∪ used)
    else Ok (a, used).
Proof. apply imageGenerationUsage_eq. Qed.

(** The two images of a DALL-E message are recorded twice. *)
Example dalle_images_recorded_twice :
  (fun r => (BucketWithHours.output_tokens (modelTotal (fst r) "2024-01-01" "dalle-3"),
             BucketWithHours.output_tokens (modelTotal (fst r) "2024-01-01" "gpt-image-1"),
             BucketWithHours.output_tokens (dayTotal (fst r) "2024-01-01")))
    <$> okValue (imageGenerationUsage MODEL_COSTS "2024-01-01" (Int 0) dalleMessage
                   (emptyAggregator, ∅))
  = Some (2, 2, 4).
Proof. vm_compute. reflexivity. Qed.

(** ** The set of all model slugs *)

Lemma update_allModelSlugs costs a dayKey hour slug i o a' :
  updateAggregatorUsage costs a dayKey hour slug i o = Ok a' ->
  Aggregator.allModelSlugs a' = Aggregator.allModelSlugs a.
Proof.
  intros Hup.
  destruct (updateAggregatorUsage_Ok _ _ _ _ _ _ _ _ Hup) as (mh & th & _ & _ & ->).
  reflexivity.
Qed.

Lemma updated_allModelSlugs costs dayKey hour a a' :
  updated costs dayKey hour a a' -> Aggregator.allModelSlugs a' = Aggregator.allModelSlugs a.
Proof.
  induction 1 as [| a slug i o a' a'' Hup _ IH]; [reflexivity |].
  rewrite IH. eapply update_allModelSlugs. exact Hup.
Qed.

Lemma rollup_allModelSlugs dayKey used a a' :
  rollup dayKey used a = Ok a' -> Aggregator.allModelSlugs a' = Aggregator.allModelSlugs a.
Proof.
  unfold rollup. destruct (_ && _)%bool; [| intros [= <-]; reflexivity].
  destruct (Aggregator.usageByDay a !! dayKey); [| discriminate].
  intros [= <-]. reflexivity.
Qed.

Lemma ensureDay_allModelSlugs dayKey a :
  Aggregator.allModelSlugs (ensureDay dayKey a) = Aggregator.allModelSlugs a.
Proof.
  unfold ensureDay. destruct (Aggregator.usageByDay a !! dayKey); [reflexivity |].
  destruct (negb _); reflexivity.
Qed.

Lemma discoveredModels_known (msgs : list FlatMsg.t) : "unknown_model" ∉ discoveredModels msgs.
Proof.
  unfold discoveredModels.
  assert (H : forall found, "unknown_model" ∉ found -> "unknown_model" ∉ foldl discover found msgs).
  { induction msgs as [| m msgs IH]; intros found Hf; cbn; [exact Hf |].
    apply IH. unfold discover.
    destruct (negb (FlatMsg.isReasoningRecap m) && (roleOf m =? "assistant")%string)%bool;
      cbn; [| exact Hf].
    destruct (String.eqb_spec (slugOf m) "unknown_model") as [E | E]; cbn; [exact Hf |].
    set_solver. }
  apply H. set_solver.
Qed.

Lemma walkModels_images (mapping : list (string * Node.t)) :
  walkModels mapping ⊆ {[ "dalle-3"; "gpt-image-1" ]}.
Proof.
  induction mapping as [| entry mapping IH]; cbn; [set_solver |].
  assert (nodeModels entry ⊆ {[ "dalle-3"; "gpt-image-1" ]}); [| set_solver].
  unfold nodeModels. destruct (Node.message (snd entry)) as [msg |]; [| set_solver].
  destruct (String.eqb _ "tool"); [| set_solver].
  unfold imageModels.
  destruct (_ && _)%bool, (_ && _)%bool; set_solver.
Qed.

Section AllModelSlugs.

Variable encode : string -> Z.
Variable JSON_stringify : json -> string.

Lemma processConversation_allModelSlugs now costs c a a' used :
  processConversation encode JSON_stringify now costs c a = Ok (a', used) ->
  Aggregator.allModelSlugs a' = Aggregator.allModelSlugs a /\
  used = conversationModels encode JSON_stringify c.
Proof.
  intros H. destruct (processConversation_Ok _ _ _ _ _ _ _ _ H) as (a2 & U & R & Hu).
  split; [| exact Hu].
  rewrite (rollup_allModelSlugs _ _ _ _ R), (updated_allModelSlugs _ _ _ _ _ U).
  apply ensureDay_allModelSlugs.
Qed.

Lemma conversationLoop_allModelSlugs now costs data a a' :
  forM (conversationStep encode JSON_stringify now costs) data a = Ok a' ->
  Aggregator.allModelSlugs a'
  = (fun all => ⋃ (conversationModels encode JSON_stringify <$> conversationsOf data) ∪ all)
      <$> Aggregator.allModelSlugs a.
Proof.
  revert a. induction data as [| entry data IH]; intros a; cbn [forM].
  - intros [= <-]. cbn. destruct (Aggregator.allModelSlugs a) as [all |]; cbn; [| reflexivity].
    f_equal. set_solver.
  - rewrite conversationsOf_cons. destruct entry as [c |]; cbn -[processConversation].
    + destruct (processConversation encode JSON_stringify now costs c a)
        as [[a1 used] |] eqn:Hc; cbn; [| discriminate].
      intros Hrest. rewrite (IH _ Hrest). cbn.
      destruct (processConversation_allModelSlugs _ _ _ _ _ _ Hc) as [-> ->].
      destruct (Aggregator.allModelSlugs a) as [all |]; cbn; [| reflexivity].
      f_equal. set_solver.
    + apply IH.
Qed.

Lemma conversationModels_known (c : Conversation.t) :
  "unknown_model" ∉ conversationModels encode JSON_stringify c.
Proof.
  unfold conversationModels. destruct (Conversation.mapping c) as [mapping |]; [| set_solver].
  pose proof (discoveredModels_known (flattenAll encode JSON_stringify mapping)).
  pose proof (walkModels_images mapping). set_solver.
Qed.

(** The set allModelSlugs of a run is the union of the discovered-model
    sets of its conversations: the real slugs of their non-recap
    assistant entries and the image models recorded for their tool
    messages.  The placeholder "unknown_model" is never in it, although
    usage is recorded under that key. *)
Theorem all_model_slugs now costs data a :
  processConversations encode JSON_stringify now costs data = Ok a ->
  exists slugs,
    Aggregator.allModelSlugs a = Some slugs /\
    (forall slug, slug ∈ slugs <->
       exists c, c ∈ conversationsOf data /\ slug ∈ conversationModels encode JSON_stringify c) /\
    "unknown_model" ∉ slugs.
Proof.
  unfold processConversations. destruct (dateRange data) as [lo hi].
  set (a0 := match lo with Some _ => _ | None => _ end).
  assert (H0 : Aggregator.allModelSlugs a0 = Some ∅) by (subst a0; destruct lo; reflexivity).
  destruct (forM _ data a0) as [a1 |] eqn:Hloop; [| discriminate].
  cbn. intros [= <-]. cbn.
  rewrite (conversationLoop_allModelSlugs _ _ _ _ _ Hloop), H0. cbn.
  eexists. split; [reflexivity |].
  assert (Hin : forall slug,
    slug ∈ ⋃ (conversationModels encode JSON_stringify <$> conversationsOf data) ∪ (∅ : gset string)
    <-> exists c, c ∈ conversationsOf data /\ slug ∈ conversationModels encode JSON_stringify c).
  { intros slug. rewrite elem_of_union, elem_of_union_list. split.
    - intros [(X & HX & Hs) | Hs]; [| set_solver].
      apply list_elem_of_fmap in HX as (c & -> & Hc). eauto.
    - intros (c & Hc & Hs). left. eexists. split; [| exact Hs].
      apply list_elem_of_fmap. eauto. }
  split; [exact Hin |].
  intros Hu. apply Hin in Hu as (c & _ & Hs). exact (conversationModels_known c Hs).
Qed.

End AllModelSlugs.

Lemma all_model_slugs_witness :
  run 0 sampleData = Ok sampleResult /\
  exists slugs, Aggregator.allModelSlugs sampleResult = Some slugs /\ "unknown_model" ∉ slugs.
Proof.
  assert (H : run 0 sampleData = Ok sampleResult) by (vm_compute; reflexivity).
  split; [exact H |].
  destruct (all_model_slugs perCharacter noBlob 0 MODEL_COSTS sampleData sampleResult H)
    as (slugs & Hs & _ & Hu).
  exists slugs. split; [exact Hs | exact Hu].
Defined.

(** ** Calendar dates *)

Lemma civil_doy (doe : Z) :
  0 <= doe <= 146096 ->
  let yoe := (doe - doe / 1460 + doe / 36524 - doe / 146096) / 365 in
  let doy := doe - (365 * yoe + yoe / 4 - yoe / 100) in
  0 <= yoe <= 399 /\ 0 <= doy <= 365.
Proof.
  intros Hdoe yoe doy. subst doy yoe. cbv zeta.
  Z.to_euclidean_division_equations. lia.
Qed.

Lemma civilFromDays_range (days : Z) :
  let '(y, m, d) := civilFromDays days in 1 <= m <= 12 /\ 1 <= d <= 31.
Proof.
  unfold civilFromDays.
  set (z := days + 719468).
  set (era := z / 146097).
  set (doe := z - era * 146097).
  assert (Hdoe : 0 <= doe <= 146096).
  { subst doe era. Z.to_euclidean_division_equations. lia. }
  destruct (civil_doy doe Hdoe) as [Hyoe Hdoy]. cbv zeta in Hyoe, Hdoy.
  set (yoe := (doe - doe / 1460 + doe / 36524 - doe / 146096) / 365) in *.
  set (doy := doe - (365 * yoe + yoe / 4 - yoe / 100)) in *.
  clearbody doy. clear Hyoe. clearbody yoe.
  destruct (Z.ltb_spec ((5 * doy + 2) / 153) 10);
    [destruct (Z.leb_spec ((5 * doy + 2) / 153 + 3) 2)
    | destruct (Z.leb_spec ((5 * doy + 2) / 153 - 9) 2)];
    Z.to_euclidean_division_equations; lia.
Qed.

Lemma daysFromCivil_civilFromDays (days : Z) : daysFromCivil (civilFromDays days) = days.
Proof.
  unfold civilFromDays.
  set (z := days + 719468).
  set (era := z / 146097).
  set (doe := z - era * 146097).
  assert (Hdoe : 0 <= doe <= 146096).
  { subst doe era. Z.to_euclidean_division_equations. lia. }
  destruct (civil_doy doe Hdoe) as [Hyoe Hdoy]. cbv zeta in Hyoe, Hdoy.
  set (yoe := (doe - doe / 1460 + doe / 36524 - doe / 146096) / 365) in *.
  set (doy := doe - (365 * yoe + yoe / 4 - yoe / 100)) in *.
  set (mp := (5 * doy + 2) / 153).
  assert (Hmp : 0 <= mp <= 11) by (subst mp; Z.to_euclidean_division_equations; lia).
  assert (Hz : z = era * 146097 + doe) by (subst doe; lia).
  assert (Hd : doe = 365 * yoe + yoe / 4 - yoe / 100 + doy) by (subst doy; lia).
  assert (Hday : (153 * mp + 2) / 5 + (doy - (153 * mp + 2) / 5 + 1) - 1 = doy) by lia.
  assert (Hera : (yoe + era * 400) / 400 = era)
    by (Z.to_euclidean_division_equations; lia).
  unfold daysFromCivil.
  destruct (Z.ltb_spec mp 10) as [H10 | H10].
  - destruct (Z.leb_spec (mp + 3) 2); [lia |].
    destruct (Z.leb_spec (mp + 3) 2); [lia |].
    destruct (Z.ltb_spec 2 (mp + 3)); [| lia].
    replace (mp + 3 - 3) with mp by lia.
    rewrite Hera, Hday. replace (yoe + era * 400 - era * 400) with yoe by lia. lia.
  - destruct (Z.leb_spec (mp - 9) 2); [| lia].
    destruct (Z.leb_spec (mp - 9) 2); [| lia].
    destruct (Z.ltb_spec 2 (mp - 9)); [lia |].
    replace (mp - 9 + 9) with mp by lia.
    replace (yoe + era * 400 + 1 - 1) with (yoe + era * 400) by lia.
    rewrite Hera, Hday. replace (yoe + era * 400 - era * 400) with yoe by lia. lia.
Qed.

(** ** Day keys *)

Lemma length_append (s t : string) :
  String.length (s +:+ t) = (String.length s + String.length t)%nat.
Proof.
  induction s as [| c s IH]; [reflexivity |].
  change (S (String.length (s +:+ t)) = S (String.length s + String.length t)).
  rewrite IH. reflexivity.
Qed.

Lemma append_inj_suffix (s1 s2 t1 t2 : string) :
  String.length t1 = String.length t2 -> s1 +:+ t1 = s2 +:+ t2 -> s1 = s2 /\ t1 = t2.
Proof.
  intros Hl. revert s2. induction s1 as [| c s1 IH]; intros [| c' s2] H.
  - auto.
  - change (t1 = String c' s2 +:+ t2) in H.
    apply (f_equal String.length) in H. rewrite length_append in H. cbn in H. lia.
  - change (String c s1 +:+ t1 = t2) in H.
    apply (f_equal String.length) in H. rewrite length_append in H. cbn in H. lia.
  - change (String c (s1 +:+ t1) = String c' (s2 +:+ t2)) in H.
    injection H as <- H. destruct (IH _ H) as [-> ->]. auto.
Qed.

Lemma padStart2_twoDigits (n : Z) : 0 <= n < 100 -> padStart2 (pretty n) = twoDigits n.
Proof.
  intros Hn.
  assert (Hall : forallb (fun k => String.eqb (padStart2 (pretty (Z.of_nat k)))
                                     (twoDigits (Z.of_nat k))) (seq 0 100) = true)
    by (vm_compute; reflexivity).
  rewrite forallb_forall in Hall.
  specialize (Hall (Z.to_nat n)). rewrite Z2Nat.id in Hall by lia.
  apply String.eqb_eq, Hall, in_seq. lia.
Qed.

Lemma twoDigits_inj (m n : Z) : 0 <= m < 100 -> 0 <= n < 100 -> twoDigits m = twoDigits n -> m = n.
Proof.
  intros Hm Hn H. unfold twoDigits in H. injection H as H1 H2.
  apply (f_equal nat_of_ascii) in H1, H2.
  rewrite !nat_ascii_embedding in H1, H2
    by (Z.to_euclidean_division_equations; lia).
  Z.to_euclidean_division_equations. lia.
Qed.

Lemma getDayKey_valid (unixTime : number) (ms : Z) :
  timeValue unixTime = Some ms ->
  getDayKey unixTime
  = pretty (fst (fst (civilFromDays (ms / msPerDay)))) +:+ "-"
    +:+ twoDigits (snd (fst (civilFromDays (ms / msPerDay)))) +:+ "-"
    +:+ twoDigits (snd (civilFromDays (ms / msPerDay))).
Proof.
  unfold timeValue, getDayKey. intros ->. cbn [getUTCFullYear getUTCMonth getUTCDate plusOne toString].
  pose proof (civilFromDays_range (ms / msPerDay)) as Hr.
  destruct (civilFromDays (ms / msPerDay)) as [[y m] d]. cbn [fst snd].
  replace (m - 1 + 1) with m by lia.
  rewrite !padStart2_twoDigits by lia. reflexivity.
Qed.

(** A timestamp whose [Date] is valid has an hour of the day from 0 to
    23 and a day key of the form year-MM-DD, with MM from 01 to 12 and DD
    from 01 to 31, both of two digits; a timestamp whose [Date] is
    invalid ([NaN], or beyond 8.64e15 milliseconds from the epoch) has
    the hour [NaN] and the day key "NaN-NaN-NaN". *)
Theorem timestamp_day_and_hour (unixTime : number) :
  match timeValue unixTime with
  | Some ms =>
      validHour (getHourOfDay unixTime) /\
      exists y m d,
        civilFromDays (ms / msPerDay) = (y, m, d) /\
        1 <= m <= 12 /\ 1 <= d <= 31 /\
        getDayKey unixTime = pretty y +:+ "-" +:+ twoDigits m +:+ "-" +:+ twoDigits d
  | None => getHourOfDay unixTime = NaN /\ getDayKey unixTime = "NaN-NaN-NaN"
  end.
Proof.
  destruct (timeValue unixTime) as [ms |] eqn:Ht.
  - split.
    + unfold timeValue in Ht. unfold getHourOfDay. rewrite Ht. cbn.
      apply Z.mod_pos_bound. reflexivity.
    + rewrite (getDayKey_valid _ _ Ht).
      pose proof (civilFromDays_range (ms / msPerDay)) as Hr.
      destruct (civilFromDays (ms / msPerDay)) as [[y m] d]. cbn [fst snd].
      exists y, m, d. split; [reflexivity |]. split; [lia |]. split; [lia | reflexivity].
  - unfold timeValue in Ht. unfold getHourOfDay, getDayKey. rewrite Ht. split; reflexivity.
Qed.

(** Two timestamps with valid dates have the same day key exactly when
    their time values fall on the same UTC day. *)
Theorem same_day_iff_same_key (u1 u2 : number) (ms1 ms2 : Z) :
  timeValue u1 = Some ms1 -> timeValue u2 = Some ms2 ->
  (getDayKey u1 = getDayKey u2 <-> ms1 / msPerDay = ms2 / msPerDay).
Proof.
  intros H1 H2. rewrite (getDayKey_valid _ _ H1), (getDayKey_valid _ _ H2).
  split; [| intros ->; reflexivity].
  pose proof (civilFromDays_range (ms1 / msPerDay)) as R1.
  pose proof (civilFromDays_range (ms2 / msPerDay)) as R2.
  pose proof (daysFromCivil_civilFromDays (ms1 / msPerDay)) as D1.
  pose proof (daysFromCivil_civilFromDays (ms2 / msPerDay)) as D2.
  destruct (civilFromDays (ms1 / msPerDay)) as [[y1 m1] d1].
  destruct (civilFromDays (ms2 / msPerDay)) as [[y2 m2] d2]. cbn [fst snd].
  intros H.
  apply (append_inj_suffix (pretty y1) (pretty y2)) in H as [Hy H]; [| reflexivity].
  apply (inj pretty) in Hy. apply (inj (String.append "-")) in H.
  apply append_inj_suffix in H as [Hm Hd]; [| reflexivity].
  apply (inj (String.append "-")) in Hd.
  apply twoDigits_inj in Hm; [| lia | lia]. apply twoDigits_inj in Hd; [| lia | lia].
  subst. congruence.
Qed.

Lemma same_day_iff_same_key_witness :
  timeValue (Some 0%Q) = Some 0 /\ timeValue (Some 86399.5%Q) = Some 86399500 /\
  (getDayKey (Some 0%Q) = getDayKey (Some 86399.5%Q) <-> 0 / msPerDay = 86399500 / msPerDay).
Proof.
  assert (H1 : timeValue (Some 0%Q) = Some 0) by (vm_compute; reflexivity).
  assert (H2 : timeValue (Some 86399.5%Q) = Some 86399500) by (vm_compute; reflexivity).
  split; [exact H1 |]. split; [exact H2 |].
  exact (same_day_iff_same_key _ _ _ _ H1 H2).
Defined.

(** ** Seconds and milliseconds *)

Lemma newDate_floor (q : Q) (lo hi : Z) :
  0 <= lo -> hi <= 8640000000000000 ->
  (inject_Z lo <= q)%Q -> (q <= inject_Z hi)%Q ->
  newDate (Some q) = Some (Qfloor q).
Proof.
  intros Hlo Hhi Hq1 Hq2. unfold newDate, Qabs_le, Qtrunc.
  assert (H0 : (0 <= q)%Q).
  { apply Qle_trans with (inject_Z lo); [| exact Hq1].
    change 0%Q with (inject_Z 0). rewrite <- Zle_Qle. exact Hlo. }
  assert (Hle : Qle_bool q 8.64e15 = true).
  { apply Qle_bool_iff. apply Qle_trans with (inject_Z hi); [exact Hq2 |].
    apply inRange_le, Hhi. }
  assert (Hge : Qle_bool (Qopp 8.64e15) q = true).
  { apply Qle_bool_iff. apply Qle_trans with 0%Q; [| exact H0]. vm_compute. discriminate. }
  rewrite Hle, Hge. cbn [andb].
  rewrite (proj2 (Qle_bool_iff 0 q) H0). reflexivity.
Qed.

Lemma inject_thousand (n : Z) : (inject_Z n * 1000 == inject_Z (n * 1000))%Q.
Proof. rewrite inject_Z_mult. reflexivity. Qed.

Lemma floor_thousand (t : Q) :
  Qfloor t * 1000 <= Qfloor (t * 1000) < Qfloor t * 1000 + 1000.
Proof.
  split.
  - rewrite <- (Qfloor_Z (Qfloor t * 1000)). apply Qfloor_resp_le.
    rewrite inject_Z_mult. apply Qmult_le_compat_r; [apply Qfloor_le |].
    vm_compute. discriminate.
  - replace (Qfloor t * 1000 + 1000) with ((Qfloor t + 1) * 1000) by lia.
    rewrite Zlt_Qlt. apply Qle_lt_trans with (t * 1000)%Q; [apply Qfloor_le |].
    rewrite inject_Z_mult. apply Qmult_lt_compat_r; [reflexivity | apply Qlt_floor].
Qed.

(** A timestamp between 1e8 and 1e11 seconds (from March 1973 to the
    year 5138) gives the same day key and the same hour whether it is
    given in seconds or in milliseconds. *)
Theorem milliseconds_or_seconds (t : Q) :
  (1e8 < t)%Q -> (t <= 1e11)%Q ->
  getDayKey (Some (t * 1000)%Q) = getDayKey (Some t) /\
  getHourOfDay (Some (t * 1000)%Q) = getHourOfDay (Some t).
Proof.
  intros Hlo Hhi.
  assert (Hn : 100000000 <= Qfloor t <= 100000000000).
  { split.
    - change 100000000 with (Qfloor 1e8). apply Qfloor_resp_le, Qlt_le_weak, Hlo.
    - change 100000000000 with (Qfloor 1e11). apply Qfloor_resp_le, Hhi. }
  pose proof (floor_thousand t) as Ha.
  assert (Hms : timeValue (Some (t * 1000)%Q) = Some (Qfloor t * 1000)).
  { unfold timeValue, toSeconds.
    assert (Hgt : Qgtb (t * 1000) 1e11 = true).
    { apply Qgtb_true. apply Qle_lt_trans with (1e8 * 1000)%Q; [vm_compute; discriminate |].
      apply Qmult_lt_compat_r; [reflexivity | exact Hlo]. }
    rewrite Hgt. cbn [times1000 fmap option_fmap option_map].
    assert (Hf : Qfloor (t * 1000 / 1000) = Qfloor t) by (apply Qfloor_comp; field).
    rewrite Hf.
    rewrite (newDate_floor _ 0 (Qfloor t * 1000)); [| lia | lia | |].
    - f_equal. rewrite (Qfloor_comp _ _ (inject_thousand (Qfloor t))). apply Qfloor_Z.
    - rewrite inject_thousand, <- Zle_Qle. lia.
    - rewrite inject_thousand. apply Qle_refl. }
  assert (Hs : timeValue (Some t) = Some (Qfloor (t * 1000))).
  { unfold timeValue, toSeconds.
    assert (Hgt : Qgtb t 1e11 = false) by (apply Qgtb_false, Hhi).
    rewrite Hgt. cbn [times1000 fmap option_fmap option_map].
    apply (newDate_floor _ 0 100000000000000); [lia | lia | |].
    - apply Qle_trans with (1e8 * 1000)%Q; [vm_compute; discriminate |].
      apply Qmult_le_compat_r; [apply Qlt_le_weak, Hlo | vm_compute; discriminate].
    - apply Qle_trans with (1e11 * 1000)%Q; [| vm_compute; discriminate].
      apply Qmult_le_compat_r; [exact Hhi | vm_compute; discriminate]. }
  split.
  - rewrite (getDayKey_valid _ _ Hms), (getDayKey_valid _ _ Hs).
    replace (Qfloor t * 1000 / msPerDay) with (Qfloor (t * 1000) / msPerDay); [reflexivity |].
    unfold msPerDay. Z.to_euclidean_division_equations. lia.
  - unfold timeValue in Hms, Hs. unfold getHourOfDay. rewrite Hms, Hs. cbn [getUTCHours].
    f_equal. f_equal. unfold msPerHour. Z.to_euclidean_division_equations. lia.
Qed.

Lemma milliseconds_or_seconds_witness :
  (1e8 < 1700000000.5)%Q /\ (1700000000.5 <= 1e11)%Q /\
  getDayKey (Some (1700000000.5 * 1000)%Q) = getDayKey (Some 1700000000.5%Q).
Proof.
  assert (H1 : (1e8 < 1700000000.5)%Q) by (vm_compute; reflexivity).
  assert (H2 : (1700000000.5 <= 1e11)%Q) by (vm_compute; discriminate).
  split; [exact H1 |]. split; [exact H2 |].
  exact (proj1 (milliseconds_or_seconds _ H1 H2)).
Defined.

(** Up to 1e11 a number is taken for seconds: the millisecond timestamp
    of an instant before March 1973 is read as a later date. *)
Example early_milliseconds_misread :
  getDayKey (Some 100000000000%Q) = "5138-11-16" /\
  getDayKey (Some 100000000001%Q) = "1973-03-03".
Proof. split; vm_compute; reflexivity. Qed.

(** ** The date range of a run *)

Lemma dateRange_numericTimes (data : list (option Conversation.t)) :
  dateRange data
  = foldl (fun range t => (minNumber (fst range) t, maxNumber (snd range) t))
          (None, None) (numericTimes data).
Proof.
  unfold dateRange, numericTimes. generalize (@None Q, @None Q).
  induction data as [| entry data IH]; intros range; [reflexivity |].
  cbn [foldl]. rewrite IH. cbn [omap list_omap].
  destruct (entry ≫= Conversation.create_time) as [[t | n] |]; reflexivity.
Qed.

Lemma minNumber_le (a : option Q) (t : Q) :
  exists l, minNumber a t = Some l /\ (l <= t)%Q /\
            (forall x, a = Some x -> (l <= x)%Q) /\ (l = t \/ a = Some l).
Proof.
  unfold minNumber. destruct a as [x |].
  - destruct (Qle_bool x t) eqn:E.
    + exists x. apply Qle_bool_iff in E. repeat split; auto.
      intros ? [= <-]. apply Qle_refl.
    + exists t. assert (t < x)%Q.
      { apply Qnot_le_lt. intros H. apply Qle_bool_iff in H. congruence. }
      repeat split; auto; [apply Qle_refl |]. intros ? [= <-]. apply Qlt_le_weak. assumption.
  - exists t. repeat split; auto; [apply Qle_refl | discriminate].
Qed.

Lemma maxNumber_ge (a : option Q) (t : Q) :
  exists h, maxNumber a t = Some h /\ (t <= h)%Q /\
            (forall x, a = Some x -> (x <= h)%Q) /\ (h = t \/ a = Some h).
Proof.
  unfold maxNumber. destruct a as [x |].
  - destruct (Qle_bool t x) eqn:E.
    + exists x. apply Qle_bool_iff in E. repeat split; auto.
      intros ? [= <-]. apply Qle_refl.
    + exists t. assert (x < t)%Q.
      { apply Qnot_le_lt. intros H. apply Qle_bool_iff in H. congruence. }
      repeat split; auto; [apply Qle_refl |]. intros ? [= <-]. apply Qlt_le_weak. assumption.
  - exists t. repeat split; auto; [apply Qle_refl | discriminate].
Qed.

Lemma range_fold (ts : list Q) (lo hi : option Q) :
  let range := foldl (fun range t => (minNumber (fst range) t, maxNumber (snd range) t))
                     (lo, hi) ts in
  (forall t, t ∈ ts ->
     exists l h, fst range = Some l /\ snd range = Some h /\ (l <= t)%Q /\ (t <= h)%Q) /\
  (forall l0, lo = Some l0 -> exists l, fst range = Some l /\ (l <= l0)%Q) /\
  (forall h0, hi = Some h0 -> exists h, snd range = Some h /\ (h0 <= h)%Q) /\
  (forall l, fst range = Some l -> lo = Some l \/ l ∈ ts) /\
  (forall h, snd range = Some h -> hi = Some h \/ h ∈ ts).
Proof.
  revert lo hi. induction ts as [| t ts IH]; intros lo hi; cbn [foldl fst snd].
  - split; [intros t Ht; apply elem_of_nil in Ht; contradiction |].
    split; [intros l0 ->; exists l0; split; [reflexivity | apply Qle_refl] |].
    split; [intros h0 ->; exists h0; split; [reflexivity | apply Qle_refl] |].
    split; auto.
  - destruct (minNumber_le lo t) as (l1 & El & Hl1 & Hl2 & Hl3).
    destruct (maxNumber_ge hi t) as (h1 & Eh & Hh1 & Hh2 & Hh3).
    rewrite El, Eh.
    destruct (IH (Some l1) (Some h1)) as (I1 & I2 & I3 & I4 & I5).
    destruct (I2 l1 eq_refl) as (l & Fl & Ll). destruct (I3 h1 eq_refl) as (h & Fh & Lh).
    split; [| split; [| split; [| split]]].
    + intros t' Ht'. apply elem_of_cons in Ht' as [-> | Ht']; [| exact (I1 t' Ht')].
      exists l, h. split; [exact Fl |]. split; [exact Fh |].
      split; [eapply Qle_trans; eassumption | eapply Qle_trans; eassumption].
    + intros l0 Hl0. exists l. split; [exact Fl |].
      eapply Qle_trans; [exact Ll | exact (Hl2 _ Hl0)].
    + intros h0 Hh0. exists h. split; [exact Fh |].
      eapply Qle_trans; [exact (Hh2 _ Hh0) | exact Lh].
    + intros l' Hl'. destruct (I4 l' Hl') as [[= <-] | Hin].
      * destruct Hl3 as [-> | ->]; [right; apply list_elem_of_here | left; reflexivity].
      * right. apply elem_of_cons. right. exact Hin.
    + intros h' Hh'. destruct (I5 h' Hh') as [[= <-] | Hin].
      * destruct Hh3 as [-> | ->]; [right; apply list_elem_of_here | left; reflexivity].
      * right. apply elem_of_cons. right. exact Hin.
Qed.

Section DateRange.

Variable encode : string -> Z.
Variable JSON_stringify : json -> string.

Lemma conversationLoop_dates now costs data a a' :
  forM (conversationStep encode JSON_stringify now costs) data a = Ok a' ->
  Aggregator.startDate a' = Aggregator.startDate a /\
  Aggregator.endDate a' = Aggregator.endDate a.
Proof.
  revert a. induction data as [| entry data IH]; intros a; cbn [forM].
  - intros [= <-]. auto.
  - destruct entry as [c |]; cbn -[processConversation]; [| apply IH].
    destruct (processConversation encode JSON_stringify now costs c a)
      as [[a1 used] |] eqn:Hc; cbn; [| discriminate].
    intros Hrest. destruct (IH _ Hrest) as [-> ->]. cbn.
    destruct (processConversation_Ok _ _ _ _ _ _ _ _ Hc) as (a2 & U & R & _).
    assert (Hu : forall x y, updated costs (dayKeyOf now c) (snd (dayAndHour now c)) x y ->
              Aggregator.startDate y = Aggregator.startDate x /\
              Aggregator.endDate y = Aggregator.endDate x).
    { induction 1 as [| x slug i o y z Hup _ [IHs IHe]]; [auto |].
      destruct (updateAggregatorUsage_Ok _ _ _ _ _ _ _ _ Hup) as (mh & th & _ & _ & ->).
      rewrite IHs, IHe. auto. }
    destruct (Hu _ _ U) as [Us Ue].
    assert (Hr : Aggregator.startDate a1 = Aggregator.startDate a2 /\
                 Aggregator.endDate a1 = Aggregator.endDate a2).
    { revert R. unfold rollup. destruct (_ && _)%bool; [| intros [= <-]; auto].
      destruct (Aggregator.usageByDay a2 !! _); [| discriminate]. intros [= <-]. auto. }
    destruct Hr as [-> ->]. rewrite Us, Ue. unfold ensureDay.
    destruct (Aggregator.usageByDay a !! _); [auto |]. destruct (negb _); auto.
Qed.

(** startDate and endDate of a run are the day keys of the smallest and
    of the largest numeric create_time of the input, taken as the
    numbers stand, or are left undefined when no conversation has a
    numeric create_time; processing the conversations does not touch
    them. *)
Theorem start_and_end_date now costs data a :
  processConversations encode JSON_stringify now costs data = Ok a ->
  Aggregator.startDate a = (fun l => getDayKey (Some l)) <$> fst (dateRange data) /\
  Aggregator.endDate a = (fun h => getDayKey (Some h)) <$> snd (dateRange data) /\
  (forall t, t ∈ numericTimes data ->
     exists l h, fst (dateRange data) = Some l /\ snd (dateRange data) = Some h /\
                 (l <= t)%Q /\ (t <= h)%Q) /\
  (forall l, fst (dateRange data) = Some l -> l ∈ numericTimes data) /\
  (forall h, snd (dateRange data) = Some h -> h ∈ numericTimes data) /\
  (numericTimes data = [] -> Aggregator.startDate a = None /\ Aggregator.endDate a = None).
Proof.
  intros H.
  assert (Hdates : Aggregator.startDate a = (fun l => getDayKey (Some l)) <$> fst (dateRange data) /\
                   Aggregator.endDate a = (fun h => getDayKey (Some h)) <$> snd (dateRange data)).
  { revert H. unfold processConversations.
    pose proof (range_fold (numericTimes data) None None) as (_ & _ & _ & Hlo & Hhi).
    pose proof (range_fold (numericTimes data) None None) as (Hin & _).
    rewrite <- dateRange_numericTimes in Hlo, Hhi, Hin.
    destruct (dateRange data) as [lo hi]. cbn [fst snd] in *.
    set (a0 := match lo with Some _ => _ | None => _ end).
    destruct (forM _ data a0) as [a1 |] eqn:Hloop; [| discriminate].
    cbn. intros [= <-]. cbn.
    destruct (conversationLoop_dates _ _ _ _ _ Hloop) as [-> ->].
    subst a0. destruct lo as [l |]; cbn; [| destruct hi as [h |]; [| auto]].
    - destruct (Hlo l eq_refl) as [[=] | Hl].
      destruct (Hin l Hl) as (l' & h' & _ & -> & _). auto.
    - exfalso. destruct (Hhi h eq_refl) as [[=] | Hh].
      destruct (Hin h Hh) as (l' & h' & [=] & _). }
  destruct Hdates as [Hs He]. split; [exact Hs |]. split; [exact He |].
  pose proof (range_fold (numericTimes data) None None) as (Hin & _ & _ & Hlo & Hhi).
  rewrite <- dateRange_numericTimes in Hlo, Hhi, Hin.
  split; [exact Hin |].
  split; [intros l Hl; destruct (Hlo l Hl) as [[=] | ?]; assumption |].
  split; [intros h Hh; destruct (Hhi h Hh) as [[=] | ?]; assumption |].
  intros Hnil. rewrite Hs, He, dateRange_numericTimes, Hnil. auto.
Qed.

End DateRange.

Lemma start_and_end_date_witness :
  run 0 sampleData = Ok sampleResult /\
  Aggregator.startDate sampleResult
    = (fun l => getDayKey (Some l)) <$> fst (dateRange sampleData).
Proof.
  assert (H : run 0 sampleData = Ok sampleResult) by (vm_compute; reflexivity).
  split; [exact H |].
  exact (proj1 (start_and_end_date perCharacter noBlob 0 MODEL_COSTS sampleData sampleResult H)).
Defined.

(** ** Model slug scanning *)

Lemma addIf_grows o (found : gset string) : found ⊆ addIf o found.
Proof. unfold addIf. destruct (nonEmpty o); set_solver. Qed.

Lemma addWhen_grows b slug (found : gset string) : found ⊆ addWhen b slug found.
Proof. unfold addWhen. destruct b; set_solver. Qed.

Lemma scanNode_grows found entry : found ⊆ scanNode found entry.
Proof.
  unfold scanNode. etransitivity; [| apply addWhen_grows].
  etransitivity; [| apply addWhen_grows].
  etransitivity; [| apply addIf_grows]. apply addIf_grows.
Qed.

Lemma scanDirect_grows found msg : found ⊆ scanDirect found msg.
Proof.
  unfold scanDirect. etransitivity; [| apply addWhen_grows].
  etransitivity; [| apply addWhen_grows].
  etransitivity; [| apply addIf_grows]. apply addIf_grows.
Qed.

Lemma foldl_grows {A : Type} (f : gset string -> A -> gset string) (l : list A)
    (found : gset string) :
  (forall s x, s ⊆ f s x) -> found ⊆ foldl f found l.
Proof.
  intros Hf. revert found. induction l as [| x l IH]; intros found; cbn; [reflexivity |].
  etransitivity; [apply (Hf found x) | apply IH].
Qed.

Lemma scanConversation_grows found entry : found ⊆ scanConversation found entry.
Proof.
  unfold scanConversation. destruct entry as [c |]; [| reflexivity].
  assert (H : found ⊆ foldl scanDirect (foldl scanNode found (default [] (Conversation.mapping c)))
                        (default [] (Conversation.messages c))).
  { etransitivity; [apply (foldl_grows scanNode), scanNode_grows |].
    apply (foldl_grows scanDirect), scanDirect_grows. }
  destruct (Conversation.default_model_slug c); set_solver.
Qed.

Lemma placeholder_elsewhere (l : list string) (table : gmap string ModelCost) (m : string) :
  ~ In m l -> foldl (fun table m => <[m := zeroCost]> table) table l !! m = table !! m.
Proof.
  revert table. induction l as [| x l IH]; intros table Hm; cbn; [reflexivity |].
  rewrite IH by (intros H; apply Hm; right; exact H).
  apply lookup_insert_ne. intros ->. apply Hm. left. reflexivity.
Qed.

Lemma placeholder_Some (l : list string) (table : gmap string ModelCost) (m : string)
    (c : ModelCost) :
  foldl (fun table m => <[m := zeroCost]> table) table l !! m = Some c ->
  table !! m = Some c \/ (In m l /\ c = zeroCost).
Proof.
  revert table. induction l as [| x l IH]; intros table; cbn; [auto |].
  intros H. destruct (IH _ H) as [Hl | [Hin ->]]; [| auto].
  rewrite lookup_insert in Hl. case_decide as Hx; [| auto].
  injection Hl as <-. right. auto.
Qed.

(** The scan always finds the three image models; it leaves every entry
    of the cost table as it was, and adds a zero-cost entry for each
    slug found that had none, "unknown_model" excepted: after the scan
    every slug found, "unknown_model" excepted, has an entry. *)
Theorem scan_completes_cost_table costs data maxScan :
  let found := fst (scanForModelSlugs costs data maxScan) in
  let costs' := snd (scanForModelSlugs costs data maxScan) in
  {[ "dalle-2"; "dalle-3"; "gpt-image-1" ]} ⊆ found /\
  (forall m, m ∈ found -> m <> "unknown_model" -> is_Some (costs' !! m)) /\
  (forall m c, costs !! m = Some c -> costs' !! m = Some c) /\
  (forall m c, costs !! m = None -> costs' !! m = Some c ->
     c = zeroCost /\ m ∈ found /\ m <> "unknown_model").
Proof.
  unfold scanForModelSlugs. cbn [fst snd].
  set (scanCount := match maxScan with Some (S n) => _ | _ => _ end).
  set (found := foldl scanConversation _ (take scanCount data)).
  set (missing := List.filter _ (elements found)).
  assert (Hmissing : forall m, In m missing <->
            m ∈ found /\ costs !! m = None /\ m <> "unknown_model").
  { intros m. subst missing. rewrite filter_In, <- list_elem_of_In, elem_of_elements.
    rewrite andb_true_iff, !negb_true_iff, bool_decide_eq_false.
    rewrite <- not_true_iff_false, String.eqb_eq, <- eq_None_not_Some. tauto. }
  split; [| split; [| split]].
  - etransitivity; [| apply (foldl_grows scanConversation), scanConversation_grows].
    set_solver.
  - intros m Hm Hu. apply foldl_placeholder.
    destruct (costs !! m) as [c |] eqn:Hc; [left; eauto |].
    right. apply Hmissing. auto.
  - intros m c Hc. rewrite placeholder_elsewhere; [exact Hc |].
    intros Hin. apply Hmissing in Hin as (_ & Hn & _). congruence.
  - intros m c Hn Hc. apply placeholder_Some in Hc as [Hc | [Hin ->]]; [congruence |].
    apply Hmissing in Hin as (Hf & _ & Hu). auto.
Qed.

Lemma foldl_finds {A : Type} (f : gset string -> A -> gset string) (l : list A)
    (found : gset string) (x : A) (s : string) :
  (forall s x, s ⊆ f s x) -> x ∈ l -> (forall found, s ∈ f found x) -> s ∈ foldl f found l.
Proof.
  intros Hf Hx Hs. revert found. induction l as [| y l IH]; intros found.
  - apply elem_of_nil in Hx. contradiction.
  - cbn. apply elem_of_cons in Hx as [<- | Hx]; [| apply IH, Hx].
    apply (foldl_grows f l (f found x) Hf), Hs.
Qed.

Section Priced.

Variable encode : string -> Z.
Variable JSON_stringify : json -> string.

Lemma flattenMessage_slug (key : string) (node : Node.t) (msg : Message.t) (found : gset string) :
  Node.message node = Some msg ->
  slugOf (flattenMessage encode JSON_stringify node msg) = "unknown_model" \/
  slugOf (flattenMessage encode JSON_stringify node msg) = "research" \/
  slugOf (flattenMessage encode JSON_stringify node msg) ∈ scanNode found (key, node).
Proof.
  intros Hmsg. unfold slugOf, flattenMessage. cbn [FlatMsg.model_slug default].
  destruct (_ && isDeepResearch msg)%bool; [auto |].
  unfold scanNode. cbn [snd]. rewrite Hmsg. cbn [mbind option_bind].
  set (msgSlug := Message.metadata msg ≫= Metadata.model_slug).
  set (nodeSlug := Node.model_slug node).
  set (base := default "unknown_model" _).
  assert (Hbase : base = "unknown_model" \/ base ∈ addIf nodeSlug (addIf msgSlug found)).
  { subst base. unfold orElse, addIf, nonEmpty.
    destruct msgSlug as [s1 |], nodeSlug as [s2 |]; cbn;
      repeat match goal with
        | |- context [String.eqb ?s ""] => destruct (String.eqb s ""); cbn
        end;
      first [left; reflexivity | right; set_solver]. }
  destruct Hbase as [H | H]; [left; exact H | right; right].
  apply addWhen_grows, addWhen_grows, H.
Qed.

(** Every entry the accumulator is given carries the placeholder
    "unknown_model" or a slug that has an entry in the cost table once
    the scan of the run is done (provided "research", the slug of deep
    research, has one, as in MODEL_COSTS): only usage of
    "unknown_model" is priced by the silent zero-rate default. *)
Theorem usage_slugs_are_priced costs data c mapping m :
  is_Some (costs !! "research") ->
  Some c ∈ data ->
  Conversation.mapping c = Some mapping ->
  m ∈ flattenAll encode JSON_stringify mapping ->
  slugOf m = "unknown_model" \/
  is_Some (snd (scanForModelSlugs costs data None) !! slugOf m).
Proof.
  intros Hr Hc Hmap Hm.
  unfold flattenAll in Hm. apply list_elem_of_bind in Hm as ([key node] & Hm & Hentry).
  unfold flattenNode in Hm. cbn [snd] in Hm.
  destruct (Node.message node) as [msg |] eqn:Hmsg; [| apply elem_of_nil in Hm; contradiction].
  apply list_elem_of_singleton in Hm as ->.
  destruct (String.eqb_spec (slugOf (flattenMessage encode JSON_stringify node msg))
              "unknown_model") as [Hu | Hu]; [left; exact Hu | right].
  unfold scanForModelSlugs. cbn [snd]. rewrite firstn_all.
  apply foldl_placeholder.
  set (slug := slugOf (flattenMessage encode JSON_stringify node msg)) in *.
  destruct (costs !! slug) as [cost |] eqn:Hcost; [left; eauto |].
  right. apply filter_In. split.
  - apply list_elem_of_In, elem_of_elements.
    apply (foldl_finds scanConversation data _ (Some c)); [apply scanConversation_grows | exact Hc |].
    intros found. unfold scanConversation. rewrite Hmap. cbn [default].
    assert (Hin : slug ∈ foldl scanNode found mapping).
    { apply (foldl_finds scanNode mapping _ (key, node)); [apply scanNode_grows | exact Hentry |].
      intros found'.
      destruct (flattenMessage_slug key node msg found' Hmsg) as [H | [H | H]];
        [contradiction | | exact H].
      fold slug in H. rewrite H in Hcost. destruct Hr as [x Hx]. congruence. }
    assert (Hd : slug ∈ foldl scanDirect (foldl scanNode found mapping)
                          (default [] (Conversation.messages c)))
      by (apply (foldl_grows scanDirect); [apply scanDirect_grows | exact Hin]).
    destruct (Conversation.default_model_slug c); set_solver.
  - rewrite bool_decide_eq_false_2 by (rewrite Hcost; intros [? ?]; discriminate).
    destruct (String.eqb_spec slug "unknown_model"); [contradiction | reflexivity].
Qed.

End Priced.

Lemma usage_slugs_are_priced_witness :
  is_Some (MODEL_COSTS !! "research") /\
  Some (oneTurn None) ∈ [Some (oneTurn None)] /\
  Conversation.mapping (oneTurn None) = Some oneTurnMapping /\
  (forall m, m ∈ flattenAll perCharacter noBlob oneTurnMapping ->
     slugOf m = "unknown_model" \/
     is_Some (snd (scanForModelSlugs MODEL_COSTS [Some (oneTurn None)] None) !! slugOf m)).
Proof.
  assert (Hr : is_Some (MODEL_COSTS !! "research")) by (vm_compute; eauto).
  assert (Hc : Some (oneTurn None) ∈ [Some (oneTurn None)]) by apply list_elem_of_here.
  split; [exact Hr |]. split; [exact Hc |]. split; [reflexivity |].
  intros m Hm.
  exact (usage_slugs_are_priced perCharacter noBlob MODEL_COSTS _ _ _ m Hr Hc eq_refl Hm).
Defined.

(** ** The requests in flight *)

Lemma registered_init : registered Worker.init.
Proof.
  unfold registered; cbn. split; [| split].
  - intros k p H. rewrite lookup_empty in H. discriminate.
  - intros k p H. rewrite lookup_empty in H. discriminate.
  - intros k [p H]. rewrite lookup_empty in H. discriminate.
Qed.

Lemma settle_eq (p : nat) (outcome : Worker.promise) (ps : gmap nat Worker.promise) :
  ps !! p = Some Worker.Pending -> Worker.settle p outcome ps !! p = Some outcome.
Proof. intros H. unfold Worker.settle. rewrite H. apply lookup_insert_eq. Qed.

Lemma settle_is_Some (p q : nat) (outcome : Worker.promise) (ps : gmap nat Worker.promise) :
  is_Some (Worker.settle q outcome ps !! p) -> is_Some (ps !! p).
Proof.
  unfold Worker.settle. destruct (ps !! q) as [[| n |] |] eqn:Hq; try (intros H; exact H).
  rewrite lookup_insert. case_decide as E; [subst; rewrite Hq; eauto | auto].
Qed.

Lemma attemptPostMessage_registered requestId w text postThrows st :
  registered st -> registered (Worker.attemptPostMessage requestId w text postThrows st).
Proof.
  intros (Hp & He & Hn). unfold Worker.attemptPostMessage.
  destruct (Worker.workerReady st); [destruct postThrows |]; unfold registered; cbn;
    [| auto | auto].
  split; [| split].
  - intros id p Hid. apply lookup_delete_Some in Hid as [Hne Hid].
    destruct (Hp id p Hid) as (-> & Eid & Pid).
    split; [reflexivity |]. split.
    + rewrite lookup_delete_ne by exact Hne. exact Eid.
    + rewrite settle_other by exact Hne. exact Pid.
  - intros id p Hid. apply lookup_delete_Some in Hid as [Hne Hid].
    rewrite lookup_delete_ne by exact Hne. apply He, Hid.
  - intros id Hid. apply Hn. eapply settle_is_Some. exact Hid.
Qed.

Lemma onmessage_registered data st : registered st -> registered (Worker.onmessage data st).
Proof.
  intros Hr. destruct data as [| id count error fallbackUsed]; cbn.
  - destruct Hr as (Hp & He & Hn). unfold registered; cbn. auto.
  - destruct (Worker.pendingRequests st !! id) as [resolve |] eqn:Hres; [| exact Hr].
    destruct (Worker.errorCallbacks st !! id) as [reject |] eqn:Hrej; [| exact Hr].
    destruct Hr as (Hp & He & Hn).
    destruct (Hp id resolve Hres) as (-> & Eid & Pid).
    assert (reject = id) as -> by congruence.
    set (ps := if error then _ else _).
    assert (Hps : exists outcome, ps = Worker.settle id outcome (Worker.promises st)).
    { subst ps. destruct error; [destruct fallbackUsed |]; destruct count; eauto. }
    destruct Hps as [outcome ->]. unfold registered; cbn.
    split; [| split].
    + intros k p Hk. apply lookup_delete_Some in Hk as [Hne Hk].
      destruct (Hp k p Hk) as (-> & Ek & Pk).
      split; [reflexivity |]. split.
      * rewrite lookup_delete_ne by exact Hne. exact Ek.
      * rewrite settle_other by exact Hne. exact Pk.
    + intros k p Hk. apply lookup_delete_Some in Hk as [Hne Hk].
      rewrite lookup_delete_ne by exact Hne. apply He, Hk.
    + intros k Hk. apply Hn. eapply settle_is_Some. exact Hk.
Qed.

Lemma onerror_promises (st : Worker.state) :
  registered st ->
  forall id,
    Worker.promises (Worker.onerror st) !! id
    = if Worker.errorCallbacks st !! id is Some _ then Some Worker.Rejected
      else Worker.promises st !! id.
Proof.
  intros (Hp & He & Hn). unfold Worker.onerror; cbn.
  assert (Hall : forall k q, Worker.errorCallbacks st !! k = Some q ->
            q = k /\ Worker.promises st !! k = Some Worker.Pending).
  { intros k q Hk. destruct (Hp k q (He k q Hk)) as (-> & _ & Pk). auto. }
  revert Hall.
  apply (map_fold_weak_ind
           (fun ps (m : gmap nat nat) =>
              (forall k q, m !! k = Some q ->
                 q = k /\ Worker.promises st !! k = Some Worker.Pending) ->
              forall id,
                ps !! id = if m !! id is Some _ then Some Worker.Rejected
                           else Worker.promises st !! id)).
  - intros _ id. rewrite lookup_empty. reflexivity.
  - intros k q m ps Hk IH Hall id.
    destruct (Hall k q (lookup_insert_eq m k q)) as [-> Pk].
    assert (Hm : forall k' q', m !! k' = Some q' ->
              q' = k' /\ Worker.promises st !! k' = Some Worker.Pending).
    { intros k' q' Hk'. apply (Hall k' q').
      rewrite lookup_insert_ne; [exact Hk' | intros ->; congruence]. }
    specialize (IH Hm). rewrite lookup_insert. case_decide as E.
    + subst id. apply settle_eq. rewrite IH, Hk. exact Pk.
    + rewrite settle_other by exact E. apply IH.
Qed.

Lemma step_registered st e : registered st -> registered (Worker.step st e).
Proof.
  intros Hr. destruct e as [text postThrows | data | | k postThrows |]; cbn.
  - unfold Worker.countTextTokens. destruct (String.eqb text ""); [exact Hr |].
    destruct Hr as (Hp & He & Hn).
    assert (Hinit : Worker.nextRequestId (fst (Worker.initTokenizerWorker st)) = Worker.nextRequestId st /\
              Worker.pendingRequests (fst (Worker.initTokenizerWorker st)) = Worker.pendingRequests st /\
              Worker.errorCallbacks (fst (Worker.initTokenizerWorker st)) = Worker.errorCallbacks st /\
              Worker.promises (fst (Worker.initTokenizerWorker st)) = Worker.promises st).
    { unfold Worker.initTokenizerWorker. destruct (Worker.worker st); cbn; auto. }
    destruct (Worker.initTokenizerWorker st) as [st1 w]. cbn [fst] in Hinit.
    destruct Hinit as (En & Ep & Ee & Epr).
    apply attemptPostMessage_registered. unfold registered; cbn.
    rewrite En, Ep, Ee, Epr.
    assert (Hfresh : Worker.promises st !! Worker.nextRequestId st = None).
    { destruct (Worker.promises st !! Worker.nextRequestId st) eqn:E; [| reflexivity].
      assert (Worker.nextRequestId st < Worker.nextRequestId st)%nat by (apply Hn; eauto). lia. }
    split; [| split].
    + intros id p Hid. rewrite lookup_insert in Hid. case_decide as E.
      * injection Hid as <-. subst id. rewrite !lookup_insert_eq. auto.
      * destruct (Hp id p Hid) as (-> & Eid & Pid).
        rewrite !lookup_insert_ne by exact E. auto.
    + intros id p Hid. rewrite lookup_insert in Hid. rewrite lookup_insert.
      case_decide as E; [exact Hid | apply He, Hid].
    + intros id Hid. rewrite lookup_insert in Hid. case_decide as E; [lia |].
      specialize (Hn id Hid). lia.
  - apply onmessage_registered, Hr.
  - pose proof (onerror_promises st Hr) as Hps.
    destruct Hr as (Hp & He & Hn). unfold registered.
    split; [| split]; [intros id p Hid; cbn in Hid; rewrite lookup_empty in Hid; discriminate ..|].
    intros id Hid. rewrite Hps in Hid. change (Worker.nextRequestId (Worker.onerror st))
      with (Worker.nextRequestId st).
    destruct (Worker.errorCallbacks st !! id) as [q |] eqn:Eq; [| exact (Hn id Hid)].
    destruct (Hp id q (He id q Eq)) as (_ & _ & Pid). apply Hn. rewrite Pid. eauto.
  - unfold Worker.timeout.
    destruct (Worker.timers st !! k) as [[[requestId w] text] |]; [| exact Hr].
    apply attemptPostMessage_registered. destruct Hr as (Hp & He & Hn).
    unfold registered; cbn. auto.
  - destruct Hr as (Hp & He & Hn). unfold Worker.terminateTokenizerWorker.
    destruct (Worker.worker st); unfold registered; cbn; [| auto].
    split; [| split]; [intros id p Hid; rewrite lookup_empty in Hid; discriminate ..|].
    exact Hn.
Qed.

Lemma run_registered events st : registered st -> registered (Worker.run events st).
Proof.
  unfold Worker.run. revert st. induction events as [| e events IH]; intros st Hr; cbn.
  - exact Hr.
  - apply IH, step_registered, Hr.
Qed.

(** Request ids are never reused: after any sequence of calls, worker
    messages, worker errors, retries and teardowns the two callback
    maps hold the same ids, each registered id belongs to a promise
    that is still pending, and every promise handed out has an id below
    the next one, so a new request cannot overwrite the callbacks of an
    earlier one. *)
Theorem request_ids_are_fresh (events : list Worker.event) :
  let st := Worker.run events Worker.init in
  (forall id, is_Some (Worker.pendingRequests st !! id)
              <-> is_Some (Worker.errorCallbacks st !! id)) /\
  (forall id, is_Some (Worker.pendingRequests st !! id) ->
     Worker.promises st !! id = Some Worker.Pending) /\
  (forall id, is_Some (Worker.promises st !! id) -> (id < Worker.nextRequestId st)%nat) /\
  Worker.pendingRequests st !! Worker.nextRequestId st = None.
Proof.
  intros st. destruct (run_registered events Worker.init registered_init) as (Hp & He & Hn).
  fold st in Hp, He, Hn.
  split; [| split; [| split; [exact Hn |]]].
  - intros id. split.
    + intros [p Hid]. destruct (Hp id p Hid) as (_ & Eid & _). eauto.
    + intros [p Hid]. eauto.
  - intros id [p Hid]. exact (proj2 (proj2 (Hp id p Hid))).
  - destruct (Worker.pendingRequests st !! Worker.nextRequestId st) as [p |] eqn:E;
      [| reflexivity].
    destruct (Hp _ p E) as (_ & _ & Pid).
    assert (Worker.nextRequestId st < Worker.nextRequestId st)%nat by (apply Hn; eauto). lia.
Qed.

(** A response for a registered request settles the promise of that
    request and of no other, and unregisters the request: the promise is
    fulfilled with the count when the response carries one and reports
    no error, or reports an error with the fallback flag; it is
    rejected otherwise.  A response for an id that is not registered
    (a duplicate, or one that arrives after an error or a teardown)
    changes nothing. *)
Theorem response_settles_request (events : list Worker.event) (id : nat)
    (count : option Z) (error fallbackUsed : bool) :
  let st := Worker.run events Worker.init in
  let st' := Worker.onmessage (Worker.Response id count error fallbackUsed) st in
  (is_Some (Worker.pendingRequests st !! id) ->
   Worker.promises st' !! id = Some (responseOutcome count error fallbackUsed) /\
   Worker.pendingRequests st' !! id = None /\
   Worker.errorCallbacks st' !! id = None /\
   forall p, p <> id ->
     Worker.promises st' !! p = Worker.promises st !! p /\
     Worker.pendingRequests st' !! p = Worker.pendingRequests st !! p /\
     Worker.errorCallbacks st' !! p = Worker.errorCallbacks st !! p) /\
  (Worker.pendingRequests st !! id = None -> st' = st).
Proof.
  intros st st'. destruct (run_registered events Worker.init registered_init) as (Hp & He & Hn).
  fold st in Hp, He, Hn. subst st'. cbn [Worker.onmessage]. split.
  - intros [resolve Hres]. destruct (Hp id resolve Hres) as (-> & Eid & Pid).
    rewrite Hres, Eid.
    set (ps := if error then _ else _).
    assert (Hps : ps = Worker.settle id (responseOutcome count error fallbackUsed)
                         (Worker.promises st)).
    { subst ps. unfold responseOutcome.
      destruct error, fallbackUsed, count; reflexivity. }
    rewrite Hps. cbn.
    split; [apply settle_eq, Pid |].
    split; [apply lookup_delete_eq |]. split; [apply lookup_delete_eq |].
    intros p Hne. rewrite settle_other by congruence.
    rewrite !lookup_delete_ne by congruence. auto.
  - intros Hnone. rewrite Hnone. reflexivity.
Qed.

(** An error of the worker rejects the promise of every registered
    request, leaves the other promises as they were, and forgets the
    worker and both callback maps. *)
Theorem worker_error_rejects_all (events : list Worker.event) :
  let st := Worker.run events Worker.init in
  let st' := Worker.onerror st in
  (forall id, is_Some (Worker.pendingRequests st !! id) ->
     Worker.promises st' !! id = Some Worker.Rejected) /\
  (forall id, Worker.pendingRequests st !! id = None ->
     Worker.promises st' !! id = Worker.promises st !! id) /\
  Worker.pendingRequests st' = ∅ /\ Worker.errorCallbacks st' = ∅ /\
  Worker.worker st' = None /\ Worker.workerReady st' = false.
Proof.
  intros st st'.
  pose proof (run_registered events Worker.init registered_init) as Hr. fold st in Hr.
  pose proof (onerror_promises st Hr) as Hps. destruct Hr as (Hp & He & Hn).
  split; [| split; [| repeat split]].
  - intros id [p Hid]. destruct (Hp id p Hid) as (_ & Eid & _).
    subst st'. rewrite Hps, Eid. reflexivity.
  - intros id Hid. subst st'. rewrite Hps.
    destruct (Worker.errorCallbacks st !! id) as [q |] eqn:E; [| reflexivity].
    rewrite (He id q E) in Hid. discriminate.
Qed.

(** ** One worker, one post per request *)

Lemma attemptPostMessage_worker requestId w text postThrows st :
  Worker.worker (Worker.attemptPostMessage requestId w text postThrows st) = Worker.worker st /\
  Worker.created (Worker.attemptPostMessage requestId w text postThrows st) = Worker.created st.
Proof.
  unfold Worker.attemptPostMessage.
  destruct (Worker.workerReady st); [destruct postThrows |]; cbn; auto.
Qed.

Lemma step_reused k st e :
  reused k st -> reused (k + (if isReset e then 1 else 0)) (Worker.step st e).
Proof.
  intros [Hw Hc]. destruct e as [text postThrows | data | | j postThrows |]; cbn [isReset];
    rewrite ?Nat.add_0_r; cbn [Worker.step].
  - unfold Worker.countTextTokens. destruct (String.eqb text ""); [split; assumption |].
    unfold Worker.initTokenizerWorker.
    destruct (Worker.worker st) as [w |] eqn:E; cbn [fst snd];
      match goal with
      | |- reused _ (Worker.attemptPostMessage ?r ?x ?t ?p ?s) =>
          destruct (attemptPostMessage_worker r x t p s) as [E1 E2];
          unfold reused; rewrite E1, E2; cbn
      end.
    + rewrite E. split; [exact Hw | exact Hc].
    + split; [intros w [= <-]; reflexivity | lia].
  - destruct data as [| id count error fallbackUsed]; cbn; [split; assumption |].
    destruct (Worker.pendingRequests st !! id); [| split; assumption].
    destruct (Worker.errorCallbacks st !! id); split; assumption.
  - unfold reused; cbn. split; [discriminate |]. destruct (Worker.worker st); lia.
  - unfold Worker.timeout.
    destruct (Worker.timers st !! j) as [[[requestId w] text] |]; [| split; assumption].
    match goal with
    | |- reused _ (Worker.attemptPostMessage ?r ?x ?t ?p ?s) =>
        destruct (attemptPostMessage_worker r x t p s) as [E1 E2];
        unfold reused; rewrite E1, E2; cbn
    end.
    split; assumption.
  - unfold Worker.terminateTokenizerWorker.
    destruct (Worker.worker st) as [w |] eqn:E; unfold reused; cbn.
    + split; [discriminate |]. cbn in Hc. lia.
    + rewrite E. split; [intros w Hw'; congruence |]. cbn in Hc. lia.
Qed.

Lemma run_reused events k st :
  reused k st -> reused (k + resets events) (Worker.run events st).
Proof.
  unfold Worker.run, resets. revert k st.
  induction events as [| e events IH]; intros k st Hr; cbn [foldl List.filter].
  - cbn. rewrite Nat.add_0_r. exact Hr.
  - pose proof (IH _ _ (step_reused k st e Hr)) as H.
    destruct (isReset e); cbn [length];
      [replace (k + S (length (List.filter isReset events)))%nat
         with (k + 1 + length (List.filter isReset events))%nat by lia; exact H
      | rewrite Nat.add_0_r in H; exact H].
Qed.

(** The worker is created lazily and reused: the handle is always the
    Worker object constructed last, a call that finds a handle
    constructs nothing, and the number of Worker objects constructed
    never exceeds one plus the number of worker errors and teardowns. *)
Theorem worker_is_reused (events : list Worker.event) :
  let st := Worker.run events Worker.init in
  (forall w, Worker.worker st = Some w -> Worker.created st = S w) /\
  (Worker.created st <= S (resets events))%nat /\
  (forall text postThrows,
     is_Some (Worker.worker st) ->
     Worker.created (Worker.countTextTokens text postThrows st) = Worker.created st /\
     Worker.worker (Worker.countTextTokens text postThrows st) = Worker.worker st).
Proof.
  intros st.
  assert (H0 : reused 0 Worker.init) by (split; [discriminate | cbn; lia]).
  destruct (run_reused events 0 Worker.init H0) as [Hw Hc]. fold st in Hw, Hc.
  split; [exact Hw |]. split; [cbn in Hc; destruct (Worker.worker st); lia |].
  intros text postThrows [w E]. unfold Worker.countTextTokens.
  destruct (String.eqb text ""); [auto |].
  unfold Worker.initTokenizerWorker. rewrite E.
  match goal with
  | |- context [Worker.attemptPostMessage ?r ?x ?t ?p ?s] =>
      destruct (attemptPostMessage_worker r x t p s) as [E1 E2]; rewrite E1, E2
  end.
  cbn. auto.
Qed.

Lemma count_snoc {A : Type} (f : A -> bool) (l : list A) (x : A) :
  length (List.filter f (l ++ [x])) = (length (List.filter f l) + (if f x then 1 else 0))%nat.
Proof.
  rewrite List.filter_app, length_app. cbn. destruct (f x); reflexivity.
Qed.

Lemma count_delete {A : Type} (f : A -> bool) (l : list A) (k : nat) (x : A) :
  l !! k = Some x ->
  (length (List.filter f (delete k l)) + (if f x then 1 else 0))%nat = length (List.filter f l).
Proof.
  revert k. induction l as [| y l IH]; intros [| k] Hk; try discriminate.
  - injection Hk as ->. change (delete 0%nat (x :: l)) with l.
    cbn [List.filter]. destruct (f x); cbn [length]; lia.
  - change (delete (S k) (y :: l)) with (y :: delete k l).
    change ((y :: l) !! S k) with (l !! k) in Hk. specialize (IH k Hk).
    cbn [List.filter]. destruct (f y); cbn [length]; lia.
Qed.

Lemma attemptPostMessage_attempts requestId w text postThrows st id :
  (armedFor id (Worker.attemptPostMessage requestId w text postThrows st)
   + postedFor id (Worker.attemptPostMessage requestId w text postThrows st)
   <= armedFor id st + postedFor id st + (if Nat.eqb requestId id then 1 else 0))%nat /\
  (requestId <> id ->
   armedFor id (Worker.attemptPostMessage requestId w text postThrows st) = armedFor id st /\
   postedFor id (Worker.attemptPostMessage requestId w text postThrows st) = postedFor id st) /\
  Worker.nextRequestId (Worker.attemptPostMessage requestId w text postThrows st)
    = Worker.nextRequestId st.
Proof.
  unfold Worker.attemptPostMessage, armedFor, postedFor.
  destruct (Worker.workerReady st); [destruct postThrows |]; cbn;
    rewrite ?count_snoc; cbn [fst snd].
  - split; [lia |]. auto.
  - split; [lia |]. split; [| reflexivity].
    intros Hne. rewrite (proj2 (Nat.eqb_neq requestId id) Hne). lia.
  - split; [lia |]. split; [| reflexivity].
    intros Hne. rewrite (proj2 (Nat.eqb_neq requestId id) Hne). lia.
Qed.

Lemma oneAttempt_init : oneAttempt Worker.init.
Proof. intros id. cbn. split; [lia | auto]. Qed.

Lemma step_oneAttempt st e : oneAttempt st -> oneAttempt (Worker.step st e).
Proof.
  intros Hone. destruct e as [text postThrows | data | | k postThrows |]; cbn [Worker.step].
  - unfold Worker.countTextTokens. destruct (String.eqb text ""); [exact Hone |].
    assert (Hinit : Worker.nextRequestId (fst (Worker.initTokenizerWorker st))
                      = Worker.nextRequestId st /\
                    Worker.timers (fst (Worker.initTokenizerWorker st)) = Worker.timers st /\
                    Worker.posted (fst (Worker.initTokenizerWorker st)) = Worker.posted st).
    { unfold Worker.initTokenizerWorker. destruct (Worker.worker st); cbn; auto. }
    destruct (Worker.initTokenizerWorker st) as [st1 w]. cbn [fst] in Hinit.
    destruct Hinit as (En & Et & Ep). intros id.
    match goal with
    | |- context [Worker.attemptPostMessage ?r ?x ?t ?p ?s] =>
        assert (Ha : armedFor id s = armedFor id st)
          by (unfold armedFor; cbn; rewrite Et; reflexivity);
        assert (Hp : postedFor id s = postedFor id st)
          by (unfold postedFor; cbn; rewrite Ep; reflexivity);
        destruct (attemptPostMessage_attempts r x t p s id) as (Hle & Hne & Hnext);
        rewrite Hnext
    end.
    rewrite Ha, Hp, En in Hle, Hne.
    destruct (Hone id) as [H1 H2]. cbn [Worker.nextRequestId]. rewrite En.
    destruct (Nat.eqb_spec (Worker.nextRequestId st) id) as [E | E].
    + destruct (H2 ltac:(lia)) as [Z1 Z2]. split; [lia | lia].
    + destruct (Hne E) as [-> ->]. split; [exact H1 |]. intros Hid. apply H2. lia.
  - assert (Hsame : Worker.timers (Worker.onmessage data st) = Worker.timers st /\
                    Worker.posted (Worker.onmessage data st) = Worker.posted st /\
                    Worker.nextRequestId (Worker.onmessage data st) = Worker.nextRequestId st).
    { destruct data as [| id count error fallbackUsed]; cbn; [auto |].
      destruct (Worker.pendingRequests st !! id); [| auto].
      destruct (Worker.errorCallbacks st !! id); auto. }
    destruct Hsame as (Et & Ep & En). intros id. unfold armedFor, postedFor.
    rewrite Et, Ep, En. apply Hone.
  - exact Hone.
  - unfold Worker.timeout.
    destruct (Worker.timers st !! k) as [[[requestId w] text] |] eqn:Hk; [| exact Hone].
    intros id.
    pose proof (count_delete (fun t => Nat.eqb (fst (fst t)) id) _ _ _ Hk) as Hdel.
    cbn [fst] in Hdel. fold (armedFor id st) in Hdel.
    match goal with
    | |- context [Worker.attemptPostMessage ?r ?x ?t ?p ?s] =>
        assert (Ha : (armedFor id s + (if Nat.eqb requestId id then 1 else 0))%nat
                     = armedFor id st) by exact Hdel;
        assert (Hp : postedFor id s = postedFor id st) by reflexivity;
        destruct (attemptPostMessage_attempts r x t p s id) as (Hle & Hne & Hnext);
        rewrite Hnext
    end.
    rewrite Hp in Hle, Hne.
    destruct (Hone id) as [H1 H2]. cbn [Worker.nextRequestId].
    destruct (Nat.eqb_spec requestId id) as [E | E].
    + split; [lia |]. intros Hid. destruct (H2 Hid) as [Z1 Z2]. lia.
    + destruct (Hne E) as [-> ->]. split; [lia |]. intros Hid.
      destruct (H2 Hid) as [Z1 Z2]. lia.
  - unfold Worker.terminateTokenizerWorker. destruct (Worker.worker st); exact Hone.
Qed.

Lemma run_oneAttempt events st : oneAttempt st -> oneAttempt (Worker.run events st).
Proof.
  unfold Worker.run. revert st. induction events as [| e events IH]; intros st H; cbn.
  - exact H.
  - apply IH, step_oneAttempt, H.
Qed.

(** However often the retry of a request fires, and whatever happens in
    between, the text of the request is posted to a worker at most once,
    and while a retry is armed it has not been posted. *)
Theorem request_posted_at_most_once (events : list Worker.event) (id : nat) :
  let st := Worker.run events Worker.init in
  (postedFor id st <= 1)%nat /\
  (armedFor id st + postedFor id st <= 1)%nat /\
  ((Worker.nextRequestId st <= id)%nat -> postedFor id st = 0%nat).
Proof.
  intros st. destruct (run_oneAttempt events Worker.init oneAttempt_init id) as [H1 H2].
  fold st in H1, H2. split; [lia |]. split; [exact H1 |]. intros Hid. apply H2, Hid.
Qed.

(** ** A request is always answered with a count *)

Lemma fallbackCount_nonneg (text : string) : 0 <= Tokenizer.fallbackCount text.
Proof.
  unfold Tokenizer.fallbackCount.
  change 0 with (Qceiling 0). apply Qceiling_resp_le.
  apply Qle_shift_div_l; [reflexivity |].
  change (0 * 4)%Q with (inject_Z 0). rewrite <- Zle_Qle. lia.
Qed.

(** Every request that carries an id and a string is answered, with the
    id of the request and a count that is not negative: the number of
    tokens of the text without its special-token markers, or the
    estimate of a quarter of the length when there is no encoder or the
    encoder throws.  Handed to the main thread while the request is
    registered, the answer fulfils the promise of the request with that
    count: a failure of the encoder never rejects a request. *)
Theorem request_is_answered (events : list Worker.event) (id : nat)
    (enc : option (string -> result (list nat))) (text : string) :
  let st := Worker.run events Worker.init in
  is_Some (Worker.pendingRequests st !! id) ->
  exists r,
    Tokenizer.onmessage enc (Tokenizer.mkRequest (Some id) (Some text)) = Some r /\
    Tokenizer.replyId r = id /\
    0 <= Tokenizer.count r /\
    Tokenizer.count r =
      match enc with
      | Some encode =>
          if String.eqb text "" then 0
          else match encode (Tokenizer.cleanText text) with
               | Ok tokens => Z.of_nat (length tokens)
               | Throw _ => Tokenizer.fallbackCount text
               end
      | None => Tokenizer.fallbackCount text
      end /\
    Worker.promises (Worker.onmessage (Tokenizer.toMessage r) st) !! id
      = Some (Worker.Fulfilled (Tokenizer.count r)).
Proof.
  intros st [resolve Hres].
  destruct (run_registered events Worker.init registered_init) as (Hp & He & Hn).
  fold st in Hp, He, Hn. destruct (Hp id resolve Hres) as (-> & Eid & Pid).
  assert (Hsettle : forall r,
    Tokenizer.replyId r = id ->
    (Tokenizer.error r = true -> Tokenizer.fallbackUsed r = true) ->
    Worker.promises (Worker.onmessage (Tokenizer.toMessage r) st) !! id
    = Some (Worker.Fulfilled (Tokenizer.count r))).
  { intros [rid n err fb]; cbn. intros -> Hfb. rewrite Hres, Eid.
    destruct err; [rewrite (Hfb eq_refl) |]; cbn; apply settle_eq, Pid. }
  pose proof (fallbackCount_nonneg text) as Hfall.
  unfold Tokenizer.onmessage; cbn [Tokenizer.id Tokenizer.text].
  destruct enc as [encode |].
  - destruct (String.eqb text "").
    + eexists. split; [reflexivity |]. cbn. split; [reflexivity |]. split; [lia |].
      split; [reflexivity |]. apply (Hsettle (Tokenizer.mkReply id 0 false false)); [reflexivity | discriminate].
    + destruct (encode (Tokenizer.cleanText text)) as [tokens | e].
      * eexists. split; [reflexivity |]. cbn. split; [reflexivity |]. split; [lia |].
        split; [reflexivity |].
        apply (Hsettle (Tokenizer.mkReply id (Z.of_nat (length tokens)) false false));
          [reflexivity | discriminate].
      * eexists. split; [reflexivity |]. cbn. split; [reflexivity |]. split; [exact Hfall |].
        split; [reflexivity |].
        apply (Hsettle (Tokenizer.mkReply id (Tokenizer.fallbackCount text) true true)); auto.
  - eexists. split; [reflexivity |]. cbn. split; [reflexivity |]. split; [exact Hfall |].
    split; [reflexivity |].
    apply (Hsettle (Tokenizer.mkReply id (Tokenizer.fallbackCount text) true true)); auto.
Qed.

Lemma request_is_answered_witness :
  is_Some (Worker.pendingRequests outstanding !! 0%nat) /\
  exists r,
    Tokenizer.onmessage (Some brokenEncoder) (Tokenizer.mkRequest (Some 0%nat) (Some "abcde"))
      = Some r /\
    Tokenizer.count r = 2 /\
    Worker.promises (Worker.onmessage (Tokenizer.toMessage r) outstanding) !! 0%nat
      = Some (Worker.Fulfilled (Tokenizer.count r)).
Proof.
  assert (H : is_Some (Worker.pendingRequests outstanding !! 0%nat)) by (vm_compute; eauto).
  split; [exact H |].
  destruct (request_is_answered
              [ Worker.Call "abcd" false; Worker.OnMessage Worker.WORKER_READY;
                Worker.Timeout 0 false ] 0%nat (Some brokenEncoder) "abcde" H)
    as (r & Hr & _ & _ & Hc & Hs).
  exists r. split; [exact Hr |]. split; [| exact Hs].
  rewrite Hc. vm_compute. reflexivity.
Defined.

(** The markers are removed in one pass each: a marker that only forms
    when another one is taken out stays in the text. *)
Example cleanText_markers :
  Tokenizer.cleanText "a<|endoftext|>b<|im_start|>c<|im_end|>d" = "abcd" /\
  Tokenizer.cleanText "<|im_<|im_end|>end|>" = "<|im_end|>".
Proof. split; vm_compute; reflexivity. Qed.

(** ** Conversations without a valid date *)

Lemma invalid_date (unixTime : number) :
  timeValue unixTime = None ->
  getDayKey unixTime = "NaN-NaN-NaN" /\ getHourOfDay unixTime = NaN.
Proof.
  unfold timeValue, getDayKey, getHourOfDay. intros ->. split; reflexivity.
Qed.

Lemma valid_date_hour (unixTime : number) :
  is_Some (timeValue unixTime) -> validHour (getHourOfDay unixTime).
Proof.
  unfold timeValue, getHourOfDay. intros [ms ->]. cbn.
  apply Z.mod_pos_bound. reflexivity.
Qed.

Lemma imageGenerationUsage_invalid costs dayKey hour msg a used :
  everyBucket fullDay a -> ~ validHour hour ->
  imageGenerationUsage costs dayKey hour msg (a, used) =
    if 0 <? countImages (default [] (Message.content msg ≫= Content.parts))
    then Throw TypeError else Ok (a, used).
Proof.
  intros Ha Hh. rewrite imageGenerationUsage_eq. cbv zeta.
  destruct (0 <? _); [| reflexivity].
  destruct (String.eqb _ "dalle.text2im"); rewrite update_fails by assumption; reflexivity.
Qed.

Lemma flatStep_invalid costs dayKey hour st m :
  everyBucket fullDay (agg st) -> ~ validHour hour ->
  if commits m then flatStep costs dayKey hour st m = Throw TypeError
  else exists st', flatStep costs dayKey hour st m = Ok st' /\ agg st' = agg st.
Proof.
  intros Ha Hh. unfold flatStep, commits.
  fold (roleOf m) (contentOf m) (searchOf m) (outputOf m) (slugOf m).
  destruct (FlatMsg.isReasoningRecap m); cbn; [eauto |].
  destruct (isContextRole (roleOf m)) eqn:Hrole.
  { rewrite (contextRole_not_assistant _ Hrole). cbn. eauto. }
  destruct (String.eqb (roleOf m) "assistant"); cbn; [| eauto].
  destruct (FlatMsg.isFinalMessage m); [| eauto].
  rewrite update_fails by assumption. reflexivity.
Qed.

Lemma flatLoop_invalid costs dayKey hour msgs st :
  everyBucket fullDay (agg st) -> ~ validHour hour ->
  if existsb commits msgs then forM (flatStep costs dayKey hour) msgs st = Throw TypeError
  else exists st', forM (flatStep costs dayKey hour) msgs st = Ok st' /\ agg st' = agg st.
Proof.
  intros Ha Hh. revert st Ha. induction msgs as [| m msgs IH]; intros st Ha; cbn [existsb forM].
  - eauto.
  - pose proof (flatStep_invalid costs dayKey hour st m Ha Hh) as Hm.
    destruct (commits m); cbn [orb].
    + rewrite Hm. reflexivity.
    + destruct Hm as (st1 & -> & E1). cbn.
      assert (Ha1 : everyBucket fullDay (agg st1)) by (rewrite E1; exact Ha).
      specialize (IH st1 Ha1). destruct (existsb commits msgs); [exact IH |].
      destruct IH as (st' & -> & E'). exists st'. split; [reflexivity | congruence].
Qed.

Section Invalid.

Variable encode : string -> Z.
Variable JSON_stringify : json -> string.

Lemma walkStep_invalid costs dayKey hour st entry :
  everyBucket fullDay (Walk.agg st) -> ~ validHour hour ->
  if recordsImages entry
  then walkStep encode JSON_stringify costs dayKey hour st entry = Throw TypeError
  else exists st', walkStep encode JSON_stringify costs dayKey hour st entry = Ok st' /\
                   Walk.agg st' = Walk.agg st.
Proof.
  intros Ha Hh. unfold walkStep, recordsImages.
  destruct (Node.message (snd entry)) as [msg |]; [| eauto].
  destruct (String.eqb _ "tool"); cbn [andb]; [| cbn; eauto].
  rewrite imageGenerationUsage_invalid by assumption.
  destruct (0 <? _); cbn; eauto.
Qed.

Lemma walkLoop_invalid costs dayKey hour mapping st :
  everyBucket fullDay (Walk.agg st) -> ~ validHour hour ->
  if existsb recordsImages mapping
  then forM (walkStep encode JSON_stringify costs dayKey hour) mapping st = Throw TypeError
  else exists st', forM (walkStep encode JSON_stringify costs dayKey hour) mapping st = Ok st' /\
                   Walk.agg st' = Walk.agg st.
Proof.
  intros Ha Hh. revert st Ha.
  induction mapping as [| entry mapping IH]; intros st Ha; cbn [existsb forM].
  - eauto.
  - pose proof (walkStep_invalid costs dayKey hour st entry Ha Hh) as He.
    destruct (recordsImages entry); cbn [orb].
    + rewrite He. reflexivity.
    + destruct He as (st1 & -> & E1). cbn.
      assert (Ha1 : everyBucket fullDay (Walk.agg st1)) by (rewrite E1; exact Ha).
      specialize (IH st1 Ha1). destruct (existsb recordsImages mapping); [exact IH |].
      destruct IH as (st' & -> & E'). exists st'. split; [reflexivity | congruence].
Qed.

Lemma processMappedMessages_invalid costs mapping dayKey hour a :
  everyBucket fullDay a -> ~ validHour hour ->
  processMappedMessages encode JSON_stringify costs mapping dayKey hour a =
    if attemptsUpdate encode JSON_stringify mapping then Throw TypeError
    else Ok (a, discoveredModels (flattenAll encode JSON_stringify mapping) ∪ walkModels mapping).
Proof.
  intros Ha Hh. unfold attemptsUpdate.
  destruct (processMappedMessages encode JSON_stringify costs mapping dayKey hour a)
    as [[a' used] | []] eqn:Hp.
  - (* it returned: no update was attempted, and the aggregator is as it was *)
    destruct (processMappedMessages_Ok _ _ _ _ _ _ _ _ _ Hp) as [_ ->].
    revert Hp. unfold processMappedMessages.
    pose proof (walkLoop_invalid costs dayKey hour mapping (Walk.mk [] ∅ a) Ha Hh) as Hw.
    destruct (existsb recordsImages mapping); [rewrite Hw; discriminate |].
    destruct Hw as (st & Hst & Est). rewrite Hst. cbn [mbind result_bind orb].
    cbn in Est.
    destruct (walkLoop_Ok _ _ _ _ _ _ _ _ Hst) as (_ & _ & Hn). cbn in Hn. rewrite Hn.
    unfold processFlatMessagesWithTokenCounts, flatRun.
    pose proof (flatLoop_invalid costs dayKey hour (flattenAll encode JSON_stringify mapping)
                  (flatInit (Walk.agg st))) as Hf.
    cbn [agg flatInit] in Hf. rewrite Est in *. specialize (Hf Ha Hh).
    destruct (existsb commits _); [rewrite Hf; discriminate |].
    destruct Hf as (fs & -> & Efs). cbn. intros [= <- _]. rewrite Efs. reflexivity.
  - (* it threw: an update was attempted *)
    revert Hp. unfold processMappedMessages.
    pose proof (walkLoop_invalid costs dayKey hour mapping (Walk.mk [] ∅ a) Ha Hh) as Hw.
    destruct (existsb recordsImages mapping); [reflexivity |].
    destruct Hw as (st & Hst & Est). rewrite Hst. cbn [mbind result_bind orb].
    cbn in Est.
    destruct (walkLoop_Ok _ _ _ _ _ _ _ _ Hst) as (_ & _ & Hn). cbn in Hn. rewrite Hn.
    unfold processFlatMessagesWithTokenCounts, flatRun.
    pose proof (flatLoop_invalid costs dayKey hour (flattenAll encode JSON_stringify mapping)
                  (flatInit (Walk.agg st))) as Hf.
    cbn [agg flatInit] in Hf. rewrite Est in *. specialize (Hf Ha Hh).
    destruct (existsb commits _); [reflexivity |].
    destruct Hf as (fs & -> & Efs). cbn. discriminate.
Qed.

Lemma processConversation_invalid now costs c a :
  timeValue (conversationTimestamp now c) = None ->
  everyBucket fullDay a ->
  processConversation encode JSON_stringify now costs c a =
    if attemptsUpdate encode JSON_stringify (default [] (Conversation.mapping c))
    then Throw TypeError
    else
      a' ← rollup "NaN-NaN-NaN" (conversationModels encode JSON_stringify c)
             (ensureDay "NaN-NaN-NaN" a);
      Ok (a', conversationModels encode JSON_stringify c).
Proof.
  intros Ht Ha. destruct (invalid_date _ Ht) as [Hd Hh].
  unfold processConversation, dayAndHour, conversationModels. cbn [tryCatch].
  rewrite Hd, Hh.
  destruct (Conversation.mapping c) as [mapping |]; cbn [default id].
  - rewrite processMappedMessages_invalid;
      [| apply (everyBucket_ensure fullDay create_fullDay), Ha | intros []].
    destruct (attemptsUpdate encode JSON_stringify mapping); reflexivity.
  - reflexivity.
Qed.


End Invalid.


(** ** When a run throws *)

Lemma rollup_present dayKey used a a' d :
  rollup dayKey used a = Ok a' ->
  is_Some (Aggregator.usageByDay a !! d) -> is_Some (Aggregator.usageByDay a' !! d).
Proof.
  unfold rollup. destruct (_ && _)%bool; [| intros [= <-]; auto].
  destruct (Aggregator.usageByDay a !! dayKey); [| discriminate].
  intros [= <-] Hd. rewrite usageByDay_set, lookup_insert. case_decide; [eauto | exact Hd].
Qed.

Lemma everyBucket_addSlugs (P : BucketWithHours.t -> Prop) used a :
  everyBucket P a -> everyBucket P (addSlugs used a).
Proof. intros H. exact H. Qed.

Section Run.

Variable encode : string -> Z.
Variable JSON_stringify : json -> string.

Lemma conversationStep_outcome now costs a c :
  everyBucket fullDay a ->
  if breaksRun encode JSON_stringify now c
  then processConversation encode JSON_stringify now costs c a = Throw TypeError
  else exists a' used,
         processConversation encode JSON_stringify now costs c a = Ok (a', used) /\
         everyBucket fullDay a'.
Proof.
  intros Ha. unfold breaksRun.
  destruct (timeValue (conversationTimestamp now c)) as [ms |] eqn:Ht.
  - rewrite bool_decide_eq_false_2 by discriminate. cbn [andb].
    apply processConversation_succeeds; [| exact Ha].
    unfold dayAndHour. cbn. apply valid_date_hour. rewrite Ht. eauto.
  - rewrite bool_decide_eq_true_2 by reflexivity. cbn [andb].
    rewrite (processConversation_invalid encode JSON_stringify now costs c a Ht Ha).
    destruct (attemptsUpdate encode JSON_stringify _); [reflexivity |].
    assert (He : everyBucket fullDay (ensureDay "NaN-NaN-NaN" a))
      by (apply (everyBucket_ensure fullDay create_fullDay), Ha).
    destruct (rollup_succeeds "NaN-NaN-NaN" (conversationModels encode JSON_stringify c)
                (ensureDay "NaN-NaN-NaN" a)) as [a' Hr].
    { intros Hd. apply ensureDay_present, Hd. }
    rewrite Hr. cbn. do 2 eexists. split; [reflexivity |].
    eapply (everyBucket_rollup fullDay create_fullDay (fun b H => H)); eassumption.
Qed.



End Run.


(** ** The days of a run *)

Lemma dayKeyOf_not_sentinel now c : dayKeyOf now c <> "unknown-day".
Proof. unfold dayKeyOf, dayAndHour. cbn. apply getDayKey_not_sentinel. Qed.

Section Days.

Variable encode : string -> Z.
Variable JSON_stringify : json -> string.

Lemma processConversation_days now costs c a a' used d :
  processConversation encode JSON_stringify now costs c a = Ok (a', used) ->
  is_Some (Aggregator.usageByDay a' !! d)
  <-> d = dayKeyOf now c \/ is_Some (Aggregator.usageByDay a !! d).
Proof.
  intros H. destruct (decide (d = dayKeyOf now c)) as [-> | Hd].
  - split; [auto |]. intros _.
    destruct (processConversation_Ok _ _ _ _ _ _ _ _ H) as (a2 & U & R & _).
    eapply rollup_present; [exact R |]. eapply updated_present; [exact U |].
    apply ensureDay_present, dayKeyOf_not_sentinel.
  - rewrite (processConversation_elsewhere _ _ _ _ _ _ _ _ d H Hd). tauto.
Qed.

Lemma conversationLoop_days now costs data a a' d :
  forM (conversationStep encode JSON_stringify now costs) data a = Ok a' ->
  is_Some (Aggregator.usageByDay a' !! d)
  <-> (exists c, c ∈ conversationsOf data /\ dayKeyOf now c = d)
      \/ is_Some (Aggregator.usageByDay a !! d).
Proof.
  revert a. induction data as [| entry data IH]; intros a; cbn [forM].
  - intros [= <-]. split; [auto |]. intros [(c & Hc & _) | H]; [| exact H].
    apply elem_of_nil in Hc. contradiction.
  - rewrite conversationsOf_cons. destruct entry as [c |]; cbn -[processConversation].
    + destruct (processConversation encode JSON_stringify now costs c a)
        as [[a1 used] |] eqn:Hc; cbn; [| discriminate].
      intros Hrest. rewrite (IH _ Hrest).
      change (Aggregator.usageByDay (addSlugs used a1)) with (Aggregator.usageByDay a1).
      rewrite (processConversation_days _ _ _ _ _ _ d Hc). split.
      * intros [(c' & Hc' & Hd) | [-> | H]]; [left | left | right; exact H].
        -- exists c'. split; [apply elem_of_cons; right; exact Hc' | exact Hd].
        -- exists c. split; [apply list_elem_of_here | reflexivity].
      * intros [(c' & Hc' & Hd) | H]; [| right; right; exact H].
        apply elem_of_cons in Hc' as [E | Hc']; [right; left; rewrite <- Hd, E; reflexivity |].
        left. exists c'. auto.
    + apply IH.
Qed.

(** The aggregator of a run has a day bucket for the day of each
    conversation entry of the input, whether or not the conversation
    recorded any usage, and has no other day bucket; in particular it
    never has the bucket "unknown-day". *)
Theorem day_buckets_are_conversation_days now costs data a :
  processConversations encode JSON_stringify now costs data = Ok a ->
  (forall d, is_Some (Aggregator.usageByDay a !! d)
             <-> exists c, c ∈ conversationsOf data /\ dayKeyOf now c = d) /\
  Aggregator.usageByDay a !! "unknown-day" = None.
Proof.
  intros H. destruct (processConversations_Ok _ _ _ _ _ _ H) as (a0 & a1 & H0 & Hloop & Hu).
  assert (Hd : forall d, is_Some (Aggregator.usageByDay a !! d)
                         <-> exists c, c ∈ conversationsOf data /\ dayKeyOf now c = d).
  { intros d. rewrite Hu, (conversationLoop_days _ _ _ _ _ d Hloop), H0, lookup_empty.
    split; [intros [Hc | [x Hx]]; [exact Hc | discriminate] | auto]. }
  split; [exact Hd |].
  destruct (Aggregator.usageByDay a !! "unknown-day") as [b |] eqn:E; [| reflexivity].
  destruct (proj1 (Hd "unknown-day")) as (c & _ & Hc); [rewrite E; eauto |].
  exfalso. exact (dayKeyOf_not_sentinel now c Hc).
Qed.

End Days.

Lemma day_buckets_are_conversation_days_witness :
  run 0 sampleData = Ok sampleResult /\
  Aggregator.usageByDay sampleResult !! "unknown-day" = None.
Proof.
  assert (H : run 0 sampleData = Ok sampleResult) by (vm_compute; reflexivity).
  split; [exact H |].
  exact (proj2 (day_buckets_are_conversation_days perCharacter noBlob 0 MODEL_COSTS
                  sampleData sampleResult H)).
Defined.

(** ** Bounds of the image token estimate *)

Lemma tiles_bound (x : Q) :
  (0 <= x)%Q -> (x <= 2048)%Q -> 0 <= Qceiling (x / 512) <= 4.
Proof.
  intros H0 H1. split.
  - change 0 with (Qceiling 0). apply Qceiling_resp_le.
    apply Qle_shift_div_l; [reflexivity |]. rewrite Qmult_0_l. exact H0.
  - change 4 with (Qceiling 4). apply Qceiling_resp_le.
    apply Qle_shift_div_r; [reflexivity |]. exact H1.
Qed.

Lemma tiles_positive (x : Q) : (0 < x)%Q -> 1 <= Qceiling (x / 512).
Proof.
  intros H0. assert (H : 0 < Qceiling (x / 512)); [| lia].
  rewrite Zlt_Qlt. apply Qlt_le_trans with (x / 512)%Q; [| apply Qle_ceiling].
  apply Qlt_shift_div_l; [reflexivity |]. rewrite Qmult_0_l. exact H0.
Qed.

Lemma floor_bound (x : Q) :
  (0 <= x)%Q -> (x <= 2048)%Q ->
  (0 <= inject_Z (Qfloor x))%Q /\ (inject_Z (Qfloor x) <= 2048)%Q.
Proof.
  intros H0 H1. split.
  - change 0%Q with (inject_Z 0). rewrite <- Zle_Qle.
    change 0 with (Qfloor 0). apply Qfloor_resp_le, H0.
  - apply Qle_trans with x; [apply Qfloor_le | exact H1].
Qed.

(** On positive sizes the estimate lies between 85 and 2805 tokens
    whatever the size and the detail level: the scaled image has at most
    4 x 4 tiles; and an image that needs no scaling and is not of low
    detail costs at least 255 tokens, the base and one tile. *)
Theorem countImageTokens_bounds (width height : Q) (detail : string) :
  (0 < width)%Q -> (0 < height)%Q ->
  85 <= countImageTokens width height detail <= 2805 /\
  (String.eqb (toLowerCase detail) "low" = false ->
   (width <= 2048)%Q -> (height <= 2048)%Q ->
   255 <= countImageTokens width height detail).
Proof.
  intros Hw Hh. unfold countImageTokens.
  destruct (String.eqb (toLowerCase detail) "low"); [split; [lia | discriminate] |].
  assert (Hr : (0 < width / height)%Q).
  { apply Qlt_shift_div_l; [exact Hh |]. rewrite Qmult_0_l. exact Hw. }
  destruct (Qgtb width 2048 || Qgtb height 2048)%bool eqn:Hbig.
  - assert (Hscaled : forall a b : Q,
              (0 <= a)%Q -> (a <= 2048)%Q -> (0 <= b)%Q -> (b <= 2048)%Q ->
              85 <= 85 + 170 * (Qceiling (a / 512) * Qceiling (b / 512)) <= 2805).
    { intros a b Ha0 Ha1 Hb0 Hb1.
      pose proof (tiles_bound a Ha0 Ha1). pose proof (tiles_bound b Hb0 Hb1). nia. }
    split.
    + destruct (Qgtb (width / height) 1) eqn:Hratio.
      * apply Qgtb_true in Hratio.
        destruct (floor_bound (2048 / (width / height))) as [F0 F1].
        { apply Qle_shift_div_l; [exact Hr |]. rewrite Qmult_0_l. discriminate. }
        { apply Qle_shift_div_r; [exact Hr |].
          rewrite <- (Qmult_1_r 2048) at 1. apply Qmult_le_l; [reflexivity |].
          apply Qlt_le_weak, Hratio. }
        apply Hscaled; [discriminate | apply Qle_refl | exact F0 | exact F1].
      * apply Qgtb_false in Hratio.
        destruct (floor_bound (2048 * (width / height))) as [F0 F1].
        { apply Qmult_le_0_compat; [discriminate | apply Qlt_le_weak, Hr]. }
        { rewrite <- (Qmult_1_r 2048) at 2. apply Qmult_le_l; [reflexivity | exact Hratio]. }
        apply Hscaled; [exact F0 | exact F1 | discriminate | apply Qle_refl].
    + intros _ Hw2 Hh2. apply orb_true_iff in Hbig as [H | H]; apply Qgtb_true in H.
      * exfalso. exact (Qlt_not_le _ _ H Hw2).
      * exfalso. exact (Qlt_not_le _ _ H Hh2).
  - apply orb_false_iff in Hbig as [Hw2 Hh2].
    apply Qgtb_false in Hw2. apply Qgtb_false in Hh2.
    pose proof (tiles_bound width (Qlt_le_weak _ _ Hw) Hw2).
    pose proof (tiles_bound height (Qlt_le_weak _ _ Hh) Hh2).
    pose proof (tiles_positive width Hw). pose proof (tiles_positive height Hh).
    split; [nia |]. intros _ _ _. nia.
Qed.

Lemma countImageTokens_bounds_witness :
  (0 < 100000)%Q /\ (0 < 1)%Q /\
  85 <= countImageTokens 100000 1 "high" <= 2805.
Proof.
  split; [reflexivity |]. split; [reflexivity |].
  apply (countImageTokens_bounds 100000 1 "high"); reflexivity.
Defined.

(** A long thin image is scaled to no tile at all. *)
Example thin_image_has_no_tile :
  countImageTokens 100000 1 "high" = 85 /\ countImageTokens 2048 2048 "auto" = 2805.
Proof. split; vm_compute; reflexivity. Qed.

(** ** Token counts of the flattened entries *)

Lemma sumZ_nonneg (l : list Z) : Forall (fun z => 0 <= z) l -> 0 <= sumZ l.
Proof.
  induction 1 as [| z l Hz _ IH]; [reflexivity |]. rewrite sumZ_cons. lia.
Qed.

Lemma sumZ_fmap_nonneg {A : Type} (f : A -> Z) (l : list A) :
  (forall x, 0 <= f x) -> 0 <= sumZ (f <$> l).
Proof.
  intros Hf. apply sumZ_nonneg. apply Forall_fmap, Forall_forall. intros x _. apply Hf.
Qed.

Section Counts.

Variable encode : string -> Z.
Variable JSON_stringify : json -> string.
Hypothesis encode_nonneg : forall text, 0 <= encode text.

Lemma countTextTokens_nonneg (text : string) : 0 <= countTextTokens encode text.
Proof. unfold countTextTokens. destruct (String.eqb text ""); [lia | apply encode_nonneg]. Qed.

Lemma textTokens_nonneg (o : option string) : 0 <= textTokens encode o.
Proof. destruct o; cbn; [apply countTextTokens_nonneg | lia]. Qed.

Lemma assistantOutputTokens_nonneg (msg : Message.t) : 0 <= assistantOutputTokens encode msg.
Proof.
  unfold assistantOutputTokens.
  assert (H1 : 0 <= (if strIs (Message.content msg ≫= Content.content_type) "thoughts"
                     then match Message.content msg ≫= Content.thoughts with
                          | Some thoughts => sumZ (thoughtTokens encode <$> thoughts)
                          | None => 0
                          end
                     else 0)).
  { destruct (strIs _ "thoughts"); [| lia].
    destruct (Message.content msg ≫= Content.thoughts); [| lia].
    apply sumZ_fmap_nonneg. intros t. unfold thoughtTokens.
    pose proof (textTokens_nonneg (Thought.content t)).
    pose proof (textTokens_nonneg (Thought.summary t)). lia. }
  assert (H2 : 0 <= (if strIs (Message.content msg ≫= Content.content_type) "code"
                     then textTokens encode (Message.content msg ≫= Content.text) else 0)).
  { destruct (strIs _ "code"); [apply textTokens_nonneg | lia]. }
  assert (H3 : 0 <= match Message.content msg ≫= Content.parts with
                    | Some parts => sumZ (assistantPartOutput encode <$> parts)
                    | None => 0
                    end).
  { destruct (Message.content msg ≫= Content.parts); [| lia].
    apply sumZ_fmap_nonneg. intros [s | o |]; cbn; [apply countTextTokens_nonneg | | lia].
    destruct (isImageAsset o); lia. }
  pose proof (textTokens_nonneg (Message.content msg ≫= Content.text)). lia.
Qed.

Lemma toolSearchTokens_nonneg (msg : Message.t) :
  0 <= toolSearchTokens encode JSON_stringify msg.
Proof.
  unfold toolSearchTokens.
  destruct (Message.metadata msg ≫= Metadata.search_result_groups) as [groups |]; [| lia].
  destruct (truthy groups); [apply countTextTokens_nonneg | lia].
Qed.

(** When the encoder counts no text negative, the search tokens and the
    output tokens of every entry the walker flattens are not negative;
    the entries therefore meet the condition under which the loop over
    them is the rolling-context accumulator. *)
Theorem flattened_counts_nonneg (mapping : list (string * Node.t)) :
  Forall (fun m => 0 <= searchOf m /\ 0 <= outputOf m)
         (flattenAll encode JSON_stringify mapping) /\
  forall costs dayKey hour a,
    flatRun costs dayKey hour (flattenAll encode JSON_stringify mapping) a =
      (a' ← forM (commit costs dayKey hour)
               (snd (accumulateAll noTokens (flattenAll encode JSON_stringify mapping))) a;
       Ok {| rollingContextTokens :=
               contextTokens (fst (accumulateAll noTokens
                                     (flattenAll encode JSON_stringify mapping)));
             rollingOutputTokens :=
               pendingOutputTokens (fst (accumulateAll noTokens
                                           (flattenAll encode JSON_stringify mapping)));
             modelsUsed := discoveredModels (flattenAll encode JSON_stringify mapping);
             agg := a' |}).
Proof.
  assert (Hall : Forall (fun m => 0 <= searchOf m /\ 0 <= outputOf m)
                        (flattenAll encode JSON_stringify mapping)).
  { apply Forall_forall. intros m Hm.
    unfold flattenAll in Hm. apply list_elem_of_bind in Hm as ([key node] & Hm & _).
    unfold flattenNode in Hm. cbn [snd] in Hm.
    destruct (Node.message node) as [msg |]; [| apply elem_of_nil in Hm; contradiction].
    apply list_elem_of_singleton in Hm as ->.
    unfold searchOf, outputOf, flattenMessage.
    cbn [FlatMsg.searchTokens FlatMsg.outputTokens default id].
    split.
    - match goal with |- 0 <= (if ?b then _ else _) => destruct b end;
        [apply toolSearchTokens_nonneg | lia].
    - match goal with |- 0 <= (if ?b then _ else _) => destruct b end;
        [apply assistantOutputTokens_nonneg | lia]. }
  split; [exact Hall |].
  intros costs dayKey hour a. unfold flatRun.
  rewrite flatRun_accumulateAll; [reflexivity |].
  eapply Forall_impl; [exact Hall |]. intros m [H _]. exact H.
Qed.

End Counts.

Lemma perCharacter_nonneg (text : string) : 0 <= perCharacter text.
Proof. unfold perCharacter. lia. Qed.

Lemma flattened_counts_nonneg_witness :
  (forall text, 0 <= perCharacter text) /\
  Forall (fun m => 0 <= searchOf m /\ 0 <= outputOf m)
         (flattenAll perCharacter noBlob oneTurnMapping).
Proof.
  split; [exact perCharacter_nonneg |].
  exact (proj1 (flattened_counts_nonneg perCharacter noBlob perCharacter_nonneg oneTurnMapping)).
Defined.

(** ** A conversation is booked on one day and one hour *)

Lemma sameSlot_refl dayKey n a : sameSlot dayKey n a a.
Proof. split; reflexivity. Qed.

Lemma sameSlot_trans dayKey n a b c :
  sameSlot dayKey n a b -> sameSlot dayKey n b c -> sameSlot dayKey n a c.
Proof. intros [T1 M1] [T2 M2]. split; [congruence |]. intros slug. rewrite M2. apply M1. Qed.

Lemma update_sameSlot costs a dayKey hour slug i o a' (n : nat) :
  updateAggregatorUsage costs a dayKey hour slug i o = Ok a' ->
  hour <> Int (Z.of_nat n) -> sameSlot dayKey n a a'.
Proof.
  intros Hup Hn.
  destruct (dayTotal_update _ _ _ _ _ _ _ _ Hup) as (th & Ht & Et).
  destruct (modelTotal_update _ _ _ _ _ _ _ _ Hup) as (mh & Hm & Em).
  split.
  - rewrite Et. cbn. eapply addToHour_elsewhere; eassumption.
  - intros s. destruct (decide (s = slug)) as [-> | Hs].
    + rewrite Em. cbn. eapply addToHour_elsewhere; eassumption.
    + destruct (updateAggregatorUsage_Ok _ _ _ _ _ _ _ _ Hup) as (mh' & th' & _ & _ & ->).
      unfold modelTotal. unfold dayBucketOf at 1.
      rewrite usageByDay_set, lookup_insert_eq. cbn.
      rewrite lookup_insert_ne by congruence. reflexivity.
Qed.

Lemma updated_sameSlot costs dayKey hour a a' (n : nat) :
  updated costs dayKey hour a a' -> hour <> Int (Z.of_nat n) -> sameSlot dayKey n a a'.
Proof.
  induction 1 as [| a slug i o a' a'' Hup _ IH]; intros Hn; [apply sameSlot_refl |].
  eapply sameSlot_trans; [eapply update_sameSlot; eassumption | exact (IH Hn)].
Qed.

Lemma bumpModels_hours (models : gmap string BucketWithHours.t) (l : list string) (s : string) :
  BucketWithHours.hours (default createBucketWithHours (foldr bumpModel models l !! s))
  = BucketWithHours.hours (default createBucketWithHours (models !! s)).
Proof.
  induction l as [| x l IH]; cbn; [reflexivity |].
  unfold bumpModel at 1. destruct (decide (x = s)) as [-> | Hs].
  - rewrite lookup_insert_eq. cbn. exact IH.
  - rewrite lookup_insert_ne by exact Hs. exact IH.
Qed.

Lemma rollup_sameSlot dayKey used a a' d (n : nat) :
  rollup dayKey used a = Ok a' -> sameSlot d n a a'.
Proof.
  unfold rollup. destruct (_ && _)%bool; [| intros [= <-]; apply sameSlot_refl].
  destruct (Aggregator.usageByDay a !! dayKey) as [db |] eqn:Hl; [| discriminate].
  intros [= <-]. unfold sameSlot, modelTotal, dayTotal, dayBucketOf.
  rewrite usageByDay_set. destruct (decide (dayKey = d)) as [<- | Hd].
  - rewrite lookup_insert_eq, Hl. cbn. split; [reflexivity |].
    intros slug. rewrite bumpModels_hours. reflexivity.
  - rewrite lookup_insert_ne by exact Hd. split; reflexivity.
Qed.

Lemma ensureDay_sameSlot dayKey a d (n : nat) : sameSlot d n a (ensureDay dayKey a).
Proof. unfold sameSlot, modelTotal, dayTotal. rewrite ensureDay_bucket. split; reflexivity. Qed.

Section OneHour.

Variable encode : string -> Z.
Variable JSON_stringify : json -> string.

(** All the usage of a conversation is recorded on the day and in the
    hour of the conversation's own timestamp, whenever its messages were
    written: processing it leaves every other day bucket and, on its
    day, every other hour slot of the total and of every model as they
    were. *)
Theorem conversation_books_one_hour now costs c a a' used :
  processConversation encode JSON_stringify now costs c a = Ok (a', used) ->
  (forall d, d <> dayKeyOf now c ->
     Aggregator.usageByDay a' !! d = Aggregator.usageByDay a !! d) /\
  (forall n : nat, snd (dayAndHour now c) <> Int (Z.of_nat n) ->
     sameSlot (dayKeyOf now c) n a a').
Proof.
  intros H. split.
  - intros d Hd. eapply processConversation_elsewhere; eassumption.
  - intros n Hn. destruct (processConversation_Ok _ _ _ _ _ _ _ _ H) as (a2 & U & R & _).
    eapply sameSlot_trans; [apply (ensureDay_sameSlot (dayKeyOf now c)) |].
    eapply sameSlot_trans; [eapply updated_sameSlot; eassumption |].
    eapply rollup_sameSlot. exact R.
Qed.

End OneHour.

Lemma conversation_books_one_hour_witness :
  processConversation perCharacter noBlob 0 MODEL_COSTS (oneTurn (Some (TNumber 3600)))
    emptyAggregator
  = Ok (tryCatch (processConversation perCharacter noBlob 0 MODEL_COSTS
                    (oneTurn (Some (TNumber 3600))) emptyAggregator) (emptyAggregator, ∅)) /\
  sameSlot "1970-01-01" 0 emptyAggregator
    (fst (tryCatch (processConversation perCharacter noBlob 0 MODEL_COSTS
                      (oneTurn (Some (TNumber 3600))) emptyAggregator) (emptyAggregator, ∅))).
Proof.
  assert (H : processConversation perCharacter noBlob 0 MODEL_COSTS
                (oneTurn (Some (TNumber 3600))) emptyAggregator
              = Ok (tryCatch (processConversation perCharacter noBlob 0 MODEL_COSTS
                                (oneTurn (Some (TNumber 3600))) emptyAggregator)
                      (emptyAggregator, ∅))) by (vm_compute; reflexivity).
  split; [exact H |].
  destruct (tryCatch _ _) as [a' used] eqn:E. cbn [fst].
  apply (proj2 (conversation_books_one_hour perCharacter noBlob 0 MODEL_COSTS _ _ _ _ H) 0%nat).
  vm_compute. discriminate.
Defined.

(** ** Conversations are counted independently *)

Section Linked.

Variable m : BucketWithHours.t -> Z.
Variable delta : Z -> Z -> Z.
Hypothesis m_usage : forall b hs i o c, m (addToTotals b hs i o c) = m b + delta i o.
Hypothesis m_bump : forall b, m (bumpConversationCount b) = m b.
Hypothesis m_create : m createBucketWithHours = 0.

Lemma linked_refl a b : linked m a b a b.
Proof. intros d. split; [lia | intros s; lia]. Qed.

Lemma linked_trans a b a1 b1 a2 b2 :
  linked m a b a1 b1 -> linked m a1 b1 a2 b2 -> linked m a b a2 b2.
Proof.
  intros H1 H2 d. destruct (H1 d) as [T1 M1]. destruct (H2 d) as [T2 M2].
  split; [lia |]. intros s. specialize (M1 s). specialize (M2 s). lia.
Qed.

Lemma update_measure costs a dayKey hour slug i o a' d s :
  updateAggregatorUsage costs a dayKey hour slug i o = Ok a' ->
  m (dayTotal a' d) = m (dayTotal a d) + (if decide (d = dayKey) then delta i o else 0) /\
  m (modelTotal a' d s)
    = m (modelTotal a d s) + (if decide (d = dayKey /\ s = slug) then delta i o else 0).
Proof.
  intros Hup. destruct (decide (d = dayKey)) as [-> | Hd].
  - destruct (dayTotal_update _ _ _ _ _ _ _ _ Hup) as (th & _ & ->). rewrite m_usage.
    split; [reflexivity |].
    destruct (decide (s = slug)) as [-> | Hs].
    + destruct (modelTotal_update _ _ _ _ _ _ _ _ Hup) as (mh & _ & ->). rewrite m_usage.
      rewrite decide_True by auto. reflexivity.
    + rewrite decide_False by tauto.
      destruct (updateAggregatorUsage_Ok _ _ _ _ _ _ _ _ Hup) as (mh & th' & _ & _ & ->).
      unfold modelTotal. unfold dayBucketOf at 1.
      rewrite usageByDay_set, lookup_insert_eq. cbn.
      rewrite lookup_insert_ne by congruence. lia.
  - rewrite decide_False by tauto.
    pose proof (dayBucketOf_update _ _ _ _ _ _ _ _ d Hup Hd) as Heq.
    unfold modelTotal, dayTotal, dayBucketOf. rewrite Heq. lia.
Qed.

Lemma update_linked costsA costsB a b dayKey hour slug i o a' b' :
  updateAggregatorUsage costsA a dayKey hour slug i o = Ok a' ->
  updateAggregatorUsage costsB b dayKey hour slug i o = Ok b' ->
  linked m a b a' b'.
Proof.
  intros Ha Hb d. split; [| intros s].
  - destruct (update_measure _ _ _ _ _ _ _ _ d "" Ha) as [-> _].
    destruct (update_measure _ _ _ _ _ _ _ _ d "" Hb) as [-> _]. lia.
  - destruct (update_measure _ _ _ _ _ _ _ _ d s Ha) as [_ ->].
    destruct (update_measure _ _ _ _ _ _ _ _ d s Hb) as [_ ->]. lia.
Qed.

Lemma flatStep_linked costsA costsB dayKey hour stA stB msg stA' stB' :
  flatStep costsA dayKey hour stA msg = Ok stA' ->
  flatStep costsB dayKey hour stB msg = Ok stB' ->
  countersOf stA = countersOf stB ->
  countersOf stA' = countersOf stB' /\ linked m (agg stA) (agg stB) (agg stA') (agg stB').
Proof.
  unfold flatStep, countersOf. intros HA HB [= Ec Eo]. revert HA HB. rewrite Ec, Eo.
  destruct (FlatMsg.isReasoningRecap msg).
  { intros [= <-] [= <-]. cbn. rewrite Ec, Eo. split; [reflexivity | apply linked_refl]. }
  destruct (isContextRole _).
  { intros [= <-] [= <-]. cbn. split; [reflexivity | apply linked_refl]. }
  destruct (String.eqb _ "assistant").
  2:{ intros [= <-] [= <-]. cbn. split; [reflexivity | apply linked_refl]. }
  destruct (FlatMsg.isFinalMessage msg).
  2:{ intros [= <-] [= <-]. cbn. split; [reflexivity | apply linked_refl]. }
  match goal with
  | |- context [updateAggregatorUsage costsA ?x ?d ?h ?s ?i ?o] =>
      destruct (updateAggregatorUsage costsA x d h s i o) as [a' |] eqn:HupA; [| discriminate];
      destruct (updateAggregatorUsage costsB (agg stB) d h s i o) as [b' |] eqn:HupB;
        [| discriminate]
  end.
  cbn. intros [= <-] [= <-]. cbn. split; [reflexivity |].
  eapply update_linked; eassumption.
Qed.

Lemma flatLoop_linked costsA costsB dayKey hour msgs stA stB stA' stB' :
  forM (flatStep costsA dayKey hour) msgs stA = Ok stA' ->
  forM (flatStep costsB dayKey hour) msgs stB = Ok stB' ->
  countersOf stA = countersOf stB ->
  linked m (agg stA) (agg stB) (agg stA') (agg stB').
Proof.
  revert stA stB. induction msgs as [| msg msgs IH]; intros stA stB; cbn [forM].
  - intros [= <-] [= <-] _. apply linked_refl.
  - destruct (flatStep costsA dayKey hour stA msg) as [stA1 |] eqn:HA; [| discriminate].
    destruct (flatStep costsB dayKey hour stB msg) as [stB1 |] eqn:HB; [| discriminate].
    cbn. intros HA' HB' Hc.
    destruct (flatStep_linked _ _ _ _ _ _ _ _ _ HA HB Hc) as [Hc1 L1].
    eapply linked_trans; [exact L1 | exact (IH _ _ HA' HB' Hc1)].
Qed.

Lemma imageGenerationUsage_linked costsA costsB dayKey hour msg a b usedA usedB a' b' usedA' usedB' :
  imageGenerationUsage costsA dayKey hour msg (a, usedA) = Ok (a', usedA') ->
  imageGenerationUsage costsB dayKey hour msg (b, usedB) = Ok (b', usedB') ->
  linked m a b a' b'.
Proof.
  rewrite !imageGenerationUsage_eq. cbv zeta.
  destruct (0 <? _); [| intros [= <- _] [= <- _]; apply linked_refl].
  destruct (String.eqb _ "dalle.text2im").
  - match goal with
    | |- context [updateAggregatorUsage costsA a ?d ?h ?s ?i ?o] =>
        destruct (updateAggregatorUsage costsA a d h s i o) as [a1 |] eqn:HA1; [| discriminate];
        destruct (updateAggregatorUsage costsB b d h s i o) as [b1 |] eqn:HB1; [| discriminate]
    end.
    cbn.
    match goal with
    | |- context [updateAggregatorUsage costsA a1 ?d ?h ?s ?i ?o] =>
        destruct (updateAggregatorUsage costsA a1 d h s i o) as [a2 |] eqn:HA2; [| discriminate];
        destruct (updateAggregatorUsage costsB b1 d h s i o) as [b2 |] eqn:HB2; [| discriminate]
    end.
    cbn. intros [= <- _] [= <- _].
    eapply linked_trans; eapply update_linked; eassumption.
  - match goal with
    | |- context [updateAggregatorUsage costsA a ?d ?h ?s ?i ?o] =>
        destruct (updateAggregatorUsage costsA a d h s i o) as [a1 |] eqn:HA1; [| discriminate];
        destruct (updateAggregatorUsage costsB b d h s i o) as [b1 |] eqn:HB1; [| discriminate]
    end.
    cbn. intros [= <- _] [= <- _]. eapply update_linked; eassumption.
Qed.

Lemma bumpModels_measure (models : gmap string BucketWithHours.t) (l : list string) (s : string) :
  m (default createBucketWithHours (foldr bumpModel models l !! s))
  = m (default createBucketWithHours (models !! s)).
Proof.
  induction l as [| x l IH]; cbn; [reflexivity |].
  unfold bumpModel at 1. destruct (decide (x = s)) as [-> | Hs].
  - rewrite lookup_insert_eq. cbn. rewrite m_bump. exact IH.
  - rewrite lookup_insert_ne by exact Hs. exact IH.
Qed.

Lemma rollup_measure dayKey used a a' d s :
  rollup dayKey used a = Ok a' ->
  m (dayTotal a' d) = m (dayTotal a d) /\ m (modelTotal a' d s) = m (modelTotal a d s).
Proof.
  unfold rollup. destruct (_ && _)%bool; [| intros [= <-]; auto].
  destruct (Aggregator.usageByDay a !! dayKey) as [db |] eqn:Hl; [| discriminate].
  intros [= <-]. unfold modelTotal, dayTotal, dayBucketOf.
  rewrite usageByDay_set. destruct (decide (dayKey = d)) as [<- | Hd].
  - rewrite lookup_insert_eq, Hl. cbn. rewrite m_bump, bumpModels_measure. auto.
  - rewrite lookup_insert_ne by exact Hd. auto.
Qed.

Lemma ensureDay_measure dayKey a d s :
  m (dayTotal (ensureDay dayKey a) d) = m (dayTotal a d) /\
  m (modelTotal (ensureDay dayKey a) d s) = m (modelTotal a d s).
Proof. unfold modelTotal, dayTotal. rewrite ensureDay_bucket. auto. Qed.

Section Walk.

Variable encode : string -> Z.
Variable JSON_stringify : json -> string.

Lemma walkLoop_linked costsA costsB dayKey hour mapping stA stB stA' stB' :
  forM (walkStep encode JSON_stringify costsA dayKey hour) mapping stA = Ok stA' ->
  forM (walkStep encode JSON_stringify costsB dayKey hour) mapping stB = Ok stB' ->
  linked m (Walk.agg stA) (Walk.agg stB) (Walk.agg stA') (Walk.agg stB').
Proof.
  revert stA stB. induction mapping as [| entry mapping IH]; intros stA stB; cbn [forM].
  - intros [= <-] [= <-]. apply linked_refl.
  - destruct (walkStep encode JSON_stringify costsA dayKey hour stA entry) as [stA1 |] eqn:HA;
      [| discriminate].
    destruct (walkStep encode JSON_stringify costsB dayKey hour stB entry) as [stB1 |] eqn:HB;
      [| discriminate].
    cbn. intros HA' HB'. eapply linked_trans; [| exact (IH _ _ HA' HB')].
    revert HA HB. unfold walkStep.
    destruct (Node.message (snd entry)) as [msg |];
      [| intros [= <-] [= <-]; apply linked_refl].
    destruct (String.eqb _ "tool").
    + destruct (imageGenerationUsage costsA dayKey hour msg _) as [[a1 usedA] |] eqn:IA;
        [| discriminate].
      destruct (imageGenerationUsage costsB dayKey hour msg _) as [[b1 usedB] |] eqn:IB;
        [| discriminate].
      cbn. intros [= <-] [= <-]. cbn.
      eapply imageGenerationUsage_linked; eassumption.
    + cbn. intros [= <-] [= <-]. apply linked_refl.
Qed.

Lemma processMappedMessages_linked costsA costsB mapping dayKey hour a b a' b' usedA usedB :
  processMappedMessages encode JSON_stringify costsA mapping dayKey hour a = Ok (a', usedA) ->
  processMappedMessages encode JSON_stringify costsB mapping dayKey hour b = Ok (b', usedB) ->
  linked m a b a' b'.
Proof.
  unfold processMappedMessages.
  destruct (forM _ mapping (Walk.mk [] ∅ a)) as [stA |] eqn:WA; [| discriminate].
  destruct (forM _ mapping (Walk.mk [] ∅ b)) as [stB |] eqn:WB; [| discriminate].
  cbn [mbind result_bind].
  destruct (walkLoop_Ok _ _ _ _ _ _ _ _ WA) as (_ & _ & NA).
  destruct (walkLoop_Ok _ _ _ _ _ _ _ _ WB) as (_ & _ & NB). cbn in NA, NB.
  rewrite NA, NB. unfold processFlatMessagesWithTokenCounts, flatRun.
  destruct (forM _ _ (flatInit (Walk.agg stA))) as [fA |] eqn:FA; [| discriminate].
  destruct (forM _ _ (flatInit (Walk.agg stB))) as [fB |] eqn:FB; [| discriminate].
  cbn. intros [= <- _] [= <- _].
  eapply linked_trans; [exact (walkLoop_linked _ _ _ _ _ _ _ _ _ WA WB) |].
  exact (flatLoop_linked _ _ _ _ _ _ _ _ _ FA FB eq_refl).
Qed.

Lemma processConversation_linked now costsA costsB c a b a' b' usedA usedB :
  processConversation encode JSON_stringify now costsA c a = Ok (a', usedA) ->
  processConversation encode JSON_stringify now costsB c b = Ok (b', usedB) ->
  linked m a b a' b'.
Proof.
  unfold processConversation. destruct (dayAndHour now c) as [dayKey hour].
  assert (He : linked m a b (ensureDay dayKey a) (ensureDay dayKey b)).
  { intros d. split; [| intros s].
    - destruct (ensureDay_measure dayKey a d "") as [-> _].
      destruct (ensureDay_measure dayKey b d "") as [-> _]. lia.
    - destruct (ensureDay_measure dayKey a d s) as [_ ->].
      destruct (ensureDay_measure dayKey b d s) as [_ ->]. lia. }
  assert (Hr : forall x y x' y' usedX usedY,
            rollup dayKey usedX x = Ok x' -> rollup dayKey usedY y = Ok y' ->
            linked m x y x' y').
  { intros x y x' y' usedX usedY RX RY d. split; [| intros s].
    - destruct (rollup_measure _ _ _ _ d "" RX) as [-> _].
      destruct (rollup_measure _ _ _ _ d "" RY) as [-> _]. lia.
    - destruct (rollup_measure _ _ _ _ d s RX) as [_ ->].
      destruct (rollup_measure _ _ _ _ d s RY) as [_ ->]. lia. }
  destruct (Conversation.mapping c) as [mapping |].
  - destruct (processMappedMessages encode JSON_stringify costsA mapping dayKey hour _)
      as [[a1 uA] |] eqn:MA; [| discriminate].
    destruct (processMappedMessages encode JSON_stringify costsB mapping dayKey hour _)
      as [[b1 uB] |] eqn:MB; [| discriminate].
    cbn. destruct (rollup dayKey uA a1) as [a2 |] eqn:RA; [| discriminate].
    destruct (rollup dayKey uB b1) as [b2 |] eqn:RB; [| discriminate].
    cbn. intros [= <- _] [= <- _].
    eapply linked_trans; [exact He |].
    eapply linked_trans; [exact (processMappedMessages_linked _ _ _ _ _ _ _ _ _ _ _ MA MB) |].
    exact (Hr _ _ _ _ _ _ RA RB).
  - cbn. destruct (rollup dayKey ∅ (ensureDay dayKey a)) as [a2 |] eqn:RA; [| discriminate].
    destruct (rollup dayKey ∅ (ensureDay dayKey b)) as [b2 |] eqn:RB; [| discriminate].
    cbn. intros [= <- _] [= <- _].
    eapply linked_trans; [exact He | exact (Hr _ _ _ _ _ _ RA RB)].
Qed.

Lemma conversationLoop_sum now costs costs' data a a' d s :
  everyBucket fullDay a ->
  forM (conversationStep encode JSON_stringify now costs) data a = Ok a' ->
  m (dayTotal a' d)
    = m (dayTotal a d)
      + sumZ ((fun c => m (dayTotal (solo encode JSON_stringify now costs' c) d))
                <$> conversationsOf data) /\
  m (modelTotal a' d s)
    = m (modelTotal a d s)
      + sumZ ((fun c => m (modelTotal (solo encode JSON_stringify now costs' c) d s))
                <$> conversationsOf data).
Proof.
  revert a. induction data as [| entry data IH]; intros a Ha; cbn [forM].
  - intros [= <-]. cbn. lia.
  - rewrite conversationsOf_cons. destruct entry as [c |]; [| apply IH, Ha].
    change (conversationStep encode JSON_stringify now costs a (Some c))
      with (processConversation encode JSON_stringify now costs c a
            ≫= fun '(a1, used) => Ok (addSlugs used a1)).
    pose proof (conversationStep_outcome encode JSON_stringify now costs a c Ha) as HA.
    pose proof (conversationStep_outcome encode JSON_stringify now costs' emptyAggregator c
                  (everyBucket_emptyAggregator fullDay)) as HB.
    destruct (breaksRun encode JSON_stringify now c).
    { rewrite HA. discriminate. }
    destruct HA as (a1 & used & HA & Ha1). destruct HB as (b1 & usedB & HB & _).
    rewrite HA. cbn [mbind result_bind]. intros Hrest.
    destruct (IH (addSlugs used a1) (everyBucket_addSlugs fullDay used a1 Ha1) Hrest)
      as [-> ->].
    rewrite fmap_cons, fmap_cons, !sumZ_cons. unfold solo. rewrite HB. cbn [tryCatch fst].
    destruct (processConversation_linked _ _ _ _ _ _ _ _ _ _ HA HB d)
      as [T M].
    specialize (M s).
    change (dayTotal (addSlugs used a1) d) with (dayTotal a1 d).
    change (modelTotal (addSlugs used a1) d s) with (modelTotal a1 d s).
    assert (E0 : m (dayTotal emptyAggregator d) = 0) by exact m_create.
    assert (E1 : m (modelTotal emptyAggregator d s) = 0) by exact m_create.
    lia.
Qed.

End Walk.

End Linked.

Section Independence.

Variable encode : string -> Z.
Variable JSON_stringify : json -> string.

(** Conversations are counted independently of each other.  After a run
    that returns, the input tokens, the output tokens and the message
    count of every day, and of every model on every day, are the sums
    over the conversations of the input of what the conversation yields
    when it is processed alone on an empty aggregator, whatever cost
    table is used there.  So these counters do not depend on the order
    of the conversations in the export. *)
Theorem run_is_sum_of_conversations now costs costs' data a :
  processConversations encode JSON_stringify now costs data = Ok a ->
  forall m, m ∈ usageCounters ->
  forall d s,
    m (dayTotal a d)
      = sumZ ((fun c => m (dayTotal (solo encode JSON_stringify now costs' c) d))
                <$> conversationsOf data) /\
    m (modelTotal a d s)
      = sumZ ((fun c => m (modelTotal (solo encode JSON_stringify now costs' c) d s))
                <$> conversationsOf data).
Proof.
  intros Hrun m Hm d s.
  destruct (processConversations_Ok _ _ _ _ _ _ Hrun) as (a0 & a1 & H0 & Hloop & H1).
  assert (Hsum : forall delta,
             (forall b hs i o c, m (addToTotals b hs i o c) = m b + delta i o) ->
             (forall b, m (bumpConversationCount b) = m b) ->
             m createBucketWithHours = 0 ->
             m (dayTotal a1 d)
               = sumZ ((fun c => m (dayTotal (solo encode JSON_stringify now costs' c) d))
                         <$> conversationsOf data) /\
             m (modelTotal a1 d s)
               = sumZ ((fun c => m (modelTotal (solo encode JSON_stringify now costs' c) d s))
                         <$> conversationsOf data)).
  { intros delta Hu Hb Hc.
    destruct (conversationLoop_sum m delta Hu Hb Hc encode JSON_stringify now
                (snd (scanForModelSlugs costs data None)) costs' data a0 a1 d s)
      as [T M]; [| exact Hloop |].
    - intros k b Hk. rewrite H0 in Hk. rewrite lookup_empty in Hk. discriminate.
    - assert (E0 : m (dayTotal a0 d) = 0)
        by (unfold dayTotal, dayBucketOf; rewrite H0, lookup_empty; exact Hc).
      assert (E1 : m (modelTotal a0 d s) = 0)
        by (unfold modelTotal, dayBucketOf; rewrite H0, lookup_empty; exact Hc).
      rewrite T, M, E0, E1. split; reflexivity. }
  assert (Ed : dayTotal a d = dayTotal a1 d) by (unfold dayTotal, dayBucketOf; rewrite H1; reflexivity).
  assert (Em : modelTotal a d s = modelTotal a1 d s)
    by (unfold modelTotal, dayBucketOf; rewrite H1; reflexivity).
  rewrite Ed, Em. unfold usageCounters in Hm.
  rewrite !elem_of_cons, elem_of_nil in Hm. destruct Hm as [-> | [-> | [-> | []]]].
  - apply (Hsum (fun i _ => i)); reflexivity.
  - apply (Hsum (fun _ o => o)); reflexivity.
  - apply (Hsum (fun _ _ => 1)); reflexivity.
Qed.

End Independence.

Lemma run_is_sum_of_conversations_witness :
  run 0 sampleData = Ok sampleResult /\
  BucketWithHours.input_tokens (dayTotal sampleResult "1970-01-02")
    = sumZ ((fun c => BucketWithHours.input_tokens
                        (dayTotal (solo perCharacter noBlob 0 ∅ c) "1970-01-02"))
              <$> conversationsOf sampleData).
Proof.
  assert (H : run 0 sampleData = Ok sampleResult) by (vm_compute; reflexivity).
  split; [exact H |].
  assert (Hm : BucketWithHours.input_tokens ∈ usageCounters) by apply list_elem_of_here.
  exact (proj1 (run_is_sum_of_conversations perCharacter noBlob 0 MODEL_COSTS ∅
                  sampleData sampleResult H _ Hm "1970-01-02" "")).
Defined.
